(** * HomeMadeChess: a shallow embedding of the rules engine

    The development follows the layout of [src/core]: pieces, board, moves,
    game state with its FEN codec, the apply/undo engine, the move generator
    and the status rules.  Python exceptions are modelled by the [result]
    monad; objects that Python mutates in place are passed and returned
    explicitly.  Coordinates are [(rank, file)] pairs of integers (they may
    leave the board during ray walks, exactly as in the source). *)

From Stdlib Require Import ZArith Lia Bool Ascii String DecimalString
  DecimalPos.
From stdpp Require Import base tactics option list.

Local Open Scope Z_scope.

(** ** Exceptions *)

Inductive exn := ValueError | IndexError.

Inductive result (A : Type) :=
| Ok (a : A)
| Raise (e : exn).
Arguments Ok {A} a.
Arguments Raise {A} e.

Definition bind {A B} (m : result A) (k : A -> result B) : result B :=
  match m with
  | Ok a => k a
  | Raise e => Raise e
  end.

Notation "x <- m ;; k" := (bind m (fun x => k))
  (at level 90, m at level 89, right associativity).

(** ** core/piece.py *)

Inductive Color := WHITE | BLACK.
Inductive PieceType := PAWN | KNIGHT | BISHOP | ROOK | QUEEN | KING.

Definition Square : Type := Z * Z.

(** A piece carries its colour, its type (the class of the Python object)
    and the square it believes it stands on. *)
Record Piece := mkPiece {
  piece_type : PieceType;
  color : Color;
  position : Square
}.

#[global] Instance Color_eq_dec : EqDecision Color.
Proof. solve_decision. Defined.
#[global] Instance PieceType_eq_dec : EqDecision PieceType.
Proof. solve_decision. Defined.
#[global] Instance Piece_eq_dec : EqDecision Piece.
Proof. solve_decision. Defined.

Definition is_white (p : Piece) : bool := bool_decide (color p = WHITE).

(** [Pawn.start_rank] and [Pawn.direction]. *)
Definition start_rank (p : Piece) : Z := if is_white p then 1 else 6.
Definition direction (p : Piece) : Z := if is_white p then 1 else -1.

Definition knight_deltas : list (Z * Z) :=
  [(-2, -1); (-2, 1); (-1, -2); (-1, 2); (1, -2); (1, 2); (2, -1); (2, 1)].
Definition bishop_deltas : list (Z * Z) :=
  [(-1, -1); (-1, 1); (1, -1); (1, 1)].
Definition rook_deltas : list (Z * Z) :=
  [(-1, 0); (1, 0); (0, -1); (0, 1)].
Definition queen_deltas : list (Z * Z) :=
  [(-1, -1); (-1, 0); (-1, 1); (0, -1); (0, 1); (1, -1); (1, 0); (1, 1)].
Definition king_deltas : list (Z * Z) :=
  [(-1, -1); (-1, 0); (-1, 1); (0, -1); (0, 1); (1, -1); (1, 0); (1, 1)].

(** Character classes of Python's [str] methods, on 8-bit characters read
    as Latin-1 code points. *)
Definition code (c : ascii) : Z := Z.of_nat (nat_of_ascii c).

Definition py_isspace (c : ascii) : bool :=
  let n := code c in
  ((9 <=? n) && (n <=? 13)) || ((28 <=? n) && (n <=? 32))
  || (n =? 133) || (n =? 160).

Definition is_ascii_digit (c : ascii) : bool :=
  let n := code c in (48 <=? n) && (n <=? 57).

(** [str.isdigit] also accepts the superscript digits of Latin-1, which
    [int] then rejects. *)
Definition py_isdigit (c : ascii) : bool :=
  let n := code c in
  is_ascii_digit c || (n =? 178) || (n =? 179) || (n =? 185).

Definition py_int_char (c : ascii) : result Z :=
  if is_ascii_digit c then Ok (code c - 48) else Raise ValueError.

Definition ascii_lower (c : ascii) : ascii :=
  let n := code c in
  if (65 <=? n) && (n <=? 90) then ascii_of_nat (Z.to_nat (n + 32)) else c.

Definition piece_symbol (t : PieceType) : ascii :=
  match t with
  | PAWN => "P" | KNIGHT => "N" | BISHOP => "B"
  | ROOK => "R" | QUEEN => "Q" | KING => "K"
  end%char.

(** [piece_from_fen], for a one-character symbol that is not whitespace
    (the only way the engine calls it). *)
Definition piece_from_fen (symbol : ascii) (pos : Square) : result Piece :=
  match symbol with
  | "P" => Ok (mkPiece PAWN WHITE pos)
  | "N" => Ok (mkPiece KNIGHT WHITE pos)
  | "B" => Ok (mkPiece BISHOP WHITE pos)
  | "R" => Ok (mkPiece ROOK WHITE pos)
  | "Q" => Ok (mkPiece QUEEN WHITE pos)
  | "K" => Ok (mkPiece KING WHITE pos)
  | "p" => Ok (mkPiece PAWN BLACK pos)
  | "n" => Ok (mkPiece KNIGHT BLACK pos)
  | "b" => Ok (mkPiece BISHOP BLACK pos)
  | "r" => Ok (mkPiece ROOK BLACK pos)
  | "q" => Ok (mkPiece QUEEN BLACK pos)
  | "k" => Ok (mkPiece KING BLACK pos)
  | _ => Raise ValueError
  end%char.

(** The symbol the engine rebuilds a piece from:
    [p.piece_type if p.color == WHITE else p.piece_type.lower()]. *)
Definition fen_symbol (t : PieceType) (c : Color) : ascii :=
  match c with
  | WHITE => piece_symbol t
  | BLACK => ascii_lower (piece_symbol t)
  end.

(** ** core/board.py *)

Abbreviation Board := (list (list (option Piece))).

Definition RANKS : Z := 8.
Definition FILES : Z := 8.

Definition empty_board : Board :=
  replicate 8 (replicate 8 None).

Definition is_valid_square (rank file : Z) : bool :=
  (0 <=? rank) && (rank <? RANKS) && (0 <=? file) && (file <? FILES).

(** [self._grid[rank][file]] for in-range coordinates. *)
Definition grid (b : Board) (rank file : Z) : option Piece :=
  match b !! Z.to_nat rank with
  | Some row =>
      match row !! Z.to_nat file with
      | Some cell => cell
      | None => None
      end
  | None => None
  end.

(** [self._grid[rank][file] = value]. *)
Definition grid_set (b : Board) (rank file : Z) (v : option Piece) : Board :=
  match b !! Z.to_nat rank with
  | Some row => <[Z.to_nat rank := <[Z.to_nat file := v]> row]> b
  | None => b
  end.

(** Storing a piece also writes the square into the piece.  The board of
    records holds the updated record; the piece object itself, which may
    be shared between squares, is that of [obj_set_piece_at]. *)
Definition placed (rank file : Z) (v : option Piece) : option Piece :=
  match v with
  | Some p => Some (mkPiece (piece_type p) (color p) (rank, file))
  | None => None
  end.

Definition board_getitem (b : Board) (rank file : Z) : result (option Piece) :=
  if is_valid_square rank file then Ok (grid b rank file)
  else Raise IndexError.

Definition get_piece_at (b : Board) (rank file : Z) : option Piece :=
  if is_valid_square rank file then grid b rank file else None.

Definition set_piece_at (b : Board) (rank file : Z) (piece : option Piece)
  : result Board :=
  if is_valid_square rank file
  then Ok (grid_set b rank file (placed rank file piece))
  else Raise IndexError.

Definition clear_square (b : Board) (rank file : Z) : result Board :=
  set_piece_at b rank file None.

Definition range8 : list Z := [0; 1; 2; 3; 4; 5; 6; 7].

Definition all_squares : list Square :=
  r ← range8; f ← range8; [(r, f)].

Definition is_king_of (c : Color) (cell : option Piece) : bool :=
  match cell with
  | Some p => bool_decide (color p = c) && bool_decide (piece_type p = KING)
  | None => false
  end.

(** [find_king]: the first square, rank by rank, holding a king of [c]. *)
Definition find_king (b : Board) (c : Color) : option Square :=
  List.find (fun sq : Square => is_king_of c (grid b sq.1 sq.2)) all_squares.

(** [deep_copy]: a fresh 8x8 grid with a new piece, built by
    [piece_from_fen] at its square, for every occupied square. *)
Definition copy_cell (b : Board) (r f : Z) : option Piece :=
  match grid b r f with
  | Some p =>
      match piece_from_fen (fen_symbol (piece_type p) (color p)) (r, f) with
      | Ok q => Some q
      | Raise _ => None
      end
  | None => None
  end.

Definition deep_copy (b : Board) : Board :=
  map (fun r => map (fun f => copy_cell b r f) range8) range8.

(** ** core/move.py *)

(** [PROMOTION_PIECES]; [Move.__post_init__] rejects every other symbol,
    so the field is typed by the four admissible ones. *)
Inductive Promo := PromoQ | PromoR | PromoB | PromoN.

Definition PROMOTION_PIECES : list Promo := [PromoQ; PromoR; PromoB; PromoN].

Definition promo_symbol (p : Promo) : ascii :=
  match p with
  | PromoQ => "Q" | PromoR => "R" | PromoB => "B" | PromoN => "N"
  end%char.

Record Move := mkMove {
  from_square : Square;
  to_square : Square;
  promotion_piece : option Promo;
  is_castle : bool;
  is_en_passant : bool;
  is_double_pawn_push : bool
}.

#[global] Instance Promo_eq_dec : EqDecision Promo.
Proof. solve_decision. Defined.
#[global] Instance Move_eq_dec : EqDecision Move.
Proof. solve_decision. Defined.

Definition plain_move (a b : Square) : Move :=
  mkMove a b None false false false.
Definition promotion_move (a b : Square) (p : Promo) : Move :=
  mkMove a b (Some p) false false false.
Definition castle_move (a b : Square) : Move :=
  mkMove a b None true false false.
Definition en_passant_move (a b : Square) : Move :=
  mkMove a b None false true false.
Definition double_push_move (a b : Square) : Move :=
  mkMove a b None false false true.

(** [str(n)] for an integer. *)
Definition py_str (n : Z) : string := NilZero.string_of_int (Z.to_int n).

(** [files[f]] for [files = "abcdefgh"], with Python's negative indices. *)
Definition files_index (f : Z) : result ascii :=
  let i := if f <? 0 then f + 8 else f in
  if (0 <=? i) && (i <? 8)
  then Ok (ascii_of_nat (Z.to_nat (97 + i)))
  else Raise IndexError.

Definition uci_style (m : Move) : result string :=
  let '(r0, f0) := from_square m in
  let '(r1, f1) := to_square m in
  c0 <- files_index f0 ;;
  c1 <- files_index f1 ;;
  let from_str := String c0 (py_str (8 - r0)) in
  let to_str := String c1 (py_str (8 - r1)) in
  let promo :=
    match promotion_piece m with
    | Some p => String (ascii_lower (promo_symbol p)) EmptyString
    | None => EmptyString
    end in
  Ok (from_str ++ to_str ++ promo)%string.

(** ** core/game_state.py: the state record *)

Record GameState := mkState {
  side_to_move : Color;
  castling_rights : string;
  en_passant_target : option Square;
  halfmove_clock : Z;
  fullmove_number : Z
}.

Definition CASTLING_KEYS : string := "KQkq".

Definition other_side (c : Color) : Color :=
  match c with WHITE => BLACK | BLACK => WHITE end.

(** [c in s] for a one-character [c]. *)
Definition char_in (c : ascii) (s : list ascii) : bool :=
  existsb (Ascii.eqb c) s.

(** [list.remove]: drops the first occurrence. *)
Fixpoint remove_first (c : ascii) (l : list ascii) : list ascii :=
  match l with
  | [] => []
  | x :: t => if Ascii.eqb c x then t else x :: remove_first c t
  end.

(** [if c in new_rights: new_rights.remove(c)]. *)
Definition drop_right (c : ascii) (l : list ascii) : list ascii :=
  if char_in c l then remove_first c l else l.

(** ** core/apply.py

    Pieces are values here, and [set_piece_at] stores a copy carrying the
    new square.  This agrees with the Python object graph as long as no
    piece object occupies two squares at once, which holds for the boards
    [from_fen] and [deep_copy] build and for the moves of the generator. *)

Record UndoInfo := mkUndo {
  captured_piece : option Piece;
  captured_square : Square;
  rook_from : option Square;
  rook_to : option Square;
  prev_castling : string;
  prev_ep : option Square;
  prev_halfmove : Z
}.

(** The castling-rights update of [apply_move], on the list of characters. *)
Definition rights_after_king (piece : Piece) (l : list ascii) : list ascii :=
  if bool_decide (piece_type piece = KING) then
    match color piece with
    | WHITE => drop_right "Q" (drop_right "K" l)
    | BLACK => drop_right "q" (drop_right "k" l)
    end
  else l.

Definition rights_after_rook (piece : Piece) (f0 : Z) (l : list ascii)
  : list ascii :=
  if bool_decide (piece_type piece = ROOK) then
    match color piece with
    | WHITE =>
        let l := if f0 =? 7 then drop_right "K" l else l in
        if f0 =? 0 then drop_right "Q" l else l
    | BLACK =>
        let l := if f0 =? 7 then drop_right "k" l else l in
        if f0 =? 0 then drop_right "q" l else l
    end
  else l.

Definition rights_after_capture (captured : option Piece) (csq : Square)
    (l : list ascii) : list ascii :=
  match captured with
  | Some cp =>
      if bool_decide (piece_type cp = ROOK) then
        let l :=
          if csq.2 =? 7 then
            match color cp with
            | WHITE => drop_right "K" l
            | BLACK => drop_right "k" l
            end
          else l in
        if csq.2 =? 0 then
          match color cp with
          | WHITE => drop_right "Q" l
          | BLACK => drop_right "q" l
          end
        else l
      else l
  | None => l
  end.

Definition new_castling_rights (piece : Piece) (f0 : Z)
    (captured : option Piece) (csq : Square) (rights : string) : string :=
  string_of_list_ascii
    (rights_after_capture captured csq
       (rights_after_rook piece f0
          (rights_after_king piece (list_ascii_of_string rights)))).

(** The en-passant step: the captured pawn is read and removed on the
    mover's origin rank and the destination file. *)
Definition apply_en_passant (board : Board) (move : Move)
  : result (Board * option Piece * Square) :=
  let '(r0, f0) := from_square move in
  let '(r1, f1) := to_square move in
  if is_en_passant move then
    cp <- board_getitem board r0 f1 ;;
    b <- clear_square board r0 f1 ;;
    Ok (b, cp, (r0, f1))
  else Ok (board, None, (r1, f1)).

(** The castling step: the rook leaves its corner. *)
Definition apply_castle_rook (board : Board) (move : Move)
  : result (Board * option Square * option Square) :=
  let '(r0, f0) := from_square move in
  let '(r1, f1) := to_square move in
  if is_castle move then
    let rf := if f0 <? f1 then (r0, 7) else (r0, 0) in
    let rt := if f0 <? f1 then (r0, 5) else (r0, 3) in
    rook_piece <- board_getitem board rf.1 rf.2 ;;
    b <- clear_square board rf.1 rf.2 ;;
    b <- set_piece_at b rt.1 rt.2 rook_piece ;;
    Ok (b, Some rf, Some rt)
  else Ok (board, None, None).

(** The ordinary capture on the destination square. *)
Definition apply_capture (board : Board) (move : Move)
    (captured : option Piece) : result (Board * option Piece) :=
  let '(r1, f1) := to_square move in
  if is_en_passant move then Ok (board, captured)
  else
    dest <- board_getitem board r1 f1 ;;
    match dest with
    | Some _ =>
        b <- clear_square board r1 f1 ;;
        Ok (b, dest)
    | None => Ok (board, captured)
    end.

(** Moving (or promoting) the piece itself. *)
Definition apply_relocate (board : Board) (move : Move) (piece : Piece)
  : result Board :=
  let '(r0, f0) := from_square move in
  let '(r1, f1) := to_square move in
  b <- clear_square board r0 f0 ;;
  match promotion_piece move with
  | Some promo =>
      let sym := match color piece with
                 | WHITE => promo_symbol promo
                 | BLACK => ascii_lower (promo_symbol promo)
                 end in
      new_piece <- piece_from_fen sym (r1, f1) ;;
      set_piece_at b r1 f1 (Some new_piece)
  | None => set_piece_at b r1 f1 (Some piece)
  end.

Definition apply_state (game_state : GameState) (move : Move) (piece : Piece)
    (captured : option Piece) (csq : Square) : GameState :=
  let '(r0, f0) := from_square move in
  let '(r1, f1) := to_square move in
  let side := other_side (side_to_move game_state) in
  let halfmove :=
    if bool_decide (piece_type piece = PAWN) || bool_decide (captured <> None)
    then 0 else halfmove_clock game_state + 1 in
  let fullmove :=
    if bool_decide (side = WHITE) then fullmove_number game_state + 1
    else fullmove_number game_state in
  let rights :=
    new_castling_rights piece f0 captured csq (castling_rights game_state) in
  let ep :=
    if is_double_pawn_push move then Some ((r0 + r1) / 2, f1) else None in
  mkState side rights ep halfmove fullmove.

Definition apply_move (board : Board) (game_state : GameState) (move : Move)
  : result (Board * GameState * UndoInfo) :=
  let '(r0, f0) := from_square move in
  origin <- board_getitem board r0 f0 ;;
  match origin with
  | None => Raise ValueError
  | Some piece =>
      ep <- apply_en_passant board move ;;
      let '(b1, captured1, csq) := ep in
      cs <- apply_castle_rook b1 move ;;
      let '(b2, rf, rt) := cs in
      cap <- apply_capture b2 move captured1 ;;
      let '(b3, captured) := cap in
      b4 <- apply_relocate b3 move piece ;;
      Ok (b4,
          apply_state game_state move piece captured csq,
          mkUndo captured csq rf rt
                 (castling_rights game_state)
                 (en_passant_target game_state)
                 (halfmove_clock game_state))
  end.

Definition undo_state (game_state : GameState) (u : UndoInfo) : GameState :=
  let side := other_side (side_to_move game_state) in
  mkState side (prev_castling u) (prev_ep u) (prev_halfmove u)
          (if bool_decide (side = BLACK) then fullmove_number game_state - 1
           else fullmove_number game_state).

Definition undo_move (board : Board) (game_state : GameState) (move : Move)
    (u : UndoInfo) : result (Board * GameState) :=
  let '(r0, f0) := from_square move in
  let '(r1, f1) := to_square move in
  dest <- board_getitem board r1 f1 ;;
  match dest with
  | None => Raise ValueError
  | Some piece =>
      let gs := undo_state game_state u in
      b <- clear_square board r1 f1 ;;
      b <- (match promotion_piece move with
            | Some _ =>
                set_piece_at b r0 f0 (Some (mkPiece PAWN (color piece) (r0, f0)))
            | None => set_piece_at b r0 f0 (Some piece)
            end) ;;
      b <- (match captured_piece u with
            | Some cp =>
                set_piece_at b (captured_square u).1 (captured_square u).2
                             (Some cp)
            | None => Ok b
            end) ;;
      b <- (match is_castle move, rook_from u, rook_to u with
            | true, Some rf, Some rt =>
                rook_piece <- board_getitem b rt.1 rt.2 ;;
                b' <- clear_square b rt.1 rt.2 ;;
                set_piece_at b' rf.1 rf.2 rook_piece
            | _, _, _ => Ok b
            end) ;;
      Ok (b, gs)
  end.

(** ** core/move_generator.py *)

(** [p is not None and p.color == c and p.piece_type == t] for the piece
    on an in-range square; [False] off the board. *)
Definition stands (b : Board) (r f : Z) (c : Color) (t : PieceType) : bool :=
  if is_valid_square r f then
    match get_piece_at b r f with
    | Some p => bool_decide (color p = c) && bool_decide (piece_type p = t)
    | None => false
    end
  else false.

(** The pawn loop of [square_attacked_by]. *)
Definition pawn_attacks (b : Board) (square : Square) (by_color : Color)
  : bool :=
  let '(rank, file) := square in
  let direction := if bool_decide (by_color = WHITE) then 1 else -1 in
  existsb (fun df => stands b (rank + direction) (file + df) by_color PAWN)
          [-1; 1].

(** The loops over [Knight.move_deltas] and [King.move_deltas]. *)
Definition leaper_attacks (b : Board) (square : Square) (by_color : Color)
    (t : PieceType) (deltas : list (Z * Z)) : bool :=
  let '(rank, file) := square in
  existsb (fun d : Z * Z => stands b (rank + d.1) (file + d.2) by_color t)
          deltas.

(** What [square_attacked_by] decides at the first piece met on a ray. *)
Definition slider_hits (p : Piece) (by_color : Color) (dr df : Z) : bool :=
  bool_decide (color p = by_color)
  && ((bool_decide (piece_type p = ROOK) || bool_decide (piece_type p = QUEEN))
        && ((dr =? 0) || (df =? 0))
      || (bool_decide (piece_type p = BISHOP)
          || bool_decide (piece_type p = QUEEN))
        && negb (dr =? 0) && negb (df =? 0)).

(** The [while] loop along one ray, from [(r2, f2)] on.  The fuel counts
    the iterations; eight are always enough (see [ray_attack_fuel]). *)
Fixpoint ray_attack (fuel : nat) (b : Board) (by_color : Color)
    (exclude_square : option Square) (dr df r2 f2 : Z) : bool :=
  match fuel with
  | O => false
  | S n =>
      if is_valid_square r2 f2 then
        match get_piece_at b r2 f2 with
        | Some p =>
            if bool_decide (Some (r2, f2) = exclude_square)
            then ray_attack n b by_color exclude_square dr df (r2 + dr) (f2 + df)
            else slider_hits p by_color dr df
        | None =>
            ray_attack n b by_color exclude_square dr df (r2 + dr) (f2 + df)
        end
      else false
  end.

Definition slider_attacks (b : Board) (square : Square) (by_color : Color)
    (exclude_square : option Square) : bool :=
  let '(rank, file) := square in
  existsb (fun d : Z * Z =>
             ray_attack 8 b by_color exclude_square d.1 d.2
                        (rank + d.1) (file + d.2))
          (rook_deltas ++ bishop_deltas).

Definition square_attacked_by (b : Board) (square : Square)
    (by_color : Color) (exclude_square : option Square) : bool :=
  pawn_attacks b square by_color
  || leaper_attacks b square by_color KNIGHT knight_deltas
  || slider_attacks b square by_color exclude_square
  || leaper_attacks b square by_color KING king_deltas.

Definition is_none {A} (o : option A) : bool :=
  match o with Some _ => false | None => true end.

Definition last_rank (r : Z) : bool := (r =? 0) || (r =? 7).

Definition enemy_on (b : Board) (r f : Z) (piece : Piece) : bool :=
  match get_piece_at b r f with
  | Some target => negb (bool_decide (color target = color piece))
  | None => false
  end.

Definition pawn_push_moves (b : Board) (piece : Piece) : list Move :=
  let '(r0, f0) := position piece in
  let dr := direction piece in
  let r1 := r0 + dr in
  if is_valid_square r1 f0 && is_none (get_piece_at b r1 f0) then
    if last_rank r1 then
      map (promotion_move (r0, f0) (r1, f0)) PROMOTION_PIECES
    else
      plain_move (r0, f0) (r1, f0)
      :: (if r0 =? start_rank piece then
            let r2 := r0 + 2 * dr in
            if is_none (get_piece_at b r2 f0)
            then [double_push_move (r0, f0) (r2, f0)] else []
          else [])
  else [].

Definition pawn_capture_moves (b : Board) (piece : Piece) : list Move :=
  let '(r0, f0) := position piece in
  let dr := direction piece in
  flat_map
    (fun df =>
       let r1 := r0 + dr in
       let f1 := f0 + df in
       if is_valid_square r1 f1 && enemy_on b r1 f1 piece then
         if last_rank r1 then
           map (promotion_move (r0, f0) (r1, f1)) PROMOTION_PIECES
         else [plain_move (r0, f0) (r1, f1)]
       else [])
    [-1; 1].

Definition pawn_en_passant_moves (gs : GameState) (piece : Piece)
  : list Move :=
  let '(r0, f0) := position piece in
  let dr := direction piece in
  match en_passant_target gs with
  | Some (ep_rank, ep_file) =>
      if (r0 + dr =? ep_rank) && (Z.abs (f0 - ep_file) =? 1)
      then [en_passant_move (r0, f0) (ep_rank, ep_file)] else []
  | None => []
  end.

Definition _pseudo_legal_pawn_moves (b : Board) (gs : GameState)
    (piece : Piece) : list Move :=
  pawn_push_moves b piece ++ pawn_capture_moves b piece
  ++ pawn_en_passant_moves gs piece.

(** One ray of [_pseudo_legal_sliding_moves]; eight iterations are again
    enough (see [ray_moves_fuel]). *)
Fixpoint ray_moves (fuel : nat) (b : Board) (piece : Piece)
    (dr df r f : Z) : list Move :=
  match fuel with
  | O => []
  | S n =>
      if is_valid_square r f then
        match get_piece_at b r f with
        | None =>
            plain_move (position piece) (r, f)
            :: ray_moves n b piece dr df (r + dr) (f + df)
        | Some target =>
            if bool_decide (color target = color piece) then []
            else [plain_move (position piece) (r, f)]
        end
      else []
  end.

Definition _pseudo_legal_sliding_moves (b : Board) (piece : Piece)
    (deltas : list (Z * Z)) : list Move :=
  let '(r0, f0) := position piece in
  flat_map (fun d : Z * Z => ray_moves 8 b piece d.1 d.2 (r0 + d.1) (f0 + d.2))
           deltas.

Definition _pseudo_legal_knight_king_moves (b : Board) (piece : Piece)
    (deltas : list (Z * Z)) : list Move :=
  let '(r0, f0) := position piece in
  flat_map
    (fun d : Z * Z =>
       let r := r0 + d.1 in
       let f := f0 + d.2 in
       if is_valid_square r f then
         match get_piece_at b r f with
         | None => [plain_move (r0, f0) (r, f)]
         | Some target =>
             if bool_decide (color target = color piece) then []
             else [plain_move (r0, f0) (r, f)]
         end
       else [])
    deltas.

Definition has_right (c : ascii) (gs : GameState) : bool :=
  char_in c (list_ascii_of_string (castling_rights gs)).

(** One wing of [_pseudo_legal_castling]: the right, the squares that must
    be empty, the transit and destination files of the king. *)
Definition castle_wing (b : Board) (gs : GameState) (piece : Piece)
    (right : ascii) (empties : list Z) (transit dest : Z) : list Move :=
  let '(r0, f0) := position piece in
  let enemy := other_side (color piece) in
  if has_right right gs
     && forallb (fun f => is_none (get_piece_at b r0 f)) empties
  then
    if negb (square_attacked_by b (r0, f0) enemy None)
       && negb (square_attacked_by b (r0, transit) enemy None)
       && negb (square_attacked_by b (r0, dest) enemy None)
    then [castle_move (r0, f0) (r0, dest)] else []
  else [].

Definition _pseudo_legal_castling (b : Board) (gs : GameState)
    (piece : Piece) : list Move :=
  match color piece with
  | WHITE =>
      castle_wing b gs piece "K" [5; 6] 5 6
      ++ castle_wing b gs piece "Q" [1; 2; 3] 3 2
  | BLACK =>
      castle_wing b gs piece "k" [5; 6] 5 6
      ++ castle_wing b gs piece "q" [1; 2; 3] 3 2
  end.

Definition _pseudo_legal_moves_for_piece (b : Board) (gs : GameState)
    (piece : Piece) : list Move :=
  match piece_type piece with
  | PAWN => _pseudo_legal_pawn_moves b gs piece
  | KNIGHT => _pseudo_legal_knight_king_moves b piece knight_deltas
  | BISHOP => _pseudo_legal_sliding_moves b piece bishop_deltas
  | ROOK => _pseudo_legal_sliding_moves b piece rook_deltas
  | QUEEN => _pseudo_legal_sliding_moves b piece queen_deltas
  | KING =>
      _pseudo_legal_knight_king_moves b piece king_deltas
      ++ _pseudo_legal_castling b gs piece
  end.

(** The first loop of [get_legal_moves]. *)
Definition pseudo_legal_moves (b : Board) (gs : GameState)
    (from : option Square) : list Move :=
  flat_map
    (fun sq : Square =>
       if bool_decide (from = None) || bool_decide (from = Some sq) then
         match get_piece_at b sq.1 sq.2 with
         | Some p =>
             if bool_decide (color p = side_to_move gs)
             then _pseudo_legal_moves_for_piece b gs p else []
         | None => []
         end
       else [])
    all_squares.

(** The test of the second loop: the mover's king on the board after the
    move, and not attacked there. *)
Definition king_safe (bc : Board) (side : Color) : bool :=
  match find_king bc side with
  | None => false
  | Some king_pos =>
      negb (square_attacked_by bc king_pos (other_side side) None)
  end.

Fixpoint filter_legal (b : Board) (gs : GameState) (pseudo : list Move)
  : result (list Move) :=
  match pseudo with
  | [] => Ok []
  | move :: rest =>
      applied <- apply_move (deep_copy b) gs move ;;
      legal <- filter_legal b gs rest ;;
      Ok (if king_safe applied.1.1 (side_to_move gs)
          then move :: legal else legal)
  end.

Definition get_legal_moves (b : Board) (gs : GameState)
    (from : option Square) : result (list Move) :=
  filter_legal b gs (pseudo_legal_moves b gs from).

(** ** core/rules.py *)

Definition is_in_check (b : Board) (gs : GameState) (c : option Color)
  : bool :=
  let side := match c with Some c => c | None => side_to_move gs end in
  match find_king b side with
  | None => false
  | Some king_pos => square_attacked_by b king_pos (other_side side) None
  end.

Definition get_game_status (b : Board) (gs : GameState) : result string :=
  legal_moves <- get_legal_moves b gs None ;;
  let in_check := is_in_check b gs None in
  Ok (match legal_moves with
      | [] => if in_check then "checkmate" else "stalemate"
      | _ :: _ => if in_check then "check" else "playing"
      end)%string.

(** ** core/game_state.py: the FEN codec *)

Definition STARTING_FEN : string :=
  "rnbqkbnr/pppppppp/8/8/8/8/PPPPPPPP/RNBQKBNR w KQkq - 0 1"%string.

(** [str.split()]: maximal runs of characters that are not whitespace. *)
Fixpoint split_ws (cur : list ascii) (s : list ascii) : list (list ascii) :=
  match s with
  | [] => match cur with [] => [] | _ => [rev cur] end
  | c :: t =>
      if py_isspace c then
        match cur with
        | [] => split_ws [] t
        | _ => rev cur :: split_ws [] t
        end
      else split_ws (c :: cur) t
  end.

Definition py_split (s : string) : list string :=
  map string_of_list_ascii (split_ws [] (list_ascii_of_string s)).

(** [str.split(sep)] for a one-character separator: empty pieces are kept. *)
Fixpoint split_on (sep : ascii) (cur : list ascii) (s : list ascii)
  : list (list ascii) :=
  match s with
  | [] => [rev cur]
  | c :: t =>
      if Ascii.eqb c sep then rev cur :: split_on sep [] t
      else split_on sep (c :: cur) t
  end.

Definition py_split_on (sep : ascii) (s : string) : list string :=
  map string_of_list_ascii (split_on sep [] (list_ascii_of_string s)).

(** [int(s)] for a string without surrounding whitespace: an optional
    sign, then decimal digits, single underscores allowed between them. *)
Fixpoint int_digits (acc : Z) (after_digit : bool) (l : list ascii)
  : result Z :=
  match l with
  | [] => if after_digit then Ok acc else Raise ValueError
  | c :: t =>
      if is_ascii_digit c then int_digits (acc * 10 + (code c - 48)) true t
      else if Ascii.eqb c "_"%char && after_digit then int_digits acc false t
      else Raise ValueError
  end.

Definition py_int (s : string) : result Z :=
  match list_ascii_of_string s with
  | "+"%char :: t => int_digits 0 false t
  | "-"%char :: t => n <- int_digits 0 false t ;; Ok (- n)
  | l => int_digits 0 false l
  end.

(** [chr(n)]; code points above 255 have no counterpart in 8-bit strings
    and are rejected like the negative ones. *)
Definition py_chr (n : Z) : result ascii :=
  if (0 <=? n) && (n <? 256) then Ok (ascii_of_nat (Z.to_nat n))
  else Raise ValueError.

Definition fen_square_to_coords (sq : string) : result Square :=
  match list_ascii_of_string sq with
  | [c0; rank_char] =>
      let file_char := ascii_lower c0 in
      let file_idx := code file_char - code "a"%char in
      n <- py_int_char rank_char ;;
      let rank_idx := 8 - n in
      if (0 <=? file_idx) && (file_idx <? 8)
         && (0 <=? rank_idx) && (rank_idx <? 8)
      then Ok (rank_idx, file_idx)
      else Raise ValueError
  | _ => Raise ValueError
  end.

Definition coords_to_fen_square (rank file : Z) : result string :=
  c <- py_chr (code "a"%char + file) ;;
  Ok (String c (py_str (8 - rank))).

(** [for _ in range(n): board.set_piece_at(our_rank, file_idx, None);
    file_idx += 1]. *)
Fixpoint clear_run (n : nat) (b : Board) (our_rank file_idx : Z)
  : result (Board * Z) :=
  match n with
  | O => Ok (b, file_idx)
  | S k =>
      b' <- set_piece_at b our_rank file_idx None ;;
      clear_run k b' our_rank (file_idx + 1)
  end.

(** The loop over the characters of one rank token. *)
Fixpoint parse_rank (rank_str : list ascii) (b : Board)
    (our_rank file_idx : Z) : result (Board * Z) :=
  match rank_str with
  | [] => Ok (b, file_idx)
  | c :: t =>
      if py_isdigit c then
        n <- py_int_char c ;;
        st <- clear_run (Z.to_nat n) b our_rank file_idx ;;
        parse_rank t st.1 our_rank st.2
      else
        piece <- piece_from_fen c (our_rank, file_idx) ;;
        b' <- set_piece_at b our_rank file_idx (Some piece) ;;
        parse_rank t b' our_rank (file_idx + 1)
  end.

(** The loop over the eight rank tokens, [rank_idx] counting from 0. *)
Fixpoint parse_placement (rank_strs : list string) (rank_idx : Z)
    (b : Board) : result Board :=
  match rank_strs with
  | [] => Ok b
  | rank_str :: rest =>
      st <- parse_rank (list_ascii_of_string rank_str) b (7 - rank_idx) 0 ;;
      if st.2 =? 8 then parse_placement rest (rank_idx + 1) st.1
      else Raise ValueError
  end.

Definition string_lower (s : string) : string :=
  string_of_list_ascii (map ascii_lower (list_ascii_of_string s)).

Definition keep_castling_keys (s : string) : string :=
  string_of_list_ascii
    (filter (fun c => char_in c (list_ascii_of_string CASTLING_KEYS) = true)
            (list_ascii_of_string s)).

Definition from_fen (fen : string) (board : Board)
  : result (Board * GameState) :=
  match py_split fen with
  | placement :: side_s :: castling_s :: ep_s :: clocks =>
      let rank_strs := py_split_on "/"%char placement in
      if negb (length rank_strs =? 8)%nat then Raise ValueError
      else
        b <- parse_placement rank_strs 0 board ;;
        side <- (let side := string_lower side_s in
                 if String.eqb side "w"%string then Ok WHITE
                 else if String.eqb side "b"%string then Ok BLACK
                 else Raise ValueError) ;;
        let castling :=
          if String.eqb castling_s "-"%string then castling_s
          else keep_castling_keys castling_s in
        ep <- (if String.eqb ep_s "-"%string then Ok None
               else sq <- fen_square_to_coords ep_s ;; Ok (Some sq)) ;;
        halfmove <- (match clocks with
                     | h :: _ => py_int h
                     | [] => Ok 0
                     end) ;;
        fullmove <- (match clocks with
                     | _ :: f :: _ => py_int f
                     | _ => Ok 1
                     end) ;;
        Ok (b, mkState side castling ep halfmove fullmove)
  | _ => Raise ValueError
  end.

(** One rank of [to_fen_placement]: the text so far and the pending count
    of empty squares. *)
Definition placement_step (b : Board) (rank : Z) (acc : string * Z)
    (file : Z) : string * Z :=
  let '(s, empty) := acc in
  match get_piece_at b rank file with
  | None => (s, empty + 1)
  | Some p =>
      let s := if empty =? 0 then s else (s ++ py_str empty)%string in
      ((s ++ String (fen_symbol (piece_type p) (color p)) EmptyString)%string,
       0)
  end.

Definition placement_row (b : Board) (rank : Z) : string :=
  let '(s, empty) :=
    fold_left (placement_step b rank) range8 (EmptyString, 0) in
  if empty =? 0 then s else (s ++ py_str empty)%string.

Definition to_fen_placement (b : Board) : string :=
  String.concat "/"%string (map (placement_row b) (rev range8)).

Definition to_fen (gs : GameState) (b : Board) : result string :=
  let placement := to_fen_placement b in
  let side :=
    (if bool_decide (side_to_move gs = WHITE) then "w" else "b")%string in
  let castling :=
    if String.eqb (castling_rights gs) EmptyString then "-"%string
    else castling_rights gs in
  ep <- (match en_passant_target gs with
         | Some (rank, file) => coords_to_fen_square rank file
         | None => Ok "-"%string
         end) ;;
  Ok (placement ++ " " ++ side ++ " " ++ castling ++ " " ++ ep ++ " "
      ++ py_str (halfmove_clock gs) ++ " "
      ++ py_str (fullmove_number gs))%string.


(** ** Well-formed inputs and specification-level predicates *)

(** The shape [Board.__init__] builds and every method keeps: eight ranks
    of eight files. *)
Definition wf_grid (b : Board) : Prop :=
  length b = 8%nat /\ Forall (fun row => length row = 8%nat) b.

(** A board as the class maintains it: the 8x8 shape, and every piece
    records the square that holds it. *)
Definition wf_board (b : Board) : Prop :=
  wf_grid b /\
  forall r f p, is_valid_square r f = true ->
                grid b r f = Some p -> position p = (r, f).

(** The en-passant target, when set, is a square of the board. *)
Definition wf_state (gs : GameState) : Prop :=
  forall sq, en_passant_target gs = Some sq ->
             is_valid_square sq.1 sq.2 = true.

(** No king of colour [c] on any square. *)
Definition kingless (c : Color) (b : Board) : Prop :=
  forall r f, is_valid_square r f = true ->
              is_king_of c (grid b r f) = false.

(** The pawn attack as the specification words it: White's pawns attack
    from one rank below the target, Black's from one rank above, on an
    adjacent file. *)
Definition pawn_attacked_spec (b : Board) (s : Square) (c : Color) : bool :=
  match c with
  | WHITE => stands b (s.1 - 1) (s.2 - 1) WHITE PAWN
             || stands b (s.1 - 1) (s.2 + 1) WHITE PAWN
  | BLACK => stands b (s.1 + 1) (s.2 - 1) BLACK PAWN
             || stands b (s.1 + 1) (s.2 + 1) BLACK PAWN
  end.

(** The algebraic name of a square as the specification words it:
    file letter [chr('a' + f)], rank number [r + 1]. *)
Definition algebraic_spec (sq : Square) : string :=
  String (ascii_of_nat (Z.to_nat (97 + sq.2))) (py_str (sq.1 + 1)).

(** "Attacked" as the specification words it: the engine's test for
    knights, sliding pieces and the king, with the pawns read as in
    [pawn_attacked_spec]. *)
Definition attacked_spec (b : Board) (s : Square) (c : Color) : bool :=
  pawn_attacked_spec b s c
  || leaper_attacks b s c KNIGHT knight_deltas
  || slider_attacks b s c None
  || leaper_attacks b s c KING king_deltas.

(** "In check" as the specification words it: the king of [c] stands on
    a square that a piece of the other colour attacks. *)
Definition in_check_spec (b : Board) (c : Color) : bool :=
  match find_king b c with
  | Some king_pos => attacked_spec b king_pos (other_side c)
  | None => false
  end.

(** The four-way classification the specification gives, from being in
    check and from the legal moves. *)
Definition status_spec (in_check : bool) (legal : list Move) : string :=
  match legal with
  | [] => if in_check then "checkmate" else "stalemate"
  | _ :: _ => if in_check then "check" else "playing"
  end.

(** Boolean checks of well-formedness, for concrete positions. *)
Definition wf_boardb (b : Board) : bool :=
  (length b =? 8)%nat
  && forallb (fun row : list (option Piece) => (length row =? 8)%nat) b
  && forallb (fun sq : Square =>
                match grid b sq.1 sq.2 with
                | Some p => bool_decide (position p = sq)
                | None => true
                end) all_squares.

Definition wf_stateb (gs : GameState) : bool :=
  match en_passant_target gs with
  | Some sq => is_valid_square sq.1 sq.2
  | None => true
  end.

(** The position [from_fen] builds on a fresh board (the empty position
    for a text it rejects). *)
Definition load_fen (fen : string) : Board * GameState :=
  match from_fen fen empty_board with
  | Ok st => st
  | Raise _ => (empty_board, mkState WHITE EmptyString None 0 1)
  end.

(** ** The effect of a move, in closed form *)

Definition promo_type (p : Promo) : PieceType :=
  match p with
  | PromoQ => QUEEN | PromoR => ROOK | PromoB => BISHOP | PromoN => KNIGHT
  end.

(** The board after the en-passant and castling steps of [apply_move]. *)
Definition board_after_specials (b : Board) (m : Move) : Board :=
  let '(r0, f0) := from_square m in
  let '(r1, f1) := to_square m in
  let b1 := if is_en_passant m then grid_set b r0 f1 None else b in
  if is_castle m then
    let ff := if f0 <? f1 then 7 else 0 in
    let ft := if f0 <? f1 then 5 else 3 in
    grid_set (grid_set b1 r0 ff None) r0 ft (placed r0 ft (grid b1 r0 ff))
  else b1.

(** The piece [apply_move] reports as captured. *)
Definition move_captured (b : Board) (m : Move) : option Piece :=
  let '(r0, f0) := from_square m in
  let '(r1, f1) := to_square m in
  if is_en_passant m then grid b r0 f1
  else grid (board_after_specials b m) r1 f1.

Definition move_captured_square (m : Move) : Square :=
  if is_en_passant m then ((from_square m).1, (to_square m).2)
  else to_square m.

(** The piece that arrives on the destination square. *)
Definition arriving_piece (m : Move) (piece : Piece) : Piece :=
  match promotion_piece m with
  | Some p => mkPiece (promo_type p) (color piece) (to_square m)
  | None => mkPiece (piece_type piece) (color piece) (to_square m)
  end.

(** The board [apply_move] leaves behind. *)
Definition moved_board (b : Board) (m : Move) (piece : Piece) : Board :=
  let '(r0, f0) := from_square m in
  let '(r1, f1) := to_square m in
  let b2 := board_after_specials b m in
  let b3 :=
    if is_en_passant m then b2
    else match grid b2 r1 f1 with
         | Some _ => grid_set b2 r1 f1 None
         | None => b2
         end in
  grid_set (grid_set b3 r0 f0 None) r1 f1 (Some (arriving_piece m piece)).

Definition move_undo (b : Board) (gs : GameState) (m : Move) : UndoInfo :=
  let '(r0, f0) := from_square m in
  let '(r1, f1) := to_square m in
  mkUndo (move_captured b m) (move_captured_square m)
         (if is_castle m then Some (r0, if f0 <? f1 then 7 else 0) else None)
         (if is_castle m then Some (r0, if f0 <? f1 then 5 else 3) else None)
         (castling_rights gs) (en_passant_target gs) (halfmove_clock gs).

(** The board [undo_move] leaves behind, [piece] being the piece found on
    the destination square. *)
Definition undone_board (b : Board) (m : Move) (u : UndoInfo)
    (piece : Piece) : Board :=
  let '(r0, f0) := from_square m in
  let '(r1, f1) := to_square m in
  let b1 := grid_set b r1 f1 None in
  let restored :=
    match promotion_piece m with
    | Some _ => mkPiece PAWN (color piece) (r0, f0)
    | None => mkPiece (piece_type piece) (color piece) (r0, f0)
    end in
  let b2 := grid_set b1 r0 f0 (Some restored) in
  let b3 :=
    match captured_piece u with
    | Some cp =>
        grid_set b2 (captured_square u).1 (captured_square u).2
          (placed (captured_square u).1 (captured_square u).2 (Some cp))
    | None => b2
    end in
  match is_castle m, rook_from u, rook_to u with
  | true, Some rf, Some rt =>
      grid_set (grid_set b3 rt.1 rt.2 None) rf.1 rf.2
               (placed rf.1 rf.2 (grid b3 rt.1 rt.2))
  | _, _, _ => b3
  end.

(** ** The moves the generator produces *)

Inductive Wing := Kingside | Queenside.

Definition wing_right (c : Color) (w : Wing) : ascii :=
  match c, w with
  | WHITE, Kingside => "K" | WHITE, Queenside => "Q"
  | BLACK, Kingside => "k" | BLACK, Queenside => "q"
  end%char.

Definition wing_empties (w : Wing) : list Z :=
  match w with Kingside => [5; 6] | Queenside => [1; 2; 3] end.
Definition wing_transit (w : Wing) : Z :=
  match w with Kingside => 5 | Queenside => 3 end.
Definition wing_dest (w : Wing) : Z :=
  match w with Kingside => 6 | Queenside => 2 end.
Definition wing_corner (w : Wing) : Z :=
  match w with Kingside => 7 | Queenside => 0 end.

(** The test [_pseudo_legal_castling] makes for one wing. *)
Definition castle_conditions (b : Board) (gs : GameState) (c : Color)
    (r0 f0 : Z) (w : Wing) : Prop :=
  has_right (wing_right c w) gs = true
  /\ (forall f, f ∈ wing_empties w -> get_piece_at b r0 f = None)
  /\ square_attacked_by b (r0, f0) (other_side c) None = false
  /\ square_attacked_by b (r0, wing_transit w) (other_side c) None = false
  /\ square_attacked_by b (r0, wing_dest w) (other_side c) None = false.

(** The kinds of moves [_pseudo_legal_moves_for_piece] builds for the
    piece standing on [from_square]. *)
Inductive generated (b : Board) (gs : GameState) (piece : Piece)
  : Move -> Prop :=
| gen_plain dst :
    is_valid_square dst.1 dst.2 = true -> dst <> position piece ->
    generated b gs piece (plain_move (position piece) dst)
| gen_double :
    piece_type piece = PAWN ->
    (position piece).1 = start_rank piece ->
    grid b ((position piece).1 + direction piece) (position piece).2 = None ->
    grid b ((position piece).1 + 2 * direction piece) (position piece).2
    = None ->
    generated b gs piece
      (double_push_move (position piece)
         ((position piece).1 + 2 * direction piece, (position piece).2))
| gen_promotion dst p :
    piece_type piece = PAWN ->
    is_valid_square dst.1 dst.2 = true -> dst <> position piece ->
    generated b gs piece (promotion_move (position piece) dst p)
| gen_en_passant ep :
    piece_type piece = PAWN ->
    en_passant_target gs = Some ep ->
    ep.1 = (position piece).1 + direction piece ->
    Z.abs ((position piece).2 - ep.2) = 1 ->
    generated b gs piece (en_passant_move (position piece) ep)
| gen_castle w :
    piece_type piece = KING ->
    castle_conditions b gs (color piece)
      (position piece).1 (position piece).2 w ->
    generated b gs piece
      (castle_move (position piece) ((position piece).1, wing_dest w)).

(** A step of a sliding piece. *)
Definition unit_delta (d : Z * Z) : Prop :=
  -1 <= d.1 <= 1 /\ -1 <= d.2 <= 1 /\ (d.1 <> 0 \/ d.2 <> 0).

(** ** Consistent positions *)

(** The en-passant target, when set, is an empty square. *)
Definition ep_target_empty (b : Board) (gs : GameState) : Prop :=
  forall sq, en_passant_target gs = Some sq -> get_piece_at b sq.1 sq.2 = None.

Definition holds_right (c : Color) (gs : GameState) : Prop :=
  exists w, has_right (wing_right c w) gs = true.

(** A side that still holds a castling right has its kings on the e-file. *)
Definition kings_on_e_file (b : Board) (gs : GameState) : Prop :=
  forall r f p,
    is_valid_square r f = true -> grid b r f = Some p ->
    piece_type p = KING -> color p = side_to_move gs ->
    holds_right (color p) gs -> f = 4.

(** Boolean checks of consistency, for concrete positions. *)
Definition ep_target_emptyb (b : Board) (gs : GameState) : bool :=
  match en_passant_target gs with
  | Some sq => is_none (get_piece_at b sq.1 sq.2)
  | None => true
  end.

Definition kings_on_e_fileb (b : Board) (gs : GameState) : bool :=
  forallb (fun sq : Square =>
             negb (is_king_of (side_to_move gs) (grid b sq.1 sq.2))
             || (sq.2 =? 4))
          all_squares.

(** ** Claims that do not hold on every position *)

(** En passant as first stated: every legal en-passant move removes a
    pawn from (origin rank, destination file), lands on an empty square,
    and records that pawn and that square. *)
Definition en_passant_claim : Prop :=
  forall b gs legal m b' gs' u,
    wf_board b -> wf_state gs ->
    get_legal_moves b gs None = Ok legal -> m ∈ legal ->
    is_en_passant m = true ->
    apply_move b gs m = Ok (b', gs', u) ->
    (exists pawn,
        grid b (from_square m).1 (to_square m).2 = Some pawn
        /\ piece_type pawn = PAWN
        /\ captured_piece u = Some pawn)
    /\ grid b' (from_square m).1 (to_square m).2 = None
    /\ get_piece_at b (to_square m).1 (to_square m).2 = None
    /\ captured_square u = ((from_square m).1, (to_square m).2).

(** Apply/undo as first stated: on every position, every legal move is
    undone exactly. *)
Definition round_trip_claim : Prop :=
  forall b gs legal m b' gs' u,
    wf_board b -> wf_state gs ->
    get_legal_moves b gs None = Ok legal -> m ∈ legal ->
    apply_move b gs m = Ok (b', gs', u) ->
    undo_move b' gs' m u = Ok (b, gs).

(** Castling gating as first stated, for a king of the side to move on
    any square [(r0, f0)]: the squares strictly between the king and the
    corner of its rank are empty, and no square from the king's origin to
    its destination is attacked. *)
Definition castling_claim : Prop :=
  forall b gs legal r0 f0 king w,
    wf_board b -> wf_state gs ->
    get_legal_moves b gs None = Ok legal ->
    is_valid_square r0 f0 = true -> grid b r0 f0 = Some king ->
    piece_type king = KING -> color king = side_to_move gs ->
    (castle_move (r0, f0) (r0, wing_dest w) ∈ legal
     <-> has_right (wing_right (side_to_move gs) w) gs = true
         /\ (forall f, Z.min f0 (wing_corner w) < f < Z.max f0 (wing_corner w)
                       -> get_piece_at b r0 f = None)
         /\ (forall f, Z.min f0 (wing_dest w) <= f <= Z.max f0 (wing_dest w)
                       -> square_attacked_by b (r0, f)
                            (other_side (side_to_move gs)) None = false)).

(** [b'] differs from [b] on rank [r0] only. *)
Definition same_off_rank (b' b : Board) (r0 : Z) : Prop :=
  forall r f, is_valid_square r f = true -> r <> r0 ->
              grid b' r f = grid b r f.

(** Two boards that an attacker of colour [c] cannot tell apart: on
    every square they hold the same piece, or both hold a piece of the
    other colour. *)
Definition alike_for (c : Color) (b1 b2 : Board) : Prop :=
  forall r f, is_valid_square r f = true ->
    grid b1 r f = grid b2 r f
    \/ exists p1 p2, grid b1 r f = Some p1 /\ grid b2 r f = Some p2
                     /\ color p1 <> c /\ color p2 <> c.

(** The destination of a move is empty or holds a piece of the other
    colour than [c]. *)
Definition lands_free (b : Board) (c : Color) (m : Move) : Prop :=
  forall t, get_piece_at b (to_square m).1 (to_square m).2 = Some t ->
            color t <> c.

(** The directions in which a sliding piece of the given type moves. *)
Definition slides_along (t : PieceType) (dr df : Z) : Prop :=
  -1 <= dr <= 1 /\ -1 <= df <= 1 /\
  match t with
  | ROOK => (dr = 0 /\ df <> 0) \/ (dr <> 0 /\ df = 0)
  | BISHOP => dr <> 0 /\ df <> 0
  | QUEEN => dr <> 0 \/ df <> 0
  | _ => False
  end.

(** The progress of [from_fen] over two boards read in step: both keep
    the 8x8 shape, and on every square above rank [r], or on rank [r]
    left of file [f], they hold the same piece, which records its
    square. *)
Definition fen_written (r f : Z) (b1 b2 : Board) : Prop :=
  wf_grid b1 /\ wf_grid b2 /\
  forall r' f', is_valid_square r' f' = true ->
    r < r' \/ (r' = r /\ f' < f) ->
    grid b1 r' f' = grid b2 r' f'
    /\ forall p, grid b1 r' f' = Some p -> position p = (r', f').

(** The value [int] reads from a decimal numeral, digit by digit from
    the left. *)
Fixpoint uint_value (acc : Z) (d : Decimal.uint) : Z :=
  match d with
  | Decimal.Nil => acc
  | Decimal.D0 d => uint_value (acc * 10 + 0) d
  | Decimal.D1 d => uint_value (acc * 10 + 1) d
  | Decimal.D2 d => uint_value (acc * 10 + 2) d
  | Decimal.D3 d => uint_value (acc * 10 + 3) d
  | Decimal.D4 d => uint_value (acc * 10 + 4) d
  | Decimal.D5 d => uint_value (acc * 10 + 5) d
  | Decimal.D6 d => uint_value (acc * 10 + 6) d
  | Decimal.D7 d => uint_value (acc * 10 + 7) d
  | Decimal.D8 d => uint_value (acc * 10 + 8) d
  | Decimal.D9 d => uint_value (acc * 10 + 9) d
  end.

(** The characters [to_fen_placement] writes within a rank. *)
Definition placement_char (c : ascii) : bool :=
  char_in c (list_ascii_of_string "PNBRQKpnbrqk12345678").

(** The text [s] written so far for rank [r] of [b], with [e] empty
    squares pending before file [f]: read back into any board on which
    the ranks above are in place, it puts the files left of [f - e] in
    place. *)
Definition row_read (b : Board) (r f : Z) (acc : string * Z) : Prop :=
  0 <= acc.2 <= f
  /\ (forall j, f - acc.2 <= j < f -> grid b r j = None)
  /\ Forall (fun c => placement_char c = true) (list_ascii_of_string acc.1)
  /\ forall b', fen_written r 0 b' b ->
       exists b'', parse_rank (list_ascii_of_string acc.1) b' r 0
                   = Ok (b'', f - acc.2)
                   /\ fen_written r (f - acc.2) b'' b.

(** ** game/controller.py *)

(** The controller owns the board, the state and the two history stacks;
    its methods are modelled on the record they mutate and return the
    new record beside their result. *)
Record GameController := mkController {
  _board : Board;
  _game_state : GameState;
  _undo_stack : list (Move * UndoInfo);
  _redo_stack : list (Move * UndoInfo);
  _last_move : option Move;
  _selected_square : option Square
}.

(** [list.pop()] on a non-empty list: the rest and the last element. *)
Definition pop {A} (l : list A) : option (list A * A) :=
  match rev l with
  | [] => None
  | x :: r => Some (rev r, x)
  end.

Definition select (g : GameController) (square : Square) : GameController :=
  let selected :=
    match get_piece_at (_board g) square.1 square.2 with
    | Some piece =>
        if bool_decide (color piece = side_to_move (_game_state g))
        then Some square else None
    | None => None
    end in
  mkController (_board g) (_game_state g) (_undo_stack g) (_redo_stack g)
               (_last_move g) selected.

Definition make_move (g : GameController) (move : Move)
  : result (GameController * bool) :=
  legal <- get_legal_moves (_board g) (_game_state g)
                           (Some (from_square move)) ;;
  if bool_decide (move ∈ legal) then
    r <- apply_move (_board g) (_game_state g) move ;;
    Ok (mkController r.1.1 r.1.2 (_undo_stack g ++ [(move, r.2)]) []
                     (Some move) None, true)
  else Ok (g, false).

Definition undo (g : GameController) : result (GameController * bool) :=
  match pop (_undo_stack g) with
  | None => Ok (g, false)
  | Some (rest, (move, undo_info)) =>
      r <- undo_move (_board g) (_game_state g) move undo_info ;;
      Ok (mkController r.1 r.2 rest (_redo_stack g ++ [(move, undo_info)])
                       (fst <$> last rest) (_selected_square g), true)
  end.

Definition redo (g : GameController) : result (GameController * bool) :=
  match pop (_redo_stack g) with
  | None => Ok (g, false)
  | Some (rest, (move, undo_info)) =>
      r <- apply_move (_board g) (_game_state g) move ;;
      Ok (mkController r.1.1 r.1.2 (_undo_stack g ++ [(move, undo_info)]) rest
                       (Some move) (_selected_square g), true)
  end.

Definition reset_to_fen (fen : string) : result GameController :=
  st <- from_fen fen empty_board ;;
  Ok (mkController st.1 st.2 [] [] None None).

Definition new_game : result GameController := reset_to_fen STARTING_FEN.

Definition can_undo (g : GameController) : bool :=
  (0 <? length (_undo_stack g))%nat.

Definition can_redo (g : GameController) : bool :=
  (0 <? length (_redo_stack g))%nat.

(** [str.upper()] on the letters a to z. *)
Definition ascii_upper (c : ascii) : ascii :=
  let n := code c in
  if (97 <=? n) && (n <=? 122) then ascii_of_nat (Z.to_nat (n - 32)) else c.

Definition string_upper (s : string) : string :=
  string_of_list_ascii (map ascii_upper (list_ascii_of_string s)).

Definition promo_str (p : Promo) : string :=
  String (promo_symbol p) EmptyString.

(** The loop of [make_move_to_square] over the legal moves of the
    selected square: the move it hands to [make_move], or [None] where it
    returns [False]. *)
Fixpoint pick_move (legal : list Move) (to : Square)
    (promotion : option string) : option Move :=
  match legal with
  | [] => None
  | m :: rest =>
      if bool_decide (to_square m <> to) then pick_move rest to promotion
      else
        match promotion_piece m with
        | Some p =>
            match promotion with
            | None => None
            | Some s =>
                if negb (existsb (fun q => String.eqb (string_upper s)
                                                      (promo_str q))
                                 PROMOTION_PIECES)
                then None
                else if negb (String.eqb (promo_str p) (string_upper s))
                     then pick_move rest to promotion
                     else Some m
            end
        | None => Some m
        end
  end.

Definition make_move_to_square (g : GameController) (to : Square)
    (promotion : option string) : result (GameController * bool) :=
  match _selected_square g with
  | None => Ok (g, false)
  | Some sel =>
      legal <- get_legal_moves (_board g) (_game_state g) (Some sel) ;;
      match pick_move legal to promotion with
      | Some m => make_move g m
      | None => Ok (g, false)
      end
  end.

(** A controller whose position [apply_move] and [undo_move] take back
    exactly: well formed, the en-passant target an empty square, and a
    side that holds a castling right has its king on the e-file. *)
Definition sound_position (g : GameController) : Prop :=
  wf_board (_board g) /\ wf_state (_game_state g)
  /\ ep_target_empty (_board g) (_game_state g)
  /\ kings_on_e_file (_board g) (_game_state g).

(** The controller as [__init__] leaves it. *)
Definition opening : GameController :=
  mkController (load_fen STARTING_FEN).1 (load_fen STARTING_FEN).2
               [] [] None None.

(** A run of [make_move] calls, one per attempted move. *)
Fixpoint play (g : GameController) (moves : list Move)
  : result GameController :=
  match moves with
  | [] => Ok g
  | m :: rest => r <- make_move g m ;; play r.1 rest
  end.

(** The promotion suffix of [uci_style]. *)
Definition uci_promo (m : Move) : string :=
  match promotion_piece m with
  | Some p => String (ascii_lower (promo_symbol p)) EmptyString
  | None => EmptyString
  end.

(** How a pawn, a knight or a king of the given kind steps with [m]:
    [dr] ranks and [df] files. *)
Definition steps_like (p : Piece) (m : Move) : Prop :=
  let dr := (to_square m).1 - (from_square m).1 in
  let df := (to_square m).2 - (from_square m).2 in
  match piece_type p with
  | PAWN =>
      (dr = direction p /\ Z.abs df <= 1 /\ is_double_pawn_push m = false)
      \/ (dr = 2 * direction p /\ df = 0
          /\ (from_square m).1 = start_rank p
          /\ is_double_pawn_push m = true)
  | KNIGHT =>
      (Z.abs dr = 1 /\ Z.abs df = 2) \/ (Z.abs dr = 2 /\ Z.abs df = 1)
  | KING =>
      (is_castle m = false /\ Z.abs dr <= 1 /\ Z.abs df <= 1)
      \/ (is_castle m = true /\ dr = 0
          /\ ((to_square m).2 = 6 \/ (to_square m).2 = 2))
  | _ => True
  end.

(** ** core/board.py: the board of piece objects

    [set_piece_at] stores the piece object it is handed and writes the
    square into that object, so a piece that stands on two squares is one
    object with one recorded square.  Here the grid holds references
    into the list of piece objects. *)

Abbreviation RefGrid := (list (list (option nat))).

Record ObjBoard := mkObjBoard {
  objects : list Piece;
  _grid : RefGrid
}.

Definition ref_at (g : RefGrid) (rank file : Z) : option nat :=
  match g !! Z.to_nat rank with
  | Some row =>
      match row !! Z.to_nat file with
      | Some cell => cell
      | None => None
      end
  | None => None
  end.

Definition ref_set (g : RefGrid) (rank file : Z) (v : option nat) : RefGrid :=
  match g !! Z.to_nat rank with
  | Some row => <[Z.to_nat rank := <[Z.to_nat file := v]> row]> g
  | None => g
  end.

(** [piece.position = (rank, file)] on the object [id]. *)
Definition set_position (objs : list Piece) (id : nat) (sq : Square)
  : list Piece :=
  alter (fun p => mkPiece (piece_type p) (color p) sq) id objs.

Definition obj_getitem (ob : ObjBoard) (rank file : Z)
  : result (option nat) :=
  if is_valid_square rank file then Ok (ref_at (_grid ob) rank file)
  else Raise IndexError.

Definition obj_get_piece_at (ob : ObjBoard) (rank file : Z) : option nat :=
  if is_valid_square rank file then ref_at (_grid ob) rank file else None.

Definition obj_set_piece_at (ob : ObjBoard) (rank file : Z)
    (piece : option nat) : result ObjBoard :=
  if is_valid_square rank file then
    Ok (mkObjBoard
          (match piece with
           | Some id => set_position (objects ob) id (rank, file)
           | None => objects ob
           end)
          (ref_set (_grid ob) rank file piece))
  else Raise IndexError.

Definition obj_clear_square (ob : ObjBoard) (rank file : Z)
  : result ObjBoard :=
  obj_set_piece_at ob rank file None.

(** The piece a reference stands for. *)
Definition deref (objs : list Piece) (v : option nat) : option Piece :=
  match v with
  | Some id => objs !! id
  | None => None
  end.

(** The record a reader finds on a square. *)
Definition obj_read (ob : ObjBoard) (rank file : Z) : option Piece :=
  deref (objects ob) (obj_get_piece_at ob rank file).

(** The board of piece records that the object board shows. *)
Definition view (ob : ObjBoard) : Board :=
  fmap (M := list) (fmap (M := list) (deref (objects ob))) (_grid ob).

Definition wf_refs (g : RefGrid) : Prop :=
  length g = 8%nat /\ Forall (fun row => length row = 8%nat) g.

(** Every reference of the grid is to a piece object, and that object
    records the square that refers to it. *)
Definition obj_wf (ob : ObjBoard) : Prop :=
  wf_refs (_grid ob) /\
  forall r f id, is_valid_square r f = true ->
    ref_at (_grid ob) r f = Some id ->
    exists p, objects ob !! id = Some p /\ position p = (r, f).

(** The object [piece], if any, exists. *)
Definition allocated (ob : ObjBoard) (piece : option nat) : Prop :=
  forall id, piece = Some id -> is_Some (objects ob !! id).

(** The object [piece], if any, stands on no square other than [(r, f)]. *)
Definition not_elsewhere (ob : ObjBoard) (r f : Z) (piece : option nat)
  : Prop :=
  forall id r' f', piece = Some id -> is_valid_square r' f' = true ->
    (r', f') <> (r, f) -> ref_at (_grid ob) r' f' <> Some id.

Definition empty_refs : RefGrid := replicate 8 (replicate 8 None).

(** A castle-flagged move that starts on the corner its rook is taken
    from ([rook_from] of [apply_move]): the moved piece and the rook are
    then one object. *)
Definition castles_from_corner (m : Move) : bool :=
  is_castle m
  && ((from_square m).2
      =? (if (from_square m).2 <? (to_square m).2 then 7 else 0)).

(** Python converts between [int] and [str] up to 4300 digits and raises
    [ValueError] beyond; [py_str] and [py_int] are its conversions within
    that limit. *)
Definition INT_MAX_STR_DIGITS : Z := 4300.

Definition str_digits_ok (n : Z) : bool :=
  Z.abs n <? 10 ^ INT_MAX_STR_DIGITS.

(** * Properties *)

(** Evaluation of the model on concrete positions. *)
Ltac by_eval := vm_compute; reflexivity.

Ltac in_list :=
  match goal with
  | |- ?P => apply (@bool_decide_unpack P _); vm_compute; exact I
  end.

(** Supplies the values an evaluation returns as existential witnesses:
    the loaded position, and then its legal moves and the outcome of
    applying [mv]. *)
Ltac give_position fen :=
  let r := eval vm_compute in (from_fen fen empty_board) in
  match r with
  | Ok (?b, ?gs) => exists b, gs
  end.

Ltac give_play fen mv :=
  let r := eval vm_compute in (from_fen fen empty_board) in
  match r with
  | Ok (?b, ?gs) =>
      let l := eval vm_compute in (get_legal_moves b gs None) in
      let a := eval vm_compute in (apply_move b gs mv) in
      match l with
      | Ok ?moves =>
          match a with
          | Ok (?b', ?gs', ?u) => exists b, gs, moves, b', gs', u
          end
      end
  end.

(** ** Attack detection *)

(** C1: with a single White pawn on e2, the square d3 (diagonally forward
    of the pawn) is not reported as attacked by White, although the
    specification says it is, and the square d1 (diagonally behind the
    pawn) is reported as attacked, although the specification says it is
    not: [square_attacked_by] looks for the pawn on the wrong side of the
    target. *)
Theorem C1_pawn_attack_looks_backward :
  exists b gs,
    from_fen "8/8/8/8/8/8/4P3/8 w - - 0 1"%string empty_board = Ok (b, gs)
    /\ get_piece_at b 1 4 = Some (mkPiece PAWN WHITE (1, 4))
    /\ pawn_attacked_spec b (2, 3) WHITE = true
    /\ square_attacked_by b (2, 3) WHITE None = false
    /\ pawn_attacked_spec b (0, 3) WHITE = false
    /\ square_attacked_by b (0, 3) WHITE None = true.
Proof.
  give_position "8/8/8/8/8/8/4P3/8 w - - 0 1"%string.
  repeat split; by_eval.
Qed.

(** ** Move text *)

(** C4: the move from (1,4) to (3,4), which is e2e4 when rank 0 is White's
    back rank, is rendered as e7e5, and the promotion from (6,4) to (7,4)
    as e2e1q instead of e7e8q. *)
Theorem C4_uci_style_rank_inverted :
  uci_style (plain_move (1, 4) (3, 4)) = Ok "e7e5"%string
  /\ (algebraic_spec (1, 4) ++ algebraic_spec (3, 4))%string = "e2e4"%string
  /\ uci_style (promotion_move (6, 4) (7, 4) PromoQ) = Ok "e2e1q"%string
  /\ algebraic_spec (7, 4) = "e8"%string.
Proof. repeat split; by_eval. Qed.

(** ** FEN codec *)

(** C3: from the starting position, after the legal double push of the
    White e-pawn from (1,4) to (3,4), [to_fen] names e6 as the en-passant
    square, not the square e3 the pawn passed over. *)
Theorem C3_en_passant_field_after_e2e4 :
  exists b gs moves b' gs' u,
    from_fen STARTING_FEN empty_board = Ok (b, gs)
    /\ get_legal_moves b gs None = Ok moves
    /\ double_push_move (1, 4) (3, 4) ∈ moves
    /\ apply_move b gs (double_push_move (1, 4) (3, 4)) = Ok (b', gs', u)
    /\ en_passant_target gs' = Some (2, 4)
    /\ algebraic_spec (2, 4) = "e3"%string
    /\ to_fen gs' b'
       = Ok "rnbqkbnr/pppppppp/8/8/4P3/8/PPPP1PPP/RNBQKBNR b KQkq e6 0 1"%string.
Proof.
  give_play STARTING_FEN (double_push_move (1, 4) (3, 4)).
  repeat split; try by_eval. in_list.
Qed.

(** C8: a rank token that describes more than eight files makes [from_fen]
    fail with [IndexError], raised by the board write at file 8, before
    the file-count check that would raise [ValueError] is reached. *)
Theorem C8_overlong_rank_raises_IndexError :
  from_fen "9/8/8/8/8/8/8/8 w - - 0 1"%string empty_board = Raise IndexError
  /\ from_fen "ppppppppp/8/8/8/8/8/8/8 w - - 0 1"%string empty_board
     = Raise IndexError
  /\ from_fen "7/8/8/8/8/8/8/8 w - - 0 1"%string empty_board
     = Raise ValueError.
Proof. repeat split; by_eval. Qed.

(** ** Castling rights *)

(** C5: with White's king on e1, rooks on h1 and h3 and the king-side
    right held, moving the rook from h3 (not a corner) to g3 removes the
    right. *)
Theorem C5_rook_off_corner_drops_right :
  exists b gs moves b' gs' u,
    from_fen "4k3/8/8/8/8/7R/8/4K2R w K - 0 1"%string empty_board = Ok (b, gs)
    /\ get_piece_at b 2 7 = Some (mkPiece ROOK WHITE (2, 7))
    /\ castling_rights gs = "K"%string
    /\ get_legal_moves b gs None = Ok moves
    /\ plain_move (2, 7) (2, 6) ∈ moves
    /\ apply_move b gs (plain_move (2, 7) (2, 6)) = Ok (b', gs', u)
    /\ castling_rights gs' = EmptyString.
Proof.
  give_play "4k3/8/8/8/8/7R/8/4K2R w K - 0 1"%string (plain_move (2, 7) (2, 6)).
  repeat split; try by_eval. in_list.
Qed.

(** ** The board as a finite grid *)

Lemma valid_iff r f :
  is_valid_square r f = true <-> 0 <= r < 8 /\ 0 <= f < 8.
Proof. unfold is_valid_square, RANKS, FILES. lia. Qed.

Lemma invalid_iff r f :
  is_valid_square r f = false <-> ~ (0 <= r < 8 /\ 0 <= f < 8).
Proof. unfold is_valid_square, RANKS, FILES. lia. Qed.

(** Decides the bounds tests of the model from linear facts in context. *)
Ltac valid_tac :=
  repeat match goal with
         | H : is_valid_square _ _ = true |- _ => apply valid_iff in H
         | H : is_valid_square _ _ = false |- _ => apply invalid_iff in H
         end;
  try (apply valid_iff); try (apply invalid_iff); simpl in *; lia.

Lemma wf_grid_row b r :
  wf_grid b -> 0 <= r < 8 ->
  exists row, b !! Z.to_nat r = Some row /\ length row = 8%nat.
Proof.
  intros [Hl Hr] Hb.
  destruct (lookup_lt_is_Some_2 b (Z.to_nat r)) as [row Hrow]; [lia|].
  exists row. split; [done|].
  rewrite Forall_forall in Hr. apply Hr. eapply list_elem_of_lookup_2, Hrow.
Qed.

Lemma wf_grid_set b r f v : wf_grid b -> wf_grid (grid_set b r f v).
Proof.
  intros [Hl Hr]. unfold grid_set.
  destruct (b !! Z.to_nat r) as [row|] eqn:E; [|done].
  split; [by rewrite length_insert|].
  apply Forall_insert; [done|].
  rewrite length_insert. rewrite Forall_forall in Hr. apply Hr.
  eapply list_elem_of_lookup_2, E.
Qed.

Lemma grid_grid_set b r f v r' f' :
  wf_grid b ->
  is_valid_square r f = true -> is_valid_square r' f' = true ->
  grid (grid_set b r f v) r' f'
  = if bool_decide ((r, f) = (r', f')) then v else grid b r' f'.
Proof.
  intros Hwf Hv Hv'. apply valid_iff in Hv, Hv'.
  destruct (wf_grid_row b r Hwf) as (row & Hrow & Hlen); [lia|].
  unfold grid, grid_set. rewrite Hrow.
  destruct (decide (r = r')) as [->|Hr].
  - rewrite list_lookup_insert_eq by (destruct Hwf; lia).
    destruct (decide (f = f')) as [->|Hf].
    + rewrite bool_decide_eq_true_2 by done.
      rewrite list_lookup_insert_eq by lia. done.
    + rewrite bool_decide_eq_false_2 by congruence.
      rewrite list_lookup_insert_ne by lia. by rewrite Hrow.
  - rewrite bool_decide_eq_false_2 by congruence.
    rewrite list_lookup_insert_ne by lia. done.
Qed.

Lemma grid_set_same b r f v :
  wf_grid b -> is_valid_square r f = true ->
  grid (grid_set b r f v) r f = v.
Proof.
  intros. rewrite grid_grid_set by done. by rewrite bool_decide_eq_true_2.
Qed.

Lemma grid_set_other b r f v r' f' :
  wf_grid b ->
  is_valid_square r f = true -> is_valid_square r' f' = true ->
  (r, f) <> (r', f') ->
  grid (grid_set b r f v) r' f' = grid b r' f'.
Proof.
  intros. rewrite grid_grid_set by done. by rewrite bool_decide_eq_false_2.
Qed.

(** Two 8x8 grids that agree on every square are equal. *)
Lemma board_ext b b' :
  wf_grid b -> wf_grid b' ->
  (forall r f, is_valid_square r f = true -> grid b r f = grid b' r f) ->
  b = b'.
Proof.
  intros Hwf Hwf' Heq.
  apply list_eq_same_length with 8%nat; [apply Hwf'|apply Hwf|].
  intros i row row' Hi Hrow Hrow'.
  assert (Hlen : length row = 8%nat).
  { destruct Hwf as [_ H]. rewrite Forall_forall in H. apply H.
    eapply list_elem_of_lookup_2, Hrow. }
  assert (Hlen' : length row' = 8%nat).
  { destruct Hwf' as [_ H]. rewrite Forall_forall in H. apply H.
    eapply list_elem_of_lookup_2, Hrow'. }
  apply list_eq_same_length with 8%nat; [done|done|].
  intros j c c' Hj Hc Hc'.
  specialize (Heq (Z.of_nat i) (Z.of_nat j)).
  unfold grid in Heq. rewrite !Nat2Z.id in Heq.
  rewrite Hrow, Hrow', Hc, Hc' in Heq. apply Heq. valid_tac.
Qed.

Lemma piece_from_fen_symbol t c pos :
  piece_from_fen (fen_symbol t c) pos = Ok (mkPiece t c pos).
Proof. by destruct t, c. Qed.

Lemma copy_cell_eq b r f :
  copy_cell b r f
  = match grid b r f with
    | Some p => Some (mkPiece (piece_type p) (color p) (r, f))
    | None => None
    end.
Proof.
  unfold copy_cell. destruct (grid b r f); [|done].
  by rewrite piece_from_fen_symbol.
Qed.

Lemma range8_cases r : 0 <= r < 8 ->
  r = 0 \/ r = 1 \/ r = 2 \/ r = 3 \/ r = 4 \/ r = 5 \/ r = 6 \/ r = 7.
Proof. lia. Qed.

Lemma wf_grid_deep_copy b : wf_grid (deep_copy b).
Proof.
  split; [done|]. unfold deep_copy.
  apply Forall_forall. intros row Hin.
  apply list_elem_of_fmap in Hin as (r & -> & _). done.
Qed.

Lemma grid_deep_copy b r f :
  is_valid_square r f = true -> grid (deep_copy b) r f = copy_cell b r f.
Proof.
  intros Hv. apply valid_iff in Hv as [Hr Hf].
  destruct (range8_cases r Hr) as [->|[->|[->|[->|[->|[->|[->| ->]]]]]]];
    destruct (range8_cases f Hf) as [->|[->|[->|[->|[->|[->|[->| ->]]]]]]];
    reflexivity.
Qed.

(** On a well-formed board the deep copy is the board itself. *)
Lemma deep_copy_wf b : wf_board b -> deep_copy b = b.
Proof.
  intros [Hwf Hpos]. apply board_ext; [apply wf_grid_deep_copy|done|].
  intros r f Hv. rewrite grid_deep_copy, copy_cell_eq by done.
  destruct (grid b r f) as [p|] eqn:E; [|done].
  specialize (Hpos r f p Hv E). destruct p; simpl in *. by subst.
Qed.

Lemma elem_range8 r : r ∈ range8 <-> 0 <= r < 8.
Proof.
  unfold range8. rewrite !elem_of_cons, elem_of_nil. lia.
Qed.

Lemma elem_all_squares r f :
  (r, f) ∈ all_squares <-> is_valid_square r f = true.
Proof.
  rewrite valid_iff, <- !elem_range8. unfold all_squares.
  rewrite list_elem_of_bind. split.
  - intros (r' & Hin & Hr). apply list_elem_of_bind in Hin as (f' & Hin & Hf).
    apply list_elem_of_singleton in Hin. by simplify_eq.
  - intros [Hr Hf]. exists r. split; [|done].
    apply list_elem_of_bind. exists f. split; [|done].
    by apply list_elem_of_singleton.
Qed.

(** ** apply_move in closed form *)

Lemma promo_piece_from_fen p c pos :
  piece_from_fen (match c with
                  | WHITE => promo_symbol p
                  | BLACK => ascii_lower (promo_symbol p)
                  end) pos
  = Ok (mkPiece (promo_type p) c pos).
Proof. by destruct p, c. Qed.

Lemma valid_same_rank r0 f0 r1 f1 f :
  is_valid_square r0 f0 = true -> is_valid_square r1 f1 = true ->
  0 <= f < 8 -> is_valid_square r0 f = true.
Proof. intros. valid_tac. Qed.

(** Whenever both squares of the move are on the board and the origin is
    occupied, [apply_move] returns, and returns the closed form. *)
Lemma apply_move_ok b gs m piece :
  is_valid_square (from_square m).1 (from_square m).2 = true ->
  is_valid_square (to_square m).1 (to_square m).2 = true ->
  grid b (from_square m).1 (from_square m).2 = Some piece ->
  apply_move b gs m
  = Ok (moved_board b m piece,
        apply_state gs m piece (move_captured b m) (move_captured_square m),
        move_undo b gs m).
Proof.
  destruct m as [[r0 f0] [r1 f1] promo cas ep dbl]. simpl.
  intros H0 H1 Hp.
  assert (H01 : is_valid_square r0 f1 = true) by valid_tac.
  assert (H7 : is_valid_square r0 7 = true) by valid_tac.
  assert (H5 : is_valid_square r0 5 = true) by valid_tac.
  assert (H00 : is_valid_square r0 0 = true) by valid_tac.
  assert (H3 : is_valid_square r0 3 = true) by valid_tac.
  unfold apply_move, apply_en_passant, apply_castle_rook, apply_capture,
    apply_relocate, moved_board, move_undo, move_captured,
    move_captured_square, board_after_specials, arriving_piece,
    clear_square, set_piece_at, board_getitem; simpl.
  rewrite H0, Hp. simpl.
  destruct ep, cas, (f0 <? f1); simpl;
    rewrite ?H01, ?H7, ?H5, ?H00, ?H3, ?H1, ?H0; simpl;
    rewrite ?H01, ?H7, ?H5, ?H00, ?H3, ?H1, ?H0; simpl;
    repeat match goal with
           | |- context [match grid ?b ?r ?f with _ => _ end] =>
               destruct (grid b r f) eqn:?; simpl
           end;
    rewrite ?H01, ?H7, ?H5, ?H00, ?H3, ?H1, ?H0; simpl;
    destruct promo; simpl;
    rewrite ?promo_piece_from_fen; simpl;
    rewrite ?H01, ?H7, ?H5, ?H00, ?H3, ?H1, ?H0; simpl;
    reflexivity.
Qed.

(** ** Inversion of the move generator *)

Lemma elem_flat_map {A B} (f : A -> list B) (l : list A) (y : B) :
  y ∈ flat_map f l <-> exists x, x ∈ l /\ y ∈ f x.
Proof.
  rewrite list_elem_of_In, in_flat_map.
  by setoid_rewrite list_elem_of_In.
Qed.

(** Splits membership in an explicit list into its cases. *)
Ltac elem_cases H :=
  repeat (apply elem_of_cons in H as [H|H]);
  [..|by apply elem_of_nil in H].

Ltac if_cases H :=
  repeat match type of H with
         | context [if ?c then _ else _] => destruct c eqn:?
         | context [match ?c with _ => _ end] => destruct c eqn:?
         end.

Lemma elem_promotions a dst m :
  m ∈ map (promotion_move a dst) PROMOTION_PIECES ->
  exists p, m = promotion_move a dst p.
Proof. intros H. apply list_elem_of_fmap in H as (p & -> & _). eauto. Qed.

Lemma direction_cases piece :
  (direction piece = 1 /\ start_rank piece = 1)
  \/ (direction piece = -1 /\ start_rank piece = 6).
Proof. unfold direction, start_rank. destruct (is_white piece); auto. Qed.

Lemma get_piece_at_valid b r f :
  is_valid_square r f = true -> get_piece_at b r f = grid b r f.
Proof. intros H. unfold get_piece_at. by rewrite H. Qed.

Lemma is_none_true {A} (o : option A) : is_none o = true -> o = None.
Proof. by destruct o. Qed.

Lemma pawn_push_generated b gs piece m :
  piece_type piece = PAWN ->
  m ∈ pawn_push_moves b piece -> generated b gs piece m.
Proof.
  intros Hp. unfold pawn_push_moves.
  destruct (position piece) as [r0 f0] eqn:Epos.
  destruct (is_valid_square (r0 + direction piece) f0
            && is_none (get_piece_at b (r0 + direction piece) f0)) eqn:E;
    [|by intros ?%elem_of_nil].
  apply andb_true_iff in E as [Ev En]. apply is_none_true in En.
  rewrite get_piece_at_valid in En by done.
  destruct (last_rank (r0 + direction piece)).
  - intros (p & ->)%elem_promotions. rewrite <- Epos.
    apply gen_promotion; [done|done|].
    rewrite Epos. destruct (direction_cases piece) as [[? ?]|[? ?]];
      intros [=]; lia.
  - intros [->|H]%elem_of_cons.
    + rewrite <- Epos. apply gen_plain; [done|].
      rewrite Epos. destruct (direction_cases piece) as [[? ?]|[? ?]];
        intros [=]; lia.
    + destruct (r0 =? start_rank piece) eqn:Es; [|by apply elem_of_nil in H].
      destruct (is_none (get_piece_at b (r0 + 2 * direction piece) f0)) eqn:E2;
        [|by apply elem_of_nil in H].
      apply list_elem_of_singleton in H as ->.
      apply is_none_true in E2.
      assert (Hv2 : is_valid_square (r0 + 2 * direction piece) f0 = true).
      { destruct (direction_cases piece) as [[? ?]|[? ?]]; valid_tac. }
      rewrite get_piece_at_valid in E2 by done.
      pose proof (gen_double b gs piece Hp) as G. rewrite Epos in G. simpl in G.
      apply G; [lia|done|done].
Qed.

Lemma pawn_capture_generated b gs piece m :
  piece_type piece = PAWN ->
  m ∈ pawn_capture_moves b piece -> generated b gs piece m.
Proof.
  intros Hp. unfold pawn_capture_moves.
  destruct (position piece) as [r0 f0] eqn:Epos.
  intros (df & Hdf & H)%elem_flat_map.
  destruct (is_valid_square (r0 + direction piece) (f0 + df)
            && enemy_on b (r0 + direction piece) (f0 + df) piece) eqn:E;
    [|by apply elem_of_nil in H].
  apply andb_true_iff in E as [Ev _].
  assert (Hne : (r0 + direction piece, f0 + df) <> (r0, f0)).
  { destruct (direction_cases piece) as [[? ?]|[? ?]]; intros [=]; lia. }
  destruct (last_rank (r0 + direction piece)).
  - apply elem_promotions in H as (p & ->). rewrite <- Epos.
    apply gen_promotion; [done|done|by rewrite Epos].
  - apply list_elem_of_singleton in H as ->. rewrite <- Epos.
    apply gen_plain; [done|by rewrite Epos].
Qed.

Lemma pawn_ep_generated b gs piece m :
  piece_type piece = PAWN ->
  m ∈ pawn_en_passant_moves gs piece -> generated b gs piece m.
Proof.
  intros Hp. unfold pawn_en_passant_moves.
  destruct (position piece) as [r0 f0] eqn:Epos.
  destruct (en_passant_target gs) as [[er ef]|] eqn:Eep;
    [|by intros ?%elem_of_nil].
  destruct ((r0 + direction piece =? er) && (Z.abs (f0 - ef) =? 1)) eqn:E;
    [|by intros ?%elem_of_nil].
  intros ->%list_elem_of_singleton. rewrite <- Epos.
  apply gen_en_passant; [done|done|rewrite Epos; simpl; lia..].
Qed.

Lemma ray_moves_inv fuel b piece dr df r f m :
  m ∈ ray_moves fuel b piece dr df r f ->
  exists k, 0 <= k
    /\ m = plain_move (position piece) (r + k * dr, f + k * df)
    /\ is_valid_square (r + k * dr) (f + k * df) = true.
Proof.
  revert r f. induction fuel as [|n IH]; intros r f; simpl.
  { by intros ?%elem_of_nil. }
  destruct (is_valid_square r f) eqn:Ev; [|by intros ?%elem_of_nil].
  assert (Hhere : exists k, 0 <= k
            /\ plain_move (position piece) (r, f)
               = plain_move (position piece) (r + k * dr, f + k * df)
            /\ is_valid_square (r + k * dr) (f + k * df) = true).
  { exists 0. replace (r + 0 * dr) with r by lia.
    replace (f + 0 * df) with f by lia. done. }
  destruct (get_piece_at b r f) as [t|].
  - destruct (bool_decide (color t = color piece));
      [by intros ?%elem_of_nil|].
    by intros ->%list_elem_of_singleton.
  - intros [->|H]%elem_of_cons; [done|].
    apply IH in H as (k & Hk & -> & Hv).
    exists (k + 1). split; [lia|].
    replace (r + (k + 1) * dr) with (r + dr + k * dr) by lia.
    replace (f + (k + 1) * df) with (f + df + k * df) by lia. done.
Qed.

Lemma sliding_generated b gs piece deltas m :
  Forall unit_delta deltas ->
  m ∈ _pseudo_legal_sliding_moves b piece deltas -> generated b gs piece m.
Proof.
  intros Hd. unfold _pseudo_legal_sliding_moves.
  destruct (position piece) as [r0 f0] eqn:Epos.
  intros ([dr df] & Hin & H)%elem_flat_map.
  rewrite Forall_forall in Hd. specialize (Hd _ Hin).
  destruct Hd as (Hr & Hf & Hnz). cbn [fst snd] in *.
  apply ray_moves_inv in H as (k & Hk & -> & Hv).
  apply gen_plain; [done|]. rewrite Epos. intros [=]. nia.
Qed.

Lemma leaper_generated b gs piece deltas m :
  Forall (fun d : Z * Z => d.1 <> 0 \/ d.2 <> 0) deltas ->
  m ∈ _pseudo_legal_knight_king_moves b piece deltas ->
  generated b gs piece m.
Proof.
  intros Hd. unfold _pseudo_legal_knight_king_moves.
  destruct (position piece) as [r0 f0] eqn:Epos.
  intros ([dr df] & Hin & H)%elem_flat_map.
  rewrite Forall_forall in Hd. specialize (Hd _ Hin). cbn [fst snd] in *.
  destruct (is_valid_square (r0 + dr) (f0 + df)) eqn:Ev;
    [|by apply elem_of_nil in H].
  assert (G : generated b gs piece (plain_move (r0, f0) (r0 + dr, f0 + df))).
  { rewrite <- Epos. apply gen_plain; [done|]. rewrite Epos. intros [=]. lia. }
  destruct (get_piece_at b (r0 + dr) (f0 + df)) as [t|].
  - destruct (bool_decide (color t = color piece));
      [by apply elem_of_nil in H|].
    by apply list_elem_of_singleton in H as ->.
  - by apply list_elem_of_singleton in H as ->.
Qed.

Lemma forallb_elem {A} (P : A -> bool) (l : list A) :
  forallb P l = true <-> forall x, x ∈ l -> P x = true.
Proof.
  rewrite forallb_forall. split; intros H x Hx; apply H;
    by rewrite ?list_elem_of_In in *.
Qed.

(** What one wing of the castling generator yields. *)
Lemma castle_wing_elem b gs piece w m :
  m ∈ castle_wing b gs piece (wing_right (color piece) w)
        (wing_empties w) (wing_transit w) (wing_dest w)
  <-> m = castle_move (position piece) ((position piece).1, wing_dest w)
      /\ castle_conditions b gs (color piece)
           (position piece).1 (position piece).2 w.
Proof.
  unfold castle_wing, castle_conditions.
  destruct (position piece) as [r0 f0]. simpl.
  destruct (has_right (wing_right (color piece) w) gs) eqn:Er; simpl.
  2:{ split; [by intros ?%elem_of_nil|]. by intros (_ & ? & _). }
  destruct (forallb (fun f => is_none (get_piece_at b r0 f)) (wing_empties w))
    eqn:Ee.
  2:{ split; [by intros ?%elem_of_nil|]. intros (_ & _ & He & _).
      assert (forallb (fun f => is_none (get_piece_at b r0 f))
                (wing_empties w) = true); [|congruence].
      apply forallb_elem. intros f Hf. by rewrite He. }
  assert (He : forall f, f ∈ wing_empties w -> get_piece_at b r0 f = None).
  { intros f Hf. apply is_none_true.
    by apply (proj1 (forallb_elem _ _) Ee). }
  destruct (square_attacked_by b (r0, f0) (other_side (color piece)) None),
    (square_attacked_by b (r0, wing_transit w) (other_side (color piece)) None),
    (square_attacked_by b (r0, wing_dest w) (other_side (color piece)) None);
    simpl; (split; [try by intros ?%elem_of_nil|]);
    try (by intros (_ & _ & _ & ? & ? & ?)).
  - intros ->%list_elem_of_singleton. done.
  - intros (-> & _). by apply list_elem_of_singleton.
Qed.

Lemma castling_elem b gs piece m :
  m ∈ _pseudo_legal_castling b gs piece
  <-> exists w,
      m = castle_move (position piece) ((position piece).1, wing_dest w)
      /\ castle_conditions b gs (color piece)
           (position piece).1 (position piece).2 w.
Proof.
  unfold _pseudo_legal_castling.
  pose proof (castle_wing_elem b gs piece Kingside m) as HK.
  pose proof (castle_wing_elem b gs piece Queenside m) as HQ.
  destruct (color piece);
    cbn [wing_right wing_empties wing_transit wing_dest] in HK, HQ;
    rewrite elem_of_app, HK, HQ;
    (split;
     [intros [H|H]; [by exists Kingside|by exists Queenside]
     |intros ([|] & H); [by left|by right]]).
Qed.

Lemma moves_for_piece_generated b gs piece m :
  m ∈ _pseudo_legal_moves_for_piece b gs piece -> generated b gs piece m.
Proof.
  unfold _pseudo_legal_moves_for_piece.
  destruct (piece_type piece) eqn:Et.
  - unfold _pseudo_legal_pawn_moves. rewrite !elem_of_app.
    intros [H|[H|H]];
      eauto using pawn_push_generated, pawn_capture_generated,
        pawn_ep_generated.
  - apply leaper_generated. unfold knight_deltas.
    repeat constructor; simpl; lia.
  - apply sliding_generated. unfold bishop_deltas, unit_delta.
    repeat constructor; simpl; lia.
  - apply sliding_generated. unfold rook_deltas, unit_delta.
    repeat constructor; simpl; lia.
  - apply sliding_generated. unfold queen_deltas, unit_delta.
    repeat constructor; simpl; lia.
  - rewrite elem_of_app. intros [H|H].
    + revert H. apply leaper_generated. unfold king_deltas.
      repeat constructor; simpl; lia.
    + apply castling_elem in H as (w & -> & Hc). by apply gen_castle.
Qed.

Lemma generated_from b gs piece m :
  generated b gs piece m -> from_square m = position piece.
Proof. by destruct 1. Qed.

Lemma generated_to_valid b gs piece m :
  wf_state gs ->
  is_valid_square (position piece).1 (position piece).2 = true ->
  generated b gs piece m ->
  is_valid_square (to_square m).1 (to_square m).2 = true.
Proof.
  intros Hgs Hv. destruct 1 as [dst ? ?| ? Hs ? ?|dst p ? ? ?|ep ? Hep ? ?|w ? ?];
    simpl; try done.
  - destruct (direction_cases piece) as [[? ?]|[? ?]]; valid_tac.
  - by apply Hgs.
  - destruct w; valid_tac.
Qed.

Lemma pseudo_inv b gs from m :
  wf_board b ->
  m ∈ pseudo_legal_moves b gs from ->
  exists piece,
    is_valid_square (position piece).1 (position piece).2 = true
    /\ grid b (position piece).1 (position piece).2 = Some piece
    /\ color piece = side_to_move gs
    /\ generated b gs piece m.
Proof.
  intros [_ Hpos]. unfold pseudo_legal_moves.
  intros ([r f] & Hsq & H)%elem_flat_map.
  apply elem_all_squares in Hsq. simpl in H.
  match type of H with
  | context [if ?c then _ else _] => destruct c
  end; [|by apply elem_of_nil in H].
  rewrite get_piece_at_valid in H by done.
  destruct (grid b r f) as [piece|] eqn:Eg; [|by apply elem_of_nil in H].
  destruct (bool_decide (color piece = side_to_move gs)) eqn:Ec;
    [|by apply elem_of_nil in H].
  apply bool_decide_eq_true in Ec.
  exists piece. rewrite (Hpos r f piece Hsq Eg). simpl.
  eauto using moves_for_piece_generated.
Qed.

(** Every pseudo-legal move can be applied: [apply_move] does not raise
    on it, and yields the closed form. *)
Lemma pseudo_apply_ok b gs from m :
  wf_board b -> wf_state gs ->
  m ∈ pseudo_legal_moves b gs from ->
  exists piece,
    grid b (from_square m).1 (from_square m).2 = Some piece
    /\ color piece = side_to_move gs
    /\ position piece = from_square m
    /\ generated b gs piece m
    /\ apply_move b gs m
       = Ok (moved_board b m piece,
             apply_state gs m piece (move_captured b m)
                         (move_captured_square m),
             move_undo b gs m).
Proof.
  intros Hb Hgs Hin.
  destruct (pseudo_inv b gs from m Hb Hin) as (piece & Hv & Hg & Hc & Hgen).
  pose proof (generated_from _ _ _ _ Hgen) as Hfrom.
  pose proof (generated_to_valid _ _ _ _ Hgs Hv Hgen) as Hto.
  exists piece. rewrite Hfrom. repeat split; try done.
  apply apply_move_ok; by rewrite ?Hfrom.
Qed.

(** ** The legality filter *)

Lemma filter_legal_elem b gs pseudo legal m :
  filter_legal b gs pseudo = Ok legal ->
  m ∈ legal <->
  m ∈ pseudo
  /\ exists r, apply_move (deep_copy b) gs m = Ok r
               /\ king_safe r.1.1 (side_to_move gs) = true.
Proof.
  revert legal. induction pseudo as [|x rest IH]; intros legal; simpl.
  - intros [= <-]. split; [by intros ?%elem_of_nil|].
    by intros [?%elem_of_nil _].
  - destruct (apply_move (deep_copy b) gs x) as [r|] eqn:Ea; [|done]. simpl.
    destruct (filter_legal b gs rest) as [l|] eqn:El; [|done]. simpl.
    specialize (IH l eq_refl). intros [= <-].
    destruct (king_safe r.1.1 (side_to_move gs)) eqn:Ek.
    + rewrite !elem_of_cons, IH. split.
      * intros [->|[? ?]]; eauto.
      * intros [[->|?] ?]; eauto.
    + rewrite elem_of_cons, IH. split.
      * intros [? ?]; eauto.
      * intros [[->|?] (r' & Hr' & Hk)]; eauto. congruence.
Qed.

Lemma filter_legal_returns b gs pseudo :
  (forall m, m ∈ pseudo -> exists r, apply_move (deep_copy b) gs m = Ok r) ->
  exists legal, filter_legal b gs pseudo = Ok legal.
Proof.
  induction pseudo as [|x rest IH]; intros H; simpl; [eauto|].
  destruct (H x) as [r ->]; [by left|]. simpl.
  destruct IH as [l ->]; [intros; apply H; by right|]. simpl. eauto.
Qed.

(** [get_legal_moves] returns on every well-formed position. *)
Lemma get_legal_moves_returns b gs from :
  wf_board b -> wf_state gs ->
  exists legal, get_legal_moves b gs from = Ok legal.
Proof.
  intros Hb Hgs. apply filter_legal_returns. intros m Hm.
  rewrite deep_copy_wf by done.
  destruct (pseudo_apply_ok b gs from m Hb Hgs Hm) as (p & _ & _ & _ & _ & ->).
  eauto.
Qed.

Lemma legal_is_pseudo b gs from legal m :
  get_legal_moves b gs from = Ok legal -> m ∈ legal ->
  m ∈ pseudo_legal_moves b gs from.
Proof.
  intros H Hm. by apply (filter_legal_elem _ _ _ _ m H) in Hm as [? _].
Qed.

(** ** Game status *)

(** On every well-formed position [get_game_status] returns, and what it
    returns is the four-way classification by the engine's own
    [is_in_check] and by the emptiness of [get_legal_moves]; the two
    positions the specification names are classified as it says. *)
Lemma status_by_engine_check (b : Board) (gs : GameState) :
  wf_board b -> wf_state gs ->
  (exists legal status,
      get_legal_moves b gs None = Ok legal
      /\ get_game_status b gs = Ok status
      /\ (status = "checkmate"%string
          <-> is_in_check b gs None = true /\ legal = [])
      /\ (status = "stalemate"%string
          <-> is_in_check b gs None = false /\ legal = [])
      /\ (status = "check"%string
          <-> is_in_check b gs None = true /\ legal <> [])
      /\ (status = "playing"%string
          <-> is_in_check b gs None = false /\ legal <> []))
  /\ (exists b1 gs1,
        from_fen
          "r1bqkb1r/pppp1Qpp/2n2n2/4p3/2B1P3/8/PPPP1PPP/RNB1K1NR b KQkq - 0 4"%string
          empty_board = Ok (b1, gs1)
        /\ get_game_status b1 gs1 = Ok "checkmate"%string
        /\ is_in_check b1 gs1 (Some BLACK) = true)
  /\ (exists b2 gs2,
        from_fen "7k/5Q2/6K1/8/8/8/8/8 b - - 0 1"%string empty_board
        = Ok (b2, gs2)
        /\ get_game_status b2 gs2 = Ok "stalemate"%string
        /\ get_legal_moves b2 gs2 None = Ok []
        /\ is_in_check b2 gs2 (Some BLACK) = false).
Proof.
  intros Hb Hgs. split; [|split].
  - destruct (get_legal_moves_returns b gs None Hb Hgs) as [legal Hl].
    unfold get_game_status. rewrite Hl. simpl.
    destruct legal as [|x l], (is_in_check b gs None);
      eexists _, _; (split; [reflexivity|]); (split; [reflexivity|]);
      repeat split; try done; intros [? ?]; done.
  - give_position
      "r1bqkb1r/pppp1Qpp/2n2n2/4p3/2B1P3/8/PPPP1PPP/RNB1K1NR b KQkq - 0 4"%string.
    repeat split; by_eval.
  - give_position "7k/5Q2/6K1/8/8/8/8/8 b - - 0 1"%string.
    repeat split; by_eval.
Qed.

Lemma wf_boardb_ok b : wf_boardb b = true -> wf_board b.
Proof.
  unfold wf_boardb. rewrite !andb_true_iff, !forallb_elem.
  intros [[Hl Hr] Hp]. split; [split|].
  - by apply Nat.eqb_eq.
  - apply Forall_forall. intros row Hrow. by apply Nat.eqb_eq, Hr.
  - intros r f p Hv Hg. apply elem_all_squares in Hv.
    specialize (Hp _ Hv). simpl in Hp. rewrite Hg in Hp.
    by apply bool_decide_eq_true in Hp.
Qed.

Lemma wf_stateb_ok gs : wf_stateb gs = true -> wf_state gs.
Proof. unfold wf_stateb, wf_state. intros H sq E. by rewrite E in H. Qed.

(** C9: [get_game_status] classifies by the engine's [is_in_check], which
    reads pawn attacks from the wrong side.  With the White king on e1 and
    a Black pawn on d2, the pawn attacks the king, White is in check and
    has legal moves, yet the status is "playing" where the specification
    gives "check"; with the White king on e3 the same pawn attacks
    nothing, yet the status is "check" where the specification gives
    "playing". *)
Theorem C9_status_misreads_pawn_check :
  (exists b gs legal,
      from_fen "4k3/8/8/8/8/8/3p4/4K3 w - - 0 1"%string empty_board
      = Ok (b, gs)
      /\ side_to_move gs = WHITE
      /\ find_king b WHITE = Some (0, 4)
      /\ grid b 1 3 = Some (mkPiece PAWN BLACK (1, 3))
      /\ pawn_attacked_spec b (0, 4) BLACK = true
      /\ in_check_spec b WHITE = true
      /\ is_in_check b gs None = false
      /\ get_legal_moves b gs None = Ok legal
      /\ legal <> []
      /\ status_spec (in_check_spec b WHITE) legal = "check"%string
      /\ get_game_status b gs = Ok "playing"%string)
  /\ (exists b gs legal,
        from_fen "4k3/8/8/8/8/4K3/3p4/8 w - - 0 1"%string empty_board
        = Ok (b, gs)
        /\ side_to_move gs = WHITE
        /\ find_king b WHITE = Some (2, 4)
        /\ grid b 1 3 = Some (mkPiece PAWN BLACK (1, 3))
        /\ in_check_spec b WHITE = false
        /\ is_in_check b gs None = true
        /\ get_legal_moves b gs None = Ok legal
        /\ legal <> []
        /\ status_spec (in_check_spec b WHITE) legal = "playing"%string
        /\ get_game_status b gs = Ok "check"%string).
Proof.
  split.
  - give_position "4k3/8/8/8/8/8/3p4/4K3 w - - 0 1"%string.
    match goal with
    | |- context [get_legal_moves ?b ?gs None] =>
        let l := eval vm_compute in (get_legal_moves b gs None) in
        match l with Ok ?legal => exists legal end
    end.
    repeat split; try by_eval. discriminate.
  - give_position "4k3/8/8/8/8/4K3/3p4/8 w - - 0 1"%string.
    match goal with
    | |- context [get_legal_moves ?b ?gs None] =>
        let l := eval vm_compute in (get_legal_moves b gs None) in
        match l with Ok ?legal => exists legal end
    end.
    repeat split; try by_eval. discriminate.
Qed.

(** ** Positions without a king *)

Lemma find_none_elem {A} (P : A -> bool) (l : list A) :
  List.find P l = None <-> forall x, x ∈ l -> P x = false.
Proof.
  induction l as [|a l IH]; simpl.
  - split; [|done]. by intros _ x ?%elem_of_nil.
  - destruct (P a) eqn:E.
    + split; [done|]. intros H. specialize (H a). rewrite E in H.
      discriminate H. by left.
    + rewrite IH. split.
      * intros H x [->|?]%elem_of_cons; auto.
      * intros H x Hx. apply H. by right.
Qed.

Lemma find_king_none b c : find_king b c = None <-> kingless c b.
Proof.
  unfold find_king, kingless. rewrite find_none_elem. split.
  - intros H r f Hv. by apply (H (r, f)), elem_all_squares.
  - intros H [r f] Hv. by apply H, elem_all_squares.
Qed.

Lemma is_king_of_placed c r f v :
  is_king_of c (placed r f v) = is_king_of c v.
Proof. by destruct v. Qed.

Lemma kingless_grid_set c b r f v :
  wf_grid b -> is_valid_square r f = true ->
  kingless c b -> is_king_of c v = false ->
  kingless c (grid_set b r f v).
Proof.
  intros Hwf Hv Hk Hnk r' f' Hv'. rewrite grid_grid_set by done.
  destruct (bool_decide ((r, f) = (r', f'))); auto.
Qed.

Lemma promo_type_not_king p : promo_type p <> KING.
Proof. by destruct p. Qed.

(** A move cannot bring a king of colour [c] onto a board that has none. *)
Lemma kingless_moved_board c b m piece :
  wf_grid b ->
  is_valid_square (from_square m).1 (from_square m).2 = true ->
  is_valid_square (to_square m).1 (to_square m).2 = true ->
  grid b (from_square m).1 (from_square m).2 = Some piece ->
  kingless c b ->
  kingless c (moved_board b m piece).
Proof.
  destruct m as [[r0 f0] [r1 f1] promo cas ep dbl]. simpl.
  intros Hwf H0 H1 Hp Hk.
  assert (Hpiece : is_king_of c (Some piece) = false).
  { rewrite <- Hp. by apply Hk. }
  assert (H01 : is_valid_square r0 f1 = true) by valid_tac.
  assert (H7 : is_valid_square r0 7 = true) by valid_tac.
  assert (H5 : is_valid_square r0 5 = true) by valid_tac.
  assert (H00 : is_valid_square r0 0 = true) by valid_tac.
  assert (H3 : is_valid_square r0 3 = true) by valid_tac.
  unfold moved_board, board_after_specials. simpl.
  set (b1 := if ep then grid_set b r0 f1 None else b).
  assert (Hk1 : kingless c b1 /\ wf_grid b1).
  { subst b1. destruct ep; [|done].
    split; [by apply kingless_grid_set|by apply wf_grid_set]. }
  destruct Hk1 as [Hk1 Hwf1].
  set (b2 := if cas then _ else b1).
  assert (Hk2 : kingless c b2 /\ wf_grid b2).
  { subst b2. destruct cas; [|done].
    destruct (f0 <? f1);
      (split;
       [apply kingless_grid_set;
        [by apply wf_grid_set|done|by apply kingless_grid_set
        |rewrite is_king_of_placed; by apply Hk1]
       |by do 2 apply wf_grid_set]). }
  destruct Hk2 as [Hk2 Hwf2].
  set (b3 := if ep then b2 else _).
  assert (Hk3 : kingless c b3 /\ wf_grid b3).
  { subst b3. destruct ep; [done|].
    destruct (grid b2 r1 f1); [|done].
    split; [by apply kingless_grid_set|by apply wf_grid_set]. }
  destruct Hk3 as [Hk3 Hwf3].
  apply kingless_grid_set;
    [by apply wf_grid_set|done|by apply kingless_grid_set|].
  unfold arriving_piece. simpl.
  destruct promo as [p|]; simpl.
  - rewrite (bool_decide_eq_false_2 (promo_type p = KING))
      by apply promo_type_not_king.
    by rewrite andb_false_r.
  - exact Hpiece.
Qed.

Lemma filter_legal_none b gs pseudo :
  (forall m, m ∈ pseudo ->
     exists r, apply_move (deep_copy b) gs m = Ok r
               /\ king_safe r.1.1 (side_to_move gs) = false) ->
  filter_legal b gs pseudo = Ok [].
Proof.
  induction pseudo as [|x rest IH]; intros H; simpl; [done|].
  destruct (H x) as (r & -> & Hk); [by left|]. simpl.
  rewrite IH by (intros; apply H; by right). simpl. by rewrite Hk.
Qed.

(** C10: on a well-formed position where the side to move has no king,
    [is_in_check] is false, [get_legal_moves] returns the empty list and
    [get_game_status] returns "stalemate"; none of them raises. *)
Theorem C10_kingless_position (b : Board) (gs : GameState) :
  wf_board b -> wf_state gs ->
  find_king b (side_to_move gs) = None ->
  is_in_check b gs None = false
  /\ get_legal_moves b gs None = Ok []
  /\ get_game_status b gs = Ok "stalemate"%string.
Proof.
  intros Hb Hgs Hk.
  assert (Hc : is_in_check b gs None = false).
  { unfold is_in_check. by rewrite Hk. }
  assert (Hl : get_legal_moves b gs None = Ok []).
  { apply filter_legal_none. intros m Hm. rewrite deep_copy_wf by done.
    destruct (pseudo_apply_ok b gs None m Hb Hgs Hm)
      as (piece & Hg & _ & Hpos & Hgen & ->).
    eexists. split; [reflexivity|]. simpl.
    unfold king_safe.
    assert (Hv : is_valid_square (from_square m).1 (from_square m).2 = true).
    { destruct (pseudo_inv b gs None m Hb Hm) as (q & Hq & _ & _ & Gq).
      by rewrite (generated_from _ _ _ _ Gq). }
    assert (Hkl : kingless (side_to_move gs) (moved_board b m piece)).
    { apply kingless_moved_board; try done.
      - apply Hb.
      - eapply generated_to_valid; [done| |done]. by rewrite Hpos.
      - by apply find_king_none. }
    apply find_king_none in Hkl. by rewrite Hkl. }
  split; [done|]. split; [done|].
  unfold get_game_status. rewrite Hl. simpl. by rewrite Hc.
Qed.

(** The theorem at a position with a Black king, a White pawn and no
    White king, White to move. *)
Lemma C10_kingless_position_witness :
  wf_board (load_fen "4k3/8/8/8/8/8/4P3/8 w - - 0 1"%string).1
  /\ wf_state (load_fen "4k3/8/8/8/8/8/4P3/8 w - - 0 1"%string).2
  /\ find_king (load_fen "4k3/8/8/8/8/8/4P3/8 w - - 0 1"%string).1
       (side_to_move (load_fen "4k3/8/8/8/8/8/4P3/8 w - - 0 1"%string).2)
     = None
  /\ get_game_status (load_fen "4k3/8/8/8/8/8/4P3/8 w - - 0 1"%string).1
       (load_fen "4k3/8/8/8/8/8/4P3/8 w - - 0 1"%string).2
     = Ok "stalemate"%string.
Proof.
  set (st := load_fen "4k3/8/8/8/8/8/4P3/8 w - - 0 1"%string).
  assert (Hb : wf_board st.1)
    by (apply wf_boardb_ok; vm_compute; reflexivity).
  assert (Hs : wf_state st.2)
    by (apply wf_stateb_ok; vm_compute; reflexivity).
  assert (Hk : find_king st.1 (side_to_move st.2) = None)
    by (vm_compute; reflexivity).
  split; [exact Hb|]. split; [exact Hs|]. split; [exact Hk|].
  exact (proj2 (proj2 (C10_kingless_position _ _ Hb Hs Hk))).
Defined.

(** ** En passant *)

Lemma wf_board_grid_set b r f v :
  wf_board b -> is_valid_square r f = true ->
  (forall p, v = Some p -> position p = (r, f)) ->
  wf_board (grid_set b r f v).
Proof.
  intros [Hwf Hpos] Hv Hp. split; [by apply wf_grid_set|].
  intros r' f' p Hv'. rewrite grid_grid_set by done.
  destruct (bool_decide ((r, f) = (r', f'))) eqn:E.
  - apply bool_decide_eq_true in E as [= <- <-]. apply Hp.
  - by apply Hpos.
Qed.

Lemma direction_other_side p q :
  color q = other_side (color p) -> direction q = - direction p.
Proof.
  unfold direction, is_white. intros ->. by destruct (color p).
Qed.

(** Rewrites lookups in updated grids, given the bounds in context. *)
Ltac grid_simpl :=
  repeat (rewrite grid_grid_set
            by (try apply wf_grid_set; try apply wf_grid_set;
                try apply wf_grid_set; try apply wf_grid_set;
                solve [assumption|valid_tac]));
  repeat match goal with
         | |- context [bool_decide (?a = ?b)] =>
             first
               [rewrite (bool_decide_eq_true_2 (a = b))
                  by (f_equal; simpl in *; lia)
               |rewrite (bool_decide_eq_false_2 (a = b))
                  by (intros [=]; simpl in *; lia)]
         end.

(** C7: in the position reached by a double pawn push the generator made
    on a well-formed board, every en-passant move the generator proposes
    can be applied; the destination square is empty, the piece removed is
    the pushed pawn, standing on (origin rank, destination file), and the
    undo record stores that pawn with that square. *)
Theorem C7_en_passant_after_double_push
    (b0 : Board) (gs0 : GameState) (push : Move)
    (b : Board) (gs : GameState) (u0 : UndoInfo) (m : Move) :
  wf_board b0 ->
  push ∈ pseudo_legal_moves b0 gs0 None ->
  is_double_pawn_push push = true ->
  apply_move b0 gs0 push = Ok (b, gs, u0) ->
  m ∈ pseudo_legal_moves b gs None ->
  is_en_passant m = true ->
  exists b' gs' u pawn,
    apply_move b gs m = Ok (b', gs', u)
    /\ get_piece_at b (to_square m).1 (to_square m).2 = None
    /\ grid b (from_square m).1 (to_square m).2 = Some pawn
    /\ piece_type pawn = PAWN
    /\ color pawn = side_to_move gs0
    /\ position pawn = to_square push
    /\ grid b' (from_square m).1 (to_square m).2 = None
    /\ captured_piece u = Some pawn
    /\ captured_square u = ((from_square m).1, (to_square m).2).
Proof.
  intros Hb0 Hpush Hdbl Happ Hm Hep.
  destruct (pseudo_inv b0 gs0 None push Hb0 Hpush)
    as (pc & Hv0 & Hg0 & Hc0 & Gen0).
  inversion Gen0 as [| Ht0 Hs0 Hn1 Hn2 Hmv| | |]; subst push;
    try discriminate Hdbl. clear Hdbl.
  destruct (position pc) as [r0 f0] eqn:Epos. simpl in *.
  assert (Hd : (direction pc = 1 /\ r0 = 1) \/ (direction pc = -1 /\ r0 = 6)).
  { destruct (direction_cases pc) as [[? ?]|[? ?]]; [left|right]; lia. }
  set (d := direction pc) in *.
  assert (Hv2 : is_valid_square (r0 + 2 * d) f0 = true)
    by (destruct Hd as [[? ?]|[? ?]]; valid_tac).
  assert (Hv1 : is_valid_square (r0 + d) f0 = true)
    by (destruct Hd as [[? ?]|[? ?]]; valid_tac).
  rewrite (apply_move_ok b0 gs0 _ pc) in Happ by (simpl; done).
  injection Happ as <- <- <-.
  unfold moved_board, board_after_specials, arriving_piece in *. simpl in *.
  rewrite Hn2 in *.
  set (pawn := mkPiece (piece_type pc) (color pc) (r0 + 2 * d, f0)) in *.
  set (b := grid_set (grid_set b0 r0 f0 None) (r0 + 2 * d) f0 (Some pawn))
    in *.
  assert (Hwf0 : wf_grid b0) by apply Hb0.
  assert (Hb : wf_board b).
  { subst b. apply wf_board_grid_set; [|done|by intros p [= <-]].
    by apply wf_board_grid_set. }
  set (gs := apply_state gs0 _ pc _ _) in *.
  assert (Htarget : en_passant_target gs = Some (r0 + d, f0)).
  { subst gs. unfold apply_state. simpl. do 2 f_equal.
    replace (r0 + (r0 + 2 * d)) with ((r0 + d) * 2) by lia.
    apply Z.div_mul. lia. }
  assert (Hside : side_to_move gs = other_side (side_to_move gs0)) by done.
  destruct (pseudo_inv b gs None m Hb Hm) as (q & Hvq & Hgq & Hcq & Genq).
  inversion Genq as [| | |ep Htq Heq Hr Hf|]; subst m; try discriminate Hep.
  assert (ep = (r0 + d, f0)) as -> by congruence.
  destruct (position q) as [rq fq] eqn:Eq. simpl in *.
  assert (Hdq : direction q = - d).
  { apply direction_other_side. rewrite Hcq. by rewrite Hc0. }
  assert (Hrq : rq = r0 + 2 * d) by lia. subst rq.
  assert (Hfq : fq <> f0) by lia.
  rewrite (apply_move_ok b gs _ q) by (simpl; done).
  eexists _, _, _, pawn. split; [reflexivity|].
  unfold move_undo, move_captured, move_captured_square, moved_board,
    board_after_specials. simpl.
  rewrite get_piece_at_valid by done.
  assert (Hwf : wf_grid b) by apply Hb.
  assert (Hgb2 : grid b (r0 + 2 * d) f0 = Some pawn).
  { subst b. grid_simpl. done. }
  assert (Hgb1 : grid b (r0 + d) f0 = None).
  { subst b. grid_simpl. done. }
  repeat split; try done.
  grid_simpl. done.
Qed.

(** The theorem after the double push e2-e4 next to a Black pawn on d4. *)
Lemma C7_en_passant_after_double_push_witness :
  exists b gs u0,
    wf_board (load_fen "4k3/8/8/8/3p4/8/4P3/4K3 w - - 0 1"%string).1
    /\ double_push_move (1, 4) (3, 4)
       ∈ pseudo_legal_moves
           (load_fen "4k3/8/8/8/3p4/8/4P3/4K3 w - - 0 1"%string).1
           (load_fen "4k3/8/8/8/3p4/8/4P3/4K3 w - - 0 1"%string).2 None
    /\ apply_move (load_fen "4k3/8/8/8/3p4/8/4P3/4K3 w - - 0 1"%string).1
         (load_fen "4k3/8/8/8/3p4/8/4P3/4K3 w - - 0 1"%string).2
         (double_push_move (1, 4) (3, 4)) = Ok (b, gs, u0)
    /\ en_passant_move (3, 3) (2, 4) ∈ pseudo_legal_moves b gs None
    /\ exists b' gs' u,
        apply_move b gs (en_passant_move (3, 3) (2, 4)) = Ok (b', gs', u)
        /\ get_piece_at b 2 4 = None
        /\ captured_piece u = Some (mkPiece PAWN WHITE (3, 4))
        /\ captured_square u = (3, 4).
Proof.
  set (st := load_fen "4k3/8/8/8/3p4/8/4P3/4K3 w - - 0 1"%string).
  let r := eval vm_compute in
       (apply_move st.1 st.2 (double_push_move (1, 4) (3, 4))) in
  match r with
  | Ok (?b, ?gs, ?u0) => exists b, gs, u0;
      assert (Ha : apply_move st.1 st.2 (double_push_move (1, 4) (3, 4))
                   = Ok (b, gs, u0)) by by_eval;
      assert (Hm : en_passant_move (3, 3) (2, 4)
                   ∈ pseudo_legal_moves b gs None) by in_list
  end.
  assert (Hb : wf_board st.1)
    by (apply wf_boardb_ok; vm_compute; reflexivity).
  assert (Hp : double_push_move (1, 4) (3, 4)
               ∈ pseudo_legal_moves st.1 st.2 None) by in_list.
  split; [exact Hb|]. split; [exact Hp|]. split; [exact Ha|].
  split; [exact Hm|].
  destruct (C7_en_passant_after_double_push _ _ _ _ _ _ _
              Hb Hp eq_refl Ha Hm eq_refl)
    as (b' & gs' & u & pawn & H1 & H2 & H3 & H4 & H5 & H6 & H7 & H8 & H9).
  exists b', gs', u. split; [exact H1|]. split; [exact H2|].
  split; [|exact H9].
  rewrite H8. f_equal. vm_compute in H3. congruence.
Defined.

(** C7, as first stated, fails: with a White pawn on (4,4), a Black
    knight on (5,3) and the en-passant target (5,3), as [from_fen] loads
    them, the en-passant capture from (4,4) to (5,3) is legal; its
    destination is occupied, and no pawn stands on (4,3). *)
Lemma C7_en_passant_claim_fails : ~ en_passant_claim.
Proof.
  intros H.
  set (st := load_fen "4k3/8/3n4/4P3/8/8/8/4K3 w - d3 0 1"%string).
  assert (Hb : wf_board st.1)
    by (apply wf_boardb_ok; vm_compute; reflexivity).
  assert (Hs : wf_state st.2)
    by (apply wf_stateb_ok; vm_compute; reflexivity).
  let l := eval vm_compute in (get_legal_moves st.1 st.2 None) in
  let r := eval vm_compute in
       (apply_move st.1 st.2 (en_passant_move (4, 4) (5, 3))) in
  match l with
  | Ok ?legal =>
      match r with
      | Ok (?b', ?gs', ?u) =>
          assert (Hl : get_legal_moves st.1 st.2 None = Ok legal) by by_eval;
          assert (Hin : en_passant_move (4, 4) (5, 3) ∈ legal) by in_list;
          assert (Ha : apply_move st.1 st.2 (en_passant_move (4, 4) (5, 3))
                       = Ok (b', gs', u)) by by_eval
      end
  end.
  destruct (H _ _ _ _ _ _ _ Hb Hs Hl Hin eq_refl Ha) as (_ & _ & Hempty & _).
  vm_compute in Hempty. discriminate Hempty.
Qed.

(** ** apply_move followed by undo_move *)

Lemma undo_move_ok b gs m u piece :
  is_valid_square (from_square m).1 (from_square m).2 = true ->
  is_valid_square (to_square m).1 (to_square m).2 = true ->
  grid b (to_square m).1 (to_square m).2 = Some piece ->
  (captured_piece u <> None ->
   is_valid_square (captured_square u).1 (captured_square u).2 = true) ->
  (forall rf, rook_from u = Some rf -> is_valid_square rf.1 rf.2 = true) ->
  (forall rt, rook_to u = Some rt -> is_valid_square rt.1 rt.2 = true) ->
  undo_move b gs m u = Ok (undone_board b m u piece, undo_state gs u).
Proof.
  destruct m as [[r0 f0] [r1 f1] promo cas ep dbl],
    u as [cp [rc fc] rf rt pc pe ph]. simpl.
  intros H0 H1 Hp Hc Hrf Hrt.
  unfold undo_move, undone_board, clear_square, set_piece_at, board_getitem.
  simpl. rewrite H1, Hp. simpl. rewrite ?H1. simpl.
  destruct promo; simpl; rewrite ?H0; simpl;
    (destruct cp as [c|]; simpl; [rewrite Hc by done; simpl|]);
    (destruct cas; simpl; [|done]);
    (destruct rf as [[a1 a2]|]; simpl; [|done]);
    (destruct rt as [[c1 c2]|]; simpl; [|done]);
    pose proof (Hrt _ eq_refl) as Ht; pose proof (Hrf _ eq_refl) as Hf;
    simpl in Ht, Hf; rewrite Ht; simpl; rewrite ?Ht; simpl;
    rewrite Hf; simpl; done.
Qed.

Lemma undo_apply_state gs m piece cap csq b :
  undo_state (apply_state gs m piece cap csq) (move_undo b gs m) = gs.
Proof.
  destruct m as [[r0 f0] [r1 f1] promo cas ep dbl], gs as [side cr e h fm].
  unfold undo_state, apply_state, move_undo. simpl.
  destruct side; simpl; f_equal; lia.
Qed.

Lemma piece_eta p : mkPiece (piece_type p) (color p) (position p) = p.
Proof. by destruct p. Qed.

Lemma wf_board_piece b r f p :
  wf_board b -> is_valid_square r f = true -> grid b r f = Some p ->
  Some (mkPiece (piece_type p) (color p) (r, f)) = grid b r f.
Proof.
  intros [_ Hpos] Hv Hg. rewrite Hg, <- (Hpos r f p Hv Hg). by rewrite piece_eta.
Qed.

Lemma wf_board_placed b r f :
  wf_board b -> is_valid_square r f = true ->
  placed r f (grid b r f) = grid b r f.
Proof.
  intros Hb Hv. destruct (grid b r f) as [p|] eqn:E; [|done]. simpl.
  rewrite <- E. by apply wf_board_piece.
Qed.

Ltac wf_tac := repeat apply wf_grid_set; assumption.

(** Compares two grids square by square, splitting on the squares that
    were written. *)
Ltac grid_cases :=
  repeat (rewrite grid_grid_set by (solve [wf_tac|assumption|valid_tac]));
  repeat case_bool_decide; simplify_eq; try done.

Lemma placed_placed r f r' f' v :
  placed r f (placed r' f' v) = placed r f v.
Proof. by destruct v. Qed.

Lemma round_trip_board b gs piece m :
  wf_board b -> wf_state gs ->
  ep_target_empty b gs ->
  (piece_type piece = KING -> holds_right (color piece) gs ->
   (position piece).2 = 4) ->
  is_valid_square (position piece).1 (position piece).2 = true ->
  grid b (position piece).1 (position piece).2 = Some piece ->
  generated b gs piece m ->
  undone_board (moved_board b m piece) m (move_undo b gs m)
               (arriving_piece m piece) = b.
Proof.
  intros Hb Hgs Hep Hking Hv Hg Hgen.
  assert (Hwf : wf_grid b) by apply Hb.
  destruct (position piece) as [r0 f0] eqn:Epos. simpl in *.
  pose proof (wf_board_piece b r0 f0 piece Hb Hv Hg) as Hself.
  destruct Hgen as [[r1 f1] Hv1 Hne| Ht Hs Hn1 Hn2|[r1 f1] p Ht Hv1 Hne
                   |[er ef] Ht Htarget Hr Hf|w Ht Hc];
    rewrite ?Epos in *; simpl in *.
  - (* an ordinary move or capture *)
    unfold undone_board, moved_board, move_undo, move_captured,
      move_captured_square, board_after_specials, arriving_piece. simpl.
    pose proof (wf_board_placed b r1 f1 Hb Hv1) as Hpl.
    destruct (grid b r1 f1) as [cp|] eqn:Ed; simpl in *;
      (apply board_ext; [wf_tac|done|]); intros r f Hrf; grid_cases;
      congruence.
  - (* a double pawn push *)
    assert (Hv2 : is_valid_square (r0 + 2 * direction piece) f0 = true).
    { destruct (direction_cases piece) as [[? ?]|[? ?]]; valid_tac. }
    unfold undone_board, moved_board, move_undo, move_captured,
      move_captured_square, board_after_specials, arriving_piece. simpl.
    rewrite Hn2. simpl.
    apply board_ext; [wf_tac|done|]. intros r f Hrf. grid_cases.
  - (* a promotion, capturing or not *)
    unfold undone_board, moved_board, move_undo, move_captured,
      move_captured_square, board_after_specials, arriving_piece. simpl.
    pose proof (wf_board_placed b r1 f1 Hb Hv1) as Hpl.
    rewrite Ht in Hself.
    destruct (grid b r1 f1) as [cp|] eqn:Ed; simpl in *;
      (apply board_ext; [wf_tac|done|]); intros r f Hrf; grid_cases;
      congruence.
  - (* en passant *)
    pose proof (Hgs _ Htarget) as Hve. simpl in Hve.
    pose proof (Hep _ Htarget) as Hempty. simpl in Hempty.
    rewrite get_piece_at_valid in Hempty by done.
    assert (Hvc : is_valid_square r0 ef = true) by valid_tac.
    pose proof (wf_board_placed b r0 ef Hb Hvc) as Hpl.
    unfold undone_board, moved_board, move_undo, move_captured,
      move_captured_square, board_after_specials, arriving_piece. simpl.
    destruct (grid b r0 ef) as [cp|] eqn:Ed; simpl in *;
      (apply board_ext; [wf_tac|done|]); intros r f Hrf; grid_cases;
      try congruence.
  - (* castling *)
    destruct Hc as (Hright & Hempties & _).
    assert (f0 = 4) as -> by (apply Hking; [done|by exists w]).
    assert (Hcorner : is_valid_square r0 (wing_corner w) = true)
      by (destruct w; valid_tac).
    pose proof (wf_board_placed b r0 (wing_corner w) Hb Hcorner) as Hpl.
    assert (Hnone : forall f, f ∈ wing_empties w -> grid b r0 f = None).
    { intros f Hf. rewrite <- (Hempties f Hf).
      symmetry. apply get_piece_at_valid.
      destruct w; simpl in Hf; elem_cases Hf; subst; valid_tac. }
    unfold undone_board, moved_board, move_undo, move_captured,
      move_captured_square, board_after_specials, arriving_piece.
    destruct w; simpl in *.
    + pose proof (Hnone 5 ltac:(in_list)) as H5.
      pose proof (Hnone 6 ltac:(in_list)) as H6.
      repeat (rewrite (grid_grid_set _ _ _ _ r0 6)
                by (solve [wf_tac|valid_tac]);
              rewrite ?bool_decide_eq_false_2 by (intros [=]; lia)).
      rewrite H6. simpl.
      apply board_ext; [wf_tac|done|]. intros r f Hrf. grid_cases;
        rewrite ?placed_placed; congruence.
    + pose proof (Hnone 1 ltac:(in_list)) as H1.
      pose proof (Hnone 2 ltac:(in_list)) as H2.
      pose proof (Hnone 3 ltac:(in_list)) as H3.
      repeat (rewrite (grid_grid_set _ _ _ _ r0 2)
                by (solve [wf_tac|valid_tac]);
              rewrite ?bool_decide_eq_false_2 by (intros [=]; lia)).
      rewrite H2. simpl.
      apply board_ext; [wf_tac|done|]. intros r f Hrf. grid_cases;
        rewrite ?placed_placed; congruence.
Qed.

Lemma arriving_on_moved_board b m piece :
  wf_grid b ->
  is_valid_square (from_square m).1 (from_square m).2 = true ->
  is_valid_square (to_square m).1 (to_square m).2 = true ->
  grid (moved_board b m piece) (to_square m).1 (to_square m).2
  = Some (arriving_piece m piece).
Proof.
  destruct m as [[r0 f0] [r1 f1] promo cas ep dbl]. simpl.
  intros Hwf H0 H1. unfold moved_board. simpl.
  apply grid_set_same; [|done].
  apply wf_grid_set. unfold board_after_specials. simpl.
  destruct ep, cas; try destruct (grid _ r1 f1); wf_tac.
Qed.

(** C2: on a well-formed position whose en-passant target, if any, is an
    empty square and where a side holding a castling right has its kings
    on the e-file, every legal move can be applied, and undoing it with
    the returned record gives back the board and the state exactly. *)
Theorem C2_apply_undo_round_trip
    (b : Board) (gs : GameState) (legal : list Move) (m : Move) :
  wf_board b -> wf_state gs ->
  ep_target_empty b gs -> kings_on_e_file b gs ->
  get_legal_moves b gs None = Ok legal -> m ∈ legal ->
  exists b' gs' u,
    apply_move b gs m = Ok (b', gs', u)
    /\ undo_move b' gs' m u = Ok (b, gs).
Proof.
  intros Hb Hgs Hep Hking Hl Hm.
  pose proof (legal_is_pseudo _ _ _ _ _ Hl Hm) as Hp.
  destruct (pseudo_inv b gs None m Hb Hp) as (piece & Hv & Hg & Hc & Gen).
  pose proof (generated_from _ _ _ _ Gen) as Hfrom.
  pose proof (generated_to_valid _ _ _ _ Hgs Hv Gen) as Hto.
  assert (Hwf : wf_grid b) by apply Hb.
  assert (H0 : is_valid_square (from_square m).1 (from_square m).2 = true)
    by (by rewrite Hfrom).
  rewrite (apply_move_ok b gs m piece) by (by rewrite ?Hfrom).
  eexists _, _, _. split; [reflexivity|].
  rewrite (undo_move_ok _ _ m _ (arriving_piece m piece)).
  - rewrite undo_apply_state. f_equal. f_equal.
    apply round_trip_board; try done.
    intros Ht Hr.
    by apply (Hking (position piece).1 (position piece).2 piece).
  - done.
  - done.
  - by apply arriving_on_moved_board.
  - intros _. clear -H0 Hto. unfold move_undo, move_captured_square.
    destruct m as [[r0 f0] [r1 f1] promo cas ep dbl]. simpl in *.
    destruct ep; simpl; valid_tac.
  - clear -H0 Hto. unfold move_undo.
    destruct m as [[r0 f0] [r1 f1] promo cas ep dbl]. simpl in *.
    destruct cas; [|done]. intros rf [= <-]. destruct (f0 <? f1); valid_tac.
  - clear -H0 Hto. unfold move_undo.
    destruct m as [[r0 f0] [r1 f1] promo cas ep dbl]. simpl in *.
    destruct cas; [|done]. intros rf [= <-]. destruct (f0 <? f1); valid_tac.
Qed.

Lemma ep_target_emptyb_ok b gs :
  ep_target_emptyb b gs = true -> ep_target_empty b gs.
Proof.
  unfold ep_target_emptyb, ep_target_empty. intros H sq E.
  rewrite E in H. by apply is_none_true.
Qed.

Lemma kings_on_e_fileb_ok b gs :
  kings_on_e_fileb b gs = true -> kings_on_e_file b gs.
Proof.
  unfold kings_on_e_fileb. rewrite forallb_elem.
  intros H r f p Hv Hg Ht Hc _. apply elem_all_squares in Hv.
  specialize (H _ Hv). simpl in H. rewrite Hg in H. simpl in H.
  rewrite Ht, Hc in H. rewrite !bool_decide_eq_true_2 in H by done.
  simpl in H. lia.
Qed.

(** The theorem at the starting position, for the move e2-e4. *)
Lemma C2_apply_undo_round_trip_witness :
  exists legal,
    wf_board (load_fen STARTING_FEN).1 /\ wf_state (load_fen STARTING_FEN).2
    /\ ep_target_empty (load_fen STARTING_FEN).1 (load_fen STARTING_FEN).2
    /\ kings_on_e_file (load_fen STARTING_FEN).1 (load_fen STARTING_FEN).2
    /\ get_legal_moves (load_fen STARTING_FEN).1 (load_fen STARTING_FEN).2
         None = Ok legal
    /\ double_push_move (1, 4) (3, 4) ∈ legal
    /\ exists b' gs' u,
        apply_move (load_fen STARTING_FEN).1 (load_fen STARTING_FEN).2
          (double_push_move (1, 4) (3, 4)) = Ok (b', gs', u)
        /\ undo_move b' gs' (double_push_move (1, 4) (3, 4)) u
           = Ok ((load_fen STARTING_FEN).1, (load_fen STARTING_FEN).2).
Proof.
  set (st := load_fen STARTING_FEN).
  let l := eval vm_compute in (get_legal_moves st.1 st.2 None) in
  match l with
  | Ok ?legal =>
      exists legal;
      assert (Hl : get_legal_moves st.1 st.2 None = Ok legal) by by_eval;
      assert (Hin : double_push_move (1, 4) (3, 4) ∈ legal) by in_list
  end.
  assert (Hb : wf_board st.1)
    by (apply wf_boardb_ok; vm_compute; reflexivity).
  assert (Hs : wf_state st.2)
    by (apply wf_stateb_ok; vm_compute; reflexivity).
  assert (He : ep_target_empty st.1 st.2)
    by (apply ep_target_emptyb_ok; vm_compute; reflexivity).
  assert (Hk : kings_on_e_file st.1 st.2)
    by (apply kings_on_e_fileb_ok; vm_compute; reflexivity).
  split; [exact Hb|]. split; [exact Hs|]. split; [exact He|].
  split; [exact Hk|]. split; [exact Hl|]. split; [exact Hin|].
  exact (C2_apply_undo_round_trip _ _ _ _ Hb Hs He Hk Hl Hin).
Defined.

(** C2, as first stated, fails: with White's king on h1, a knight on d1
    and the king-side right held, the generator proposes the castling
    move from (0,7) to (0,6), which is legal; [apply_move] treats it as
    queen-side, writes the (empty) a1 square over the knight, and
    [undo_move] does not bring the knight back. *)
Lemma C2_round_trip_claim_fails : ~ round_trip_claim.
Proof.
  intros H.
  set (st := load_fen "4k3/8/8/8/8/8/8/3N3K w K - 0 1"%string).
  assert (Hb : wf_board st.1)
    by (apply wf_boardb_ok; vm_compute; reflexivity).
  assert (Hs : wf_state st.2)
    by (apply wf_stateb_ok; vm_compute; reflexivity).
  let l := eval vm_compute in (get_legal_moves st.1 st.2 None) in
  let r := eval vm_compute in
       (apply_move st.1 st.2 (castle_move (0, 7) (0, 6))) in
  match l with
  | Ok ?legal =>
      match r with
      | Ok (?b', ?gs', ?u) =>
          assert (Hl : get_legal_moves st.1 st.2 None = Ok legal) by by_eval;
          assert (Hin : castle_move (0, 7) (0, 6) ∈ legal) by in_list;
          assert (Ha : apply_move st.1 st.2 (castle_move (0, 7) (0, 6))
                       = Ok (b', gs', u)) by by_eval
      end
  end.
  specialize (H _ _ _ _ _ _ _ Hb Hs Hl Hin Ha).
  vm_compute in H. discriminate H.
Qed.

(** The en-passant variant of the same failure: the knight on the
    occupied target square is overwritten and not restored. *)
Lemma round_trip_fails_on_occupied_target :
  exists b gs b' gs' u b'',
    from_fen "4k3/8/3n4/4P3/8/8/8/4K3 w - d3 0 1"%string empty_board
    = Ok (b, gs)
    /\ apply_move b gs (en_passant_move (4, 4) (5, 3)) = Ok (b', gs', u)
    /\ undo_move b' gs' (en_passant_move (4, 4) (5, 3)) u = Ok (b'', gs)
    /\ grid b 5 3 = Some (mkPiece KNIGHT BLACK (5, 3))
    /\ grid b'' 5 3 = None.
Proof.
  let r := eval vm_compute in
       (from_fen "4k3/8/3n4/4P3/8/8/8/4K3 w - d3 0 1"%string empty_board) in
  match r with
  | Ok (?b, ?gs) =>
      let a := eval vm_compute in
           (apply_move b gs (en_passant_move (4, 4) (5, 3))) in
      match a with
      | Ok (?b', ?gs', ?u) =>
          let z := eval vm_compute in
               (undo_move b' gs' (en_passant_move (4, 4) (5, 3)) u) in
          match z with
          | Ok (?b'', _) => exists b, gs, b', gs', u, b''
          end
      end
  end.
  repeat split; by_eval.
Qed.

(** ** Castling *)

Lemma find_king_unique b c sq :
  is_valid_square sq.1 sq.2 = true ->
  is_king_of c (grid b sq.1 sq.2) = true ->
  (forall r f, is_valid_square r f = true ->
               is_king_of c (grid b r f) = true -> (r, f) = sq) ->
  find_king b c = Some sq.
Proof.
  intros Hv Hk Huniq. unfold find_king.
  destruct (List.find _ all_squares) as [[r f]|] eqn:E.
  - apply find_some in E as [Hin Hp]. simpl in Hp.
    apply list_elem_of_In, elem_all_squares in Hin.
    f_equal. by apply Huniq.
  - apply find_none_elem with (x := sq) in E.
    + congruence.
    + destruct sq. by apply elem_all_squares.
Qed.

Lemma stands_ext b' b r f c t :
  (is_valid_square r f = true -> grid b' r f = grid b r f) ->
  stands b' r f c t = stands b r f c t.
Proof.
  intros H. unfold stands, get_piece_at.
  destruct (is_valid_square r f); [|done]. by rewrite H.
Qed.

Lemma ray_attack_ext n b' b c e dr df r f :
  (forall k, 0 <= k ->
             is_valid_square (r + k * dr) (f + k * df) = true ->
             grid b' (r + k * dr) (f + k * df)
             = grid b (r + k * dr) (f + k * df)) ->
  ray_attack n b' c e dr df r f = ray_attack n b c e dr df r f.
Proof.
  revert r f. induction n as [|n IH]; intros r f H; simpl; [done|].
  destruct (is_valid_square r f) eqn:Ev; [|done].
  unfold get_piece_at. rewrite Ev.
  assert (Hhere : grid b' r f = grid b r f).
  { specialize (H 0). replace (r + 0 * dr) with r in H by lia.
    replace (f + 0 * df) with f in H by lia. by apply H. }
  rewrite Hhere.
  assert (Hnext : ray_attack n b' c e dr df (r + dr) (f + df)
                  = ray_attack n b c e dr df (r + dr) (f + df)).
  { apply IH. intros k Hk.
    replace (r + dr + k * dr) with (r + (k + 1) * dr) by lia.
    replace (f + df + k * df) with (f + (k + 1) * df) by lia.
    apply H. lia. }
  by rewrite Hnext.
Qed.

Lemma ray_attack_off_rank n b' b c e dr df r0 f :
  same_off_rank b' b r0 -> dr = 1 \/ dr = -1 ->
  ray_attack n b' c e dr df (r0 + dr) f = ray_attack n b c e dr df (r0 + dr) f.
Proof.
  intros H Hd. apply ray_attack_ext. intros k Hk Hv. apply H; [done|nia].
Qed.

Lemma ray_attack_invalid n b c e dr df r f :
  is_valid_square r f = false -> ray_attack n b c e dr df r f = false.
Proof. intros H. destruct n; simpl; [done|]. by rewrite H. Qed.

Lemma ray_attack_empty n b c e dr df r f :
  is_valid_square r f = true -> grid b r f = None ->
  ray_attack (S n) b c e dr df r f
  = ray_attack n b c e dr df (r + dr) (f + df).
Proof.
  intros Hv Hg. simpl. unfold get_piece_at. by rewrite Hv, Hg.
Qed.

Lemma ray_attack_blocked n b c dr df r f p :
  is_valid_square r f = true -> grid b r f = Some p ->
  ray_attack (S n) b c None dr df r f = slider_hits p c dr df.
Proof.
  intros Hv Hg. simpl. unfold get_piece_at. by rewrite Hv, Hg.
Qed.

Lemma pawn_attacks_off_rank b' b r0 f c :
  same_off_rank b' b r0 ->
  pawn_attacks b' (r0, f) c = pawn_attacks b (r0, f) c.
Proof.
  intros H. unfold pawn_attacks. cbn [existsb].
  rewrite !(stands_ext b' b); [done|..]; intros Hv; apply H; try done;
    destruct (bool_decide (c = WHITE)); lia.
Qed.

Lemma knight_attacks_off_rank b' b r0 f c :
  same_off_rank b' b r0 ->
  leaper_attacks b' (r0, f) c KNIGHT knight_deltas
  = leaper_attacks b (r0, f) c KNIGHT knight_deltas.
Proof.
  intros H. unfold leaper_attacks, knight_deltas. cbn [existsb fst snd].
  rewrite !(stands_ext b' b); [done|..]; intros Hv; apply H; try done; lia.
Qed.

(** After a change confined to rank [r0], a square of that rank is safe
    from kings and sliding pieces as soon as it was before and its two
    neighbours on the rank are harmless. *)
Lemma king_attacks_rank_change b' b r0 f c :
  same_off_rank b' b r0 ->
  leaper_attacks b (r0, f) c KING king_deltas = false ->
  stands b' r0 (f - 1) c KING = false ->
  stands b' r0 (f + 1) c KING = false ->
  leaper_attacks b' (r0, f) c KING king_deltas = false.
Proof.
  intros H Hb Hl Hr. unfold leaper_attacks, king_deltas in *.
  cbn [existsb fst snd] in *.
  replace (r0 + 0) with r0 in * by lia.
  replace (f + -1) with (f - 1) in * by lia.
  rewrite Hl, Hr.
  repeat (apply orb_false_iff in Hb as [? Hb]). clear Hb.
  rewrite !(stands_ext b' b) by (intros Hv; apply H; [done|lia]).
  repeat match goal with
         | E : stands _ _ _ _ _ = false |- _ => rewrite E; clear E
         end.
  reflexivity.
Qed.

Lemma slider_attacks_rank_change b' b r0 f c :
  same_off_rank b' b r0 ->
  slider_attacks b (r0, f) c None = false ->
  ray_attack 8 b' c None 0 (-1) r0 (f - 1) = false ->
  ray_attack 8 b' c None 0 1 r0 (f + 1) = false ->
  slider_attacks b' (r0, f) c None = false.
Proof.
  intros H Hb Hl Hr. unfold slider_attacks, rook_deltas, bishop_deltas in *.
  cbn [existsb app fst snd] in *.
  replace (r0 + 0) with r0 in * by lia.
  replace (f + -1) with (f - 1) in * by lia.
  rewrite Hl, Hr.
  repeat (apply orb_false_iff in Hb as [? Hb]). clear Hb.
  rewrite !(ray_attack_off_rank 8 b' b) by (done || lia).
  repeat match goal with
         | E : ray_attack _ _ _ _ _ _ _ _ = false |- _ => rewrite E; clear E
         end.
  reflexivity.
Qed.

Lemma castle_in_pseudo b gs r0 king w :
  wf_board b -> is_valid_square r0 4 = true ->
  grid b r0 4 = Some king -> piece_type king = KING ->
  color king = side_to_move gs ->
  castle_conditions b gs (side_to_move gs) r0 4 w ->
  castle_move (r0, 4) (r0, wing_dest w) ∈ pseudo_legal_moves b gs None.
Proof.
  intros Hb Hv Hg Ht Hc Hcond.
  assert (Hpos : position king = (r0, 4)) by (by apply Hb).
  unfold pseudo_legal_moves. apply elem_flat_map.
  exists (r0, 4). split; [by apply elem_all_squares|]. simpl.
  rewrite get_piece_at_valid, Hg by done.
  rewrite bool_decide_eq_true_2 by done.
  unfold _pseudo_legal_moves_for_piece. rewrite Ht.
  apply elem_of_app. right. apply castling_elem. exists w.
  rewrite Hpos, Hc. done.
Qed.

Lemma wing_dest_inj w w' : wing_dest w = wing_dest w' -> w = w'.
Proof. by destruct w, w'. Qed.

Lemma castle_pseudo_inv b gs r0 w :
  wf_board b ->
  castle_move (r0, 4) (r0, wing_dest w) ∈ pseudo_legal_moves b gs None ->
  castle_conditions b gs (side_to_move gs) r0 4 w.
Proof.
  intros Hb Hin.
  destruct (pseudo_inv b gs None _ Hb Hin) as (q & _ & _ & Hc & Gen).
  inversion Gen as [| | | |w' Ht Hcond Hmv].
  match goal with
  | Hw : wing_dest w' = wing_dest w |- _ => apply wing_dest_inj in Hw as ->
  end.
  rewrite Hmv in *. simpl in *. by rewrite <- Hc.
Qed.

Lemma other_side_ne c : other_side c <> c.
Proof. by destruct c. Qed.

Lemma slider_hits_own p c dr df :
  color p = c -> slider_hits p (other_side c) dr df = false.
Proof.
  intros <-. unfold slider_hits.
  rewrite bool_decide_eq_false_2; [done|].
  intros E. symmetry in E. by apply other_side_ne in E.
Qed.

Lemma stands_none b r f c t : grid b r f = None -> stands b r f c t = false.
Proof.
  intros H. unfold stands, get_piece_at.
  destruct (is_valid_square r f); [|done]. by rewrite H.
Qed.

Lemma stands_own b r f p c t :
  grid b r f = Some p -> color p = c ->
  stands b r f (other_side c) t = false.
Proof.
  intros H <-. unfold stands, get_piece_at.
  destruct (is_valid_square r f); [|done]. rewrite H.
  rewrite bool_decide_eq_false_2; [done|].
  intros E. symmetry in E. by apply other_side_ne in E.
Qed.

(** The king that has just castled is not attacked, provided the squares
    it crossed were not and its own rook stood on the corner. *)
Lemma attacked_false_parts b sq c :
  square_attacked_by b sq c None = false ->
  pawn_attacks b sq c = false
  /\ leaper_attacks b sq c KNIGHT knight_deltas = false
  /\ slider_attacks b sq c None = false
  /\ leaper_attacks b sq c KING king_deltas = false.
Proof.
  unfold square_attacked_by. intros H.
  apply orb_false_iff in H as [H Hk].
  apply orb_false_iff in H as [H Hs].
  apply orb_false_iff in H as [Hp Hn]. done.
Qed.

(** The verdict on a square of rank [r0] after a change confined to that
    rank. *)
Lemma attacked_after_rank_change b' b r0 f c :
  same_off_rank b' b r0 ->
  square_attacked_by b (r0, f) c None = false ->
  stands b' r0 (f - 1) c KING = false ->
  stands b' r0 (f + 1) c KING = false ->
  ray_attack 8 b' c None 0 (-1) r0 (f - 1) = false ->
  ray_attack 8 b' c None 0 1 r0 (f + 1) = false ->
  square_attacked_by b' (r0, f) c None = false.
Proof.
  intros Hoff Hb Hk1 Hk2 Hr1 Hr2.
  apply attacked_false_parts in Hb as (Hp & Hn & Hs & Hk).
  unfold square_attacked_by.
  rewrite (pawn_attacks_off_rank b' b), Hp by done.
  rewrite (knight_attacks_off_rank b' b), Hn by done.
  rewrite (slider_attacks_rank_change b' b) by done.
  by rewrite (king_attacks_rank_change b' b).
Qed.

(** The king that has just castled is not attacked, provided the squares
    it crossed were not and its own rook stood on the corner. *)
Lemma castled_king_safe b gs r0 king w rook :
  wf_board b -> is_valid_square r0 4 = true ->
  grid b r0 4 = Some king -> piece_type king = KING ->
  color king = side_to_move gs ->
  (forall r f, is_valid_square r f = true ->
               is_king_of (side_to_move gs) (grid b r f) = true ->
               (r, f) = (r0, 4)) ->
  grid b r0 (wing_corner w) = Some rook ->
  piece_type rook = ROOK -> color rook = side_to_move gs ->
  castle_conditions b gs (side_to_move gs) r0 4 w ->
  king_safe (moved_board b (castle_move (r0, 4) (r0, wing_dest w)) king)
            (side_to_move gs) = true.
Proof.
  intros Hb Hv Hg Ht Hc Honly Hrook Hrt Hrc (Hright & Hempties & _ & _ & Hdest).
  assert (Hwf : wf_grid b) by apply Hb.
  assert (Hnone : forall f, f ∈ wing_empties w -> grid b r0 f = None).
  { intros f Hf. rewrite <- (Hempties f Hf).
    symmetry. apply get_piece_at_valid.
    destruct w; simpl in Hf; elem_cases Hf; subst; valid_tac. }
  unfold moved_board, board_after_specials, arriving_piece.
  destruct w; cbn [wing_dest wing_corner] in *; simpl.
  - pose proof (Hnone 5 ltac:(in_list)) as H5.
    pose proof (Hnone 6 ltac:(in_list)) as H6.
    repeat (rewrite (grid_grid_set _ _ _ _ r0 6)
              by (solve [wf_tac|valid_tac]);
            rewrite ?bool_decide_eq_false_2 by (intros [=]; lia)).
    rewrite H6, Hrook. simpl.
    set (rook' := mkPiece (piece_type rook) (color rook) (r0, 5)).
    set (king' := mkPiece (piece_type king) (color king) (r0, 6)).
    set (b' := grid_set _ r0 6 (Some king')).
    assert (Hoff : same_off_rank b' b r0).
    { intros r f Hrf Hne. subst b'. grid_cases. }
    assert (G6 : grid b' r0 6 = Some king') by (subst b'; grid_simpl; done).
    assert (G5 : grid b' r0 5 = Some rook') by (subst b'; grid_simpl; done).
    assert (G7 : grid b' r0 7 = None) by (subst b'; grid_simpl; done).
    assert (Hfind : find_king b' (side_to_move gs) = Some (r0, 6)).
    { apply find_king_unique; simpl.
      - valid_tac.
      - rewrite G6. simpl. rewrite Ht, Hc.
        by rewrite !bool_decide_eq_true_2.
      - intros r f Hrf. subst b'. grid_cases; intros Hk;
          first [simpl in Hk; rewrite Hrt in Hk; simpl in Hk;
                 rewrite andb_false_r in Hk; discriminate Hk
                |specialize (Honly _ _ Hrf Hk); congruence]. }
    unfold king_safe. rewrite Hfind. apply negb_true_iff.
    apply (attacked_after_rank_change b' b); try done.
    + change (6 - 1) with 5. by apply (stands_own _ _ _ rook').
    + change (6 + 1) with 7. by apply stands_none.
    + change (6 - 1) with 5.
      rewrite (ray_attack_blocked _ _ _ _ _ _ _ rook') by (done || valid_tac).
      by apply slider_hits_own.
    + change (6 + 1) with 7.
      rewrite ray_attack_empty by (done || valid_tac).
      apply ray_attack_invalid. valid_tac.
  - pose proof (Hnone 1 ltac:(in_list)) as H1.
    pose proof (Hnone 2 ltac:(in_list)) as H2.
    pose proof (Hnone 3 ltac:(in_list)) as H3.
    repeat (rewrite (grid_grid_set _ _ _ _ r0 2)
              by (solve [wf_tac|valid_tac]);
            rewrite ?bool_decide_eq_false_2 by (intros [=]; lia)).
    rewrite H2, Hrook. simpl.
    set (rook' := mkPiece (piece_type rook) (color rook) (r0, 3)).
    set (king' := mkPiece (piece_type king) (color king) (r0, 2)).
    set (b' := grid_set _ r0 2 (Some king')).
    assert (Hoff : same_off_rank b' b r0).
    { intros r f Hrf Hne. subst b'. grid_cases. }
    assert (G2 : grid b' r0 2 = Some king') by (subst b'; grid_simpl; done).
    assert (G3 : grid b' r0 3 = Some rook') by (subst b'; grid_simpl; done).
    assert (G1 : grid b' r0 1 = None) by (subst b'; grid_simpl; done).
    assert (G0 : grid b' r0 0 = None) by (subst b'; grid_simpl; done).
    assert (Hfind : find_king b' (side_to_move gs) = Some (r0, 2)).
    { apply find_king_unique; simpl.
      - valid_tac.
      - rewrite G2. simpl. rewrite Ht, Hc.
        by rewrite !bool_decide_eq_true_2.
      - intros r f Hrf. subst b'. grid_cases; intros Hk;
          first [simpl in Hk; rewrite Hrt in Hk; simpl in Hk;
                 rewrite andb_false_r in Hk; discriminate Hk
                |specialize (Honly _ _ Hrf Hk); congruence]. }
    unfold king_safe. rewrite Hfind. apply negb_true_iff.
    apply (attacked_after_rank_change b' b); try done.
    + change (2 - 1) with 1. by apply stands_none.
    + change (2 + 1) with 3. by apply (stands_own _ _ _ rook').
    + change (2 - 1) with 1.
      rewrite ray_attack_empty by (done || valid_tac).
      change (1 + -1) with 0. replace (r0 + 0) with r0 by lia.
      rewrite ray_attack_empty by (done || valid_tac).
      apply ray_attack_invalid. valid_tac.
    + change (2 + 1) with 3.
      rewrite (ray_attack_blocked _ _ _ _ _ _ _ rook') by (done || valid_tac).
      by apply slider_hits_own.
Qed.

(** C6: on a well-formed position where the side to move has a single
    king, standing on the e-file, and, if it holds the right of a wing,
    its own rook on that wing's corner of the king's rank, the castling
    move of that wing is legal exactly when the right is held, the squares
    between king and rook are empty, and [square_attacked_by] reports none
    of the king's origin, transit and destination squares as attacked by
    the opponent. *)
Theorem C6_castling_gating
    (b : Board) (gs : GameState) (r0 : Z) (king : Piece) (w : Wing) :
  wf_board b -> wf_state gs ->
  is_valid_square r0 4 = true ->
  grid b r0 4 = Some king -> piece_type king = KING ->
  color king = side_to_move gs ->
  (forall r f, is_valid_square r f = true ->
               is_king_of (side_to_move gs) (grid b r f) = true ->
               (r, f) = (r0, 4)) ->
  (has_right (wing_right (side_to_move gs) w) gs = true ->
   exists rook, grid b r0 (wing_corner w) = Some rook
                /\ piece_type rook = ROOK
                /\ color rook = side_to_move gs) ->
  exists legal,
    get_legal_moves b gs None = Ok legal
    /\ (castle_move (r0, 4) (r0, wing_dest w) ∈ legal
        <-> has_right (wing_right (side_to_move gs) w) gs = true
            /\ (forall f, f ∈ wing_empties w -> get_piece_at b r0 f = None)
            /\ square_attacked_by b (r0, 4)
                 (other_side (side_to_move gs)) None = false
            /\ square_attacked_by b (r0, wing_transit w)
                 (other_side (side_to_move gs)) None = false
            /\ square_attacked_by b (r0, wing_dest w)
                 (other_side (side_to_move gs)) None = false).
Proof.
  intros Hb Hgs Hv Hg Ht Hc Honly Hcorner.
  destruct (get_legal_moves_returns b gs None Hb Hgs) as [legal Hl].
  exists legal. split; [done|].
  change (castle_move (r0, 4) (r0, wing_dest w) ∈ legal
          <-> castle_conditions b gs (side_to_move gs) r0 4 w).
  rewrite (filter_legal_elem _ _ _ _ _ Hl). split.
  - intros [Hp _]. by apply castle_pseudo_inv.
  - intros Hcond. split; [by apply (castle_in_pseudo b gs r0 king)|].
    rewrite deep_copy_wf by done.
    destruct (Hcorner (proj1 Hcond)) as (rook & Hrook & Hrt & Hrc).
    rewrite (apply_move_ok b gs _ king); [|done|destruct w; valid_tac|done].
    eexists. split; [reflexivity|]. simpl.
    by apply (castled_king_safe b gs r0 king w rook).
Qed.

(** The theorem at White's king-side castling with king and rook at home. *)
Lemma C6_castling_gating_witness :
  exists legal,
    wf_board (load_fen "4k3/8/8/8/8/8/8/R3K2R w KQ - 0 1"%string).1
    /\ get_legal_moves
         (load_fen "4k3/8/8/8/8/8/8/R3K2R w KQ - 0 1"%string).1
         (load_fen "4k3/8/8/8/8/8/8/R3K2R w KQ - 0 1"%string).2 None
       = Ok legal
    /\ (castle_move (0, 4) (0, 6) ∈ legal
        <-> has_right "K"
              (load_fen "4k3/8/8/8/8/8/8/R3K2R w KQ - 0 1"%string).2 = true
            /\ (forall f, f ∈ [5; 6] ->
                  get_piece_at
                    (load_fen "4k3/8/8/8/8/8/8/R3K2R w KQ - 0 1"%string).1
                    0 f = None)
            /\ square_attacked_by
                 (load_fen "4k3/8/8/8/8/8/8/R3K2R w KQ - 0 1"%string).1
                 (0, 4) BLACK None = false
            /\ square_attacked_by
                 (load_fen "4k3/8/8/8/8/8/8/R3K2R w KQ - 0 1"%string).1
                 (0, 5) BLACK None = false
            /\ square_attacked_by
                 (load_fen "4k3/8/8/8/8/8/8/R3K2R w KQ - 0 1"%string).1
                 (0, 6) BLACK None = false).
Proof.
  set (st := load_fen "4k3/8/8/8/8/8/8/R3K2R w KQ - 0 1"%string).
  assert (Hb : wf_board st.1)
    by (apply wf_boardb_ok; vm_compute; reflexivity).
  assert (Hs : wf_state st.2)
    by (apply wf_stateb_ok; vm_compute; reflexivity).
  assert (Honly : forall r f, is_valid_square r f = true ->
            is_king_of (side_to_move st.2) (grid st.1 r f) = true ->
            (r, f) = (0, 4)).
  { intros r f Hv Hk. apply valid_iff in Hv as [Hr Hf].
    destruct (range8_cases r Hr) as [->|[->|[->|[->|[->|[->|[->| ->]]]]]]];
      destruct (range8_cases f Hf) as [->|[->|[->|[->|[->|[->|[->| ->]]]]]]];
      vm_compute in Hk; first [reflexivity|discriminate Hk]. }
  assert (Hrook : has_right (wing_right (side_to_move st.2) Kingside) st.2
                  = true ->
            exists rook, grid st.1 0 (wing_corner Kingside) = Some rook
                         /\ piece_type rook = ROOK
                         /\ color rook = side_to_move st.2).
  { intros _. exists (mkPiece ROOK WHITE (0, 7)). by vm_compute. }
  destruct (C6_castling_gating st.1 st.2 0 (mkPiece KING WHITE (0, 4))
              Kingside Hb Hs eq_refl eq_refl eq_refl eq_refl Honly Hrook)
    as (legal & Hl & Hiff).
  exists legal. split; [exact Hb|]. split; [exact Hl|]. exact Hiff.
Defined.

(** C6, as first stated, fails: with White's king on d1, a bishop on e1,
    a rook on h1 and the king-side right held, the castling move from
    (0,3) to (0,6) is legal although e1, between king and rook, is
    occupied. *)
Lemma C6_castling_claim_fails : ~ castling_claim.
Proof.
  intros H.
  set (st := load_fen "4k3/8/8/8/8/8/8/3KB2R w K - 0 1"%string).
  assert (Hb : wf_board st.1)
    by (apply wf_boardb_ok; vm_compute; reflexivity).
  assert (Hs : wf_state st.2)
    by (apply wf_stateb_ok; vm_compute; reflexivity).
  let l := eval vm_compute in (get_legal_moves st.1 st.2 None) in
  match l with
  | Ok ?legal =>
      assert (Hl : get_legal_moves st.1 st.2 None = Ok legal) by by_eval;
      assert (Hin : castle_move (0, 3) (0, wing_dest Kingside) ∈ legal)
        by in_list
  end.
  specialize (H st.1 st.2 _ 0 3 (mkPiece KING WHITE (0, 3)) Kingside
                Hb Hs Hl eq_refl eq_refl eq_refl eq_refl).
  apply H in Hin as (_ & Hempty & _).
  specialize (Hempty 4 ltac:(simpl; lia)).
  vm_compute in Hempty. discriminate Hempty.
Qed.

(** ** The fuel of the ray walks *)

Lemma ray_leaves_board dr df r f :
  dr <> 0 \/ df <> 0 ->
  exists j, 0 <= j <= 8 /\ is_valid_square (r + j * dr) (f + j * df) = false.
Proof.
  intros Hd. destruct (is_valid_square r f) eqn:Ev.
  - exists 8. split; [lia|]. apply valid_iff in Ev. apply invalid_iff. lia.
  - exists 0. split; [lia|].
    replace (r + 0 * dr) with r by lia. by replace (f + 0 * df) with f by lia.
Qed.

Lemma ray_attack_more_fuel n m b c e dr df r f :
  (exists j, 0 <= j <= Z.of_nat n
             /\ is_valid_square (r + j * dr) (f + j * df) = false) ->
  (n <= m)%nat ->
  ray_attack m b c e dr df r f = ray_attack n b c e dr df r f.
Proof.
  revert m r f. induction n as [|n IH]; intros m r f (j & Hj & Hinv) Hle.
  - assert (j = 0) as -> by lia.
    replace (r + 0 * dr) with r in Hinv by lia.
    replace (f + 0 * df) with f in Hinv by lia.
    by rewrite !ray_attack_invalid.
  - destruct m as [|m]; [lia|]. simpl.
    destruct (is_valid_square r f) eqn:Ev; [|done].
    assert (Hnext : ray_attack m b c e dr df (r + dr) (f + df)
                    = ray_attack n b c e dr df (r + dr) (f + df)).
    { apply IH; [|lia]. exists (j - 1).
      assert (j <> 0).
      { intros ->. replace (r + 0 * dr) with r in Hinv by lia.
        replace (f + 0 * df) with f in Hinv by lia. congruence. }
      split; [lia|].
      replace (r + dr + (j - 1) * dr) with (r + j * dr) by lia.
      by replace (f + df + (j - 1) * df) with (f + j * df) by lia. }
    by rewrite Hnext.
Qed.

(** Eight iterations exhaust every ray: more fuel changes nothing. *)
Lemma ray_attack_fuel k b c e dr df r f :
  dr <> 0 \/ df <> 0 ->
  ray_attack (8 + k) b c e dr df r f = ray_attack 8 b c e dr df r f.
Proof.
  intros Hd. apply ray_attack_more_fuel; [|lia].
  destruct (ray_leaves_board dr df r f Hd) as (j & Hj & Hinv).
  exists j. split; [lia|done].
Qed.

Lemma ray_moves_invalid n b piece dr df r f :
  is_valid_square r f = false -> ray_moves n b piece dr df r f = [].
Proof. intros H. destruct n; simpl; [done|]. by rewrite H. Qed.

Lemma ray_moves_more_fuel n m b piece dr df r f :
  (exists j, 0 <= j <= Z.of_nat n
             /\ is_valid_square (r + j * dr) (f + j * df) = false) ->
  (n <= m)%nat ->
  ray_moves m b piece dr df r f = ray_moves n b piece dr df r f.
Proof.
  revert m r f. induction n as [|n IH]; intros m r f (j & Hj & Hinv) Hle.
  - assert (j = 0) as -> by lia.
    replace (r + 0 * dr) with r in Hinv by lia.
    replace (f + 0 * df) with f in Hinv by lia.
    by rewrite !ray_moves_invalid.
  - destruct m as [|m]; [lia|]. simpl.
    destruct (is_valid_square r f) eqn:Ev; [|done].
    assert (Hnext : ray_moves m b piece dr df (r + dr) (f + df)
                    = ray_moves n b piece dr df (r + dr) (f + df)).
    { apply IH; [|lia]. exists (j - 1).
      assert (j <> 0).
      { intros ->. replace (r + 0 * dr) with r in Hinv by lia.
        replace (f + 0 * df) with f in Hinv by lia. congruence. }
      split; [lia|].
      replace (r + dr + (j - 1) * dr) with (r + j * dr) by lia.
      by replace (f + df + (j - 1) * df) with (f + j * df) by lia. }
    by rewrite Hnext.
Qed.

Lemma ray_moves_fuel k b piece dr df r f :
  dr <> 0 \/ df <> 0 ->
  ray_moves (8 + k) b piece dr df r f = ray_moves 8 b piece dr df r f.
Proof.
  intros Hd. apply ray_moves_more_fuel; [|lia].
  destruct (ray_leaves_board dr df r f Hd) as (j & Hj & Hinv).
  exists j. split; [lia|done].
Qed.

(** ** FEN fields that are handled as specified *)

(** Fewer than four fields are rejected with [ValueError], whatever the
    board. *)
Lemma from_fen_few_fields fen b :
  (length (py_split fen) < 4)%nat -> from_fen fen b = Raise ValueError.
Proof.
  unfold from_fen. intros H.
  destruct (py_split fen) as [|p [|s [|c [|e rest]]]]; simpl in H; try done.
  lia.
Qed.

(** A placement without exactly eight rank tokens is rejected with
    [ValueError]. *)
Lemma from_fen_rank_count p s c e rest fen b :
  py_split fen = p :: s :: c :: e :: rest ->
  length (py_split_on "/" p) <> 8%nat ->
  from_fen fen b = Raise ValueError.
Proof.
  unfold from_fen. intros -> H.
  apply Nat.eqb_neq in H. by rewrite H.
Qed.

(** Characters outside KQkq are dropped from the castling field, a bad
    side letter is rejected, and absent clocks default to 0 and 1. *)
Lemma from_fen_lenient_fields :
  (exists b gs,
      from_fen "8/8/8/8/8/8/8/8 W KxQ-z -"%string empty_board = Ok (b, gs)
      /\ side_to_move gs = WHITE
      /\ castling_rights gs = "KQ"%string
      /\ halfmove_clock gs = 0 /\ fullmove_number gs = 1)
  /\ from_fen "8/8/8/8/8/8/8/8 x - - 0 1"%string empty_board
     = Raise ValueError.
Proof.
  split; [|by_eval].
  give_position "8/8/8/8/8/8/8/8 W KxQ-z -"%string.
  repeat split; by_eval.
Qed.

(** * Further properties of the engine *)

(** ** Board access *)

Lemma wf_grid_empty_board : wf_grid empty_board.
Proof. split; [done|]. repeat constructor. Qed.

Lemma wf_board_empty_board : wf_board empty_board.
Proof. apply wf_boardb_ok. by vm_compute. Qed.

Lemma wf_refs_row g r :
  wf_refs g -> 0 <= r < 8 ->
  exists row, g !! Z.to_nat r = Some row /\ length row = 8%nat.
Proof.
  intros [Hl Hr] Hb.
  destruct (lookup_lt_is_Some_2 g (Z.to_nat r)) as [row Hrow]; [lia|].
  exists row. split; [done|].
  rewrite Forall_forall in Hr. apply Hr. eapply list_elem_of_lookup_2, Hrow.
Qed.

Lemma wf_refs_set g r f v : wf_refs g -> wf_refs (ref_set g r f v).
Proof.
  intros [Hl Hr]. unfold ref_set.
  destruct (g !! Z.to_nat r) as [row|] eqn:E; [|done].
  split; [by rewrite length_insert|].
  apply Forall_insert; [done|].
  rewrite length_insert. rewrite Forall_forall in Hr. apply Hr.
  eapply list_elem_of_lookup_2, E.
Qed.

Lemma ref_at_ref_set g r f v r' f' :
  wf_refs g ->
  is_valid_square r f = true -> is_valid_square r' f' = true ->
  ref_at (ref_set g r f v) r' f'
  = if bool_decide ((r, f) = (r', f')) then v else ref_at g r' f'.
Proof.
  intros Hwf Hv Hv'. apply valid_iff in Hv, Hv'.
  destruct (wf_refs_row g r Hwf) as (row & Hrow & Hlen); [lia|].
  unfold ref_at, ref_set. rewrite Hrow.
  destruct (decide (r = r')) as [->|Hr].
  - rewrite list_lookup_insert_eq by (destruct Hwf; lia).
    destruct (decide (f = f')) as [->|Hf].
    + rewrite bool_decide_eq_true_2 by done.
      rewrite list_lookup_insert_eq by lia. done.
    + rewrite bool_decide_eq_false_2 by congruence.
      rewrite list_lookup_insert_ne by lia. by rewrite Hrow.
  - rewrite bool_decide_eq_false_2 by congruence.
    rewrite list_lookup_insert_ne by lia. done.
Qed.

Lemma set_position_same objs id sq p :
  objs !! id = Some p ->
  set_position objs id sq !! id = Some (mkPiece (piece_type p) (color p) sq).
Proof. intros H. unfold set_position. by rewrite list_lookup_alter_eq, H. Qed.

Lemma set_position_other objs id sq id' :
  id' <> id -> set_position objs id sq !! id' = objs !! id'.
Proof. intros H. unfold set_position. by rewrite list_lookup_alter_ne. Qed.

Lemma wf_grid_view ob : wf_refs (_grid ob) -> wf_grid (view ob).
Proof.
  intros [Hl Hr]. unfold view. split; [by rewrite length_fmap|].
  apply Forall_fmap. eapply Forall_impl; [exact Hr|].
  intros row Hrow. simpl. by rewrite length_fmap.
Qed.

Lemma grid_view ob r f :
  grid (view ob) r f = deref (objects ob) (ref_at (_grid ob) r f).
Proof.
  unfold grid, view, ref_at. rewrite list_lookup_fmap.
  destruct (_grid ob !! Z.to_nat r) as [row|]; [|done]. simpl.
  rewrite list_lookup_fmap. by destruct (row !! Z.to_nat f).
Qed.

(** X1: on an 8x8 grid of references, writing a square that is on the
    board succeeds; the square then refers to the written object, whose
    recorded square is now that square; no other square refers to
    anything else than before and no other object changes.  As the
    object is changed in place, another square that refers to the same
    object now shows the new recorded square.  Off the board
    [set_piece_at], [clear_square] and [board[...]] raise [IndexError]
    while [get_piece_at] answers [None]. *)
Theorem X1_set_then_get (ob : ObjBoard) (r f : Z) (piece : option nat) :
  wf_refs (_grid ob) -> allocated ob piece ->
  (is_valid_square r f = true ->
   exists ob',
     obj_set_piece_at ob r f piece = Ok ob'
     /\ wf_refs (_grid ob')
     /\ obj_get_piece_at ob' r f = piece
     /\ (forall id p, piece = Some id -> objects ob !! id = Some p ->
           objects ob' !! id = Some (mkPiece (piece_type p) (color p) (r, f)))
     /\ (forall r' f', (r', f') <> (r, f) ->
           obj_get_piece_at ob' r' f' = obj_get_piece_at ob r' f')
     /\ (forall id', piece <> Some id' ->
           objects ob' !! id' = objects ob !! id')
     /\ (forall r' f' id p, piece = Some id ->
           obj_get_piece_at ob r' f' = Some id ->
           objects ob !! id = Some p ->
           obj_read ob' r' f'
           = Some (mkPiece (piece_type p) (color p) (r, f))))
  /\ (is_valid_square r f = false ->
      obj_set_piece_at ob r f piece = Raise IndexError
      /\ obj_clear_square ob r f = Raise IndexError
      /\ obj_getitem ob r f = Raise IndexError
      /\ obj_get_piece_at ob r f = None).
Proof.
  intros Hwf Hal. split; intros Hv.
  - unfold obj_set_piece_at. rewrite Hv. eexists. split; [done|].
    cbn [_grid objects].
    assert (Hget : forall r' f',
              obj_get_piece_at
                (mkObjBoard
                   (match piece with
                    | Some id => set_position (objects ob) id (r, f)
                    | None => objects ob
                    end) (ref_set (_grid ob) r f piece)) r' f'
              = if bool_decide ((r, f) = (r', f')) then piece
                else obj_get_piece_at ob r' f').
    { intros r' f'. unfold obj_get_piece_at. cbn [_grid].
      destruct (is_valid_square r' f') eqn:Hv'.
      - by rewrite ref_at_ref_set.
      - case_bool_decide as E; [|done]. injection E as <- <-. congruence. }
    assert (Hsame : forall id p, piece = Some id -> objects ob !! id = Some p ->
              match piece with
              | Some id => set_position (objects ob) id (r, f)
              | None => objects ob
              end !! id = Some (mkPiece (piece_type p) (color p) (r, f))).
    { intros id p -> Hp. by apply set_position_same. }
    split; [by apply wf_refs_set|].
    split; [by rewrite Hget, bool_decide_eq_true_2|].
    split; [done|].
    split.
    { intros r' f' Hne. rewrite Hget. by rewrite bool_decide_eq_false_2. }
    split.
    { intros id' Hne. destruct piece as [id|]; [|done].
      apply set_position_other. congruence. }
    intros r' f' id p Hp Hr Ho. unfold obj_read. rewrite Hget.
    cbn [objects]. subst piece. case_bool_decide.
    + cbn [deref]. by apply set_position_same.
    + rewrite Hr. cbn [deref]. by apply set_position_same.
  - unfold obj_clear_square, obj_set_piece_at, obj_getitem, obj_get_piece_at.
    by rewrite Hv.
Qed.

Lemma wf_refs_empty : wf_refs empty_refs.
Proof. split; [done|]. repeat constructor. Qed.

Lemma ref_at_empty r f : ref_at empty_refs r f = None.
Proof.
  unfold ref_at, empty_refs.
  destruct (replicate 8 (replicate 8 None) !! Z.to_nat r) as [row|] eqn:E;
    [|done].
  apply lookup_replicate in E as [-> _].
  destruct (replicate 8 None !! Z.to_nat f) as [c|] eqn:E2; [|done].
  by apply lookup_replicate in E2 as [-> _].
Qed.

Lemma allocated_first p g : allocated (mkObjBoard [p] g) (Some 0%nat).
Proof. intros id [= <-]. by exists p. Qed.

(** The theorem for a White queen written on d1 of the empty board. *)
Lemma X1_set_then_get_witness :
  exists ob',
    obj_set_piece_at (mkObjBoard [mkPiece QUEEN WHITE (5, 5)] empty_refs)
      0 3 (Some 0%nat) = Ok ob'
    /\ obj_get_piece_at ob' 0 3 = Some 0%nat
    /\ objects ob' !! 0%nat = Some (mkPiece QUEEN WHITE (0, 3)).
Proof.
  destruct (proj1 (X1_set_then_get
                     (mkObjBoard [mkPiece QUEEN WHITE (5, 5)] empty_refs)
                     0 3 (Some 0%nat) wf_refs_empty
                     (allocated_first _ _)) eq_refl)
    as (ob' & H1 & _ & H3 & H4 & _).
  exists ob'. split; [exact H1|]. split; [exact H3|].
  exact (H4 0%nat _ eq_refl eq_refl).
Defined.

(** X2: [set_piece_at] (and so [clear_square]) keeps the board well
    formed, every square referring to an object that records that
    square, when the written object stands on no other square; the board
    of records it then shows is the one [set_piece_at] of the record
    model gives. *)
Theorem X2_set_piece_at_keeps_wf
    (ob ob' : ObjBoard) (r f : Z) (piece : option nat) :
  obj_wf ob -> allocated ob piece -> not_elsewhere ob r f piece ->
  obj_set_piece_at ob r f piece = Ok ob' ->
  obj_wf ob'
  /\ set_piece_at (view ob) r f (deref (objects ob) piece) = Ok (view ob').
Proof.
  intros [Hwf Hpos] Hal Hne. unfold obj_set_piece_at, set_piece_at.
  destruct (is_valid_square r f) eqn:Hv; [|done]. intros [= <-].
  assert (Hobj : forall id', piece <> Some id' ->
            match piece with
            | Some id => set_position (objects ob) id (r, f)
            | None => objects ob
            end !! id' = objects ob !! id').
  { intros id' Hd. destruct piece as [id|]; [|done].
    apply set_position_other. congruence. }
  assert (Hother : forall r' f' id', is_valid_square r' f' = true ->
            (r, f) <> (r', f') -> ref_at (_grid ob) r' f' = Some id' ->
            piece <> Some id').
  { intros r' f' id' Hv' Hd Hr ->. by apply (Hne id' r' f'). }
  split.
  - split; [by apply wf_refs_set|]. cbn [_grid objects].
    intros r' f' id' Hv'. rewrite ref_at_ref_set by done.
    case_bool_decide as E.
    + injection E as <- <-. intros ->.
      destruct (Hal id' eq_refl) as [p Hp].
      exists (mkPiece (piece_type p) (color p) (r, f)).
      split; [by apply set_position_same|done].
    + intros Hr. destruct (Hpos r' f' id' Hv' Hr) as (p & Hp & Hpp).
      exists p. split; [|done]. rewrite Hobj; [done|]. by eapply Hother.
  - f_equal. apply board_ext.
    + apply wf_grid_set. by apply wf_grid_view.
    + apply wf_grid_view. by apply wf_refs_set.
    + intros r' f' Hv'.
      rewrite grid_grid_set by (done || by apply wf_grid_view).
      rewrite !grid_view. cbn [_grid objects].
      rewrite ref_at_ref_set by done.
      case_bool_decide as E.
      * destruct piece as [id|]; [|done]. cbn [deref placed].
        destruct (Hal id eq_refl) as [p Hp]. rewrite Hp. cbn [placed].
        symmetry. by apply set_position_same.
      * destruct (ref_at (_grid ob) r' f') as [id'|] eqn:Hr; [|done].
        cbn [deref]. symmetry. apply Hobj. by eapply Hother.
Qed.

Lemma obj_wf_empty p : obj_wf (mkObjBoard [p] empty_refs).
Proof.
  split; [exact wf_refs_empty|]. intros r f id _. cbn [_grid].
  by rewrite ref_at_empty.
Qed.

(** The theorem for a king object carrying a stale square. *)
Lemma X2_set_piece_at_keeps_wf_witness :
  exists ob',
    obj_set_piece_at (mkObjBoard [mkPiece KING BLACK (0, 0)] empty_refs)
      7 4 (Some 0%nat) = Ok ob'
    /\ obj_wf ob'
    /\ obj_read ob' 7 4 = Some (mkPiece KING BLACK (7, 4)).
Proof.
  eexists. split; [reflexivity|].
  split; [|reflexivity].
  refine (proj1 (X2_set_piece_at_keeps_wf
                   (mkObjBoard [mkPiece KING BLACK (0, 0)] empty_refs) _
                   7 4 (Some 0%nat) (obj_wf_empty _) (allocated_first _ _)
                   _ eq_refl)).
  intros id r' f' _ _ _. cbn [_grid]. by rewrite ref_at_empty.
Defined.

(** Without that condition the board does not stay well formed: an
    object written on a second square leaves the first square referring
    to an object that records the second. *)
Lemma set_piece_at_shared_object :
  exists ob1 ob2,
    obj_set_piece_at (mkObjBoard [mkPiece QUEEN WHITE (0, 0)] empty_refs)
      0 0 (Some 0%nat) = Ok ob1
    /\ obj_wf ob1
    /\ obj_set_piece_at ob1 1 1 (Some 0%nat) = Ok ob2
    /\ obj_read ob2 0 0 = Some (mkPiece QUEEN WHITE (1, 1))
    /\ ~ obj_wf ob2.
Proof.
  eexists _, _. split; [reflexivity|]. split.
  - split; [apply wf_refs_set, wf_refs_empty|]. cbn [_grid objects].
    intros r f id Hv.
    rewrite ref_at_ref_set by (done || apply wf_refs_empty).
    case_bool_decide as E; [|by rewrite ref_at_empty].
    injection E as <- <-. intros [= <-]. by eexists.
  - split; [reflexivity|]. split; [reflexivity|].
    intros [_ H]. destruct (H 0 0 0%nat eq_refl eq_refl) as (p & Hp & Hpos).
    injection Hp as <-. discriminate Hpos.
Qed.

(** X3: whatever the grid, [deep_copy] returns a well-formed board that
    carries, on every square, a piece of the same type and colour as the
    original (recording its own square), and copying a copy changes
    nothing. *)
Theorem X3_deep_copy_rebuilds (b : Board) :
  wf_board (deep_copy b)
  /\ (forall r f, is_valid_square r f = true ->
        grid (deep_copy b) r f
        = match grid b r f with
          | Some p => Some (mkPiece (piece_type p) (color p) (r, f))
          | None => None
          end)
  /\ deep_copy (deep_copy b) = deep_copy b.
Proof.
  assert (Hcell : forall r f, is_valid_square r f = true ->
            grid (deep_copy b) r f
            = match grid b r f with
              | Some p => Some (mkPiece (piece_type p) (color p) (r, f))
              | None => None
              end).
  { intros r f Hv. by rewrite grid_deep_copy, copy_cell_eq. }
  assert (Hwf : wf_board (deep_copy b)).
  { split; [apply wf_grid_deep_copy|].
    intros r f p Hv. rewrite Hcell by done.
    destruct (grid b r f); [|done]. by intros [= <-]. }
  split; [done|]. split; [done|]. by apply deep_copy_wf.
Qed.

(** X4: [find_king] answers a square of the board that holds a king of
    the colour asked for, and answers [None] exactly when no square holds
    one. *)
Theorem X4_find_king_sound_complete (b : Board) (c : Color) :
  (forall sq, find_king b c = Some sq ->
     is_valid_square sq.1 sq.2 = true
     /\ exists p, grid b sq.1 sq.2 = Some p
                  /\ piece_type p = KING /\ color p = c)
  /\ (find_king b c = None <->
      forall r f p, is_valid_square r f = true -> grid b r f = Some p ->
                    ~ (piece_type p = KING /\ color p = c)).
Proof.
  split.
  - intros [r f] H. unfold find_king in H.
    apply find_some in H as [Hin Hk].
    apply list_elem_of_In, elem_all_squares in Hin. simpl in *.
    split; [done|].
    destruct (grid b r f) as [p|]; [|done]. exists p. simpl in Hk.
    apply andb_true_iff in Hk as [H1 H2].
    apply bool_decide_eq_true in H1, H2. done.
  - rewrite find_king_none. unfold kingless. split.
    + intros H r f p Hv Hg [Ht Hc]. specialize (H r f Hv).
      rewrite Hg in H. simpl in H.
      by rewrite !bool_decide_eq_true_2 in H.
    + intros H r f Hv. destruct (grid b r f) as [p|] eqn:Hg; [|done].
      simpl. specialize (H r f p Hv Hg).
      destruct (bool_decide (color p = c)) eqn:E1; [|done].
      destruct (bool_decide (piece_type p = KING)) eqn:E2; [|done].
      apply bool_decide_eq_true in E1, E2. by destruct H.
Qed.

(** ** Piece and square names *)

(** X5: [piece_from_fen] accepts exactly the twelve piece letters: when it
    returns a piece, the piece stands on the given square and its FEN
    symbol is the character that was read, from which the same piece is
    built again. *)
Theorem X5_piece_symbol_round_trip (ch : ascii) (pos : Square) (p : Piece) :
  piece_from_fen ch pos = Ok p ->
  position p = pos
  /\ fen_symbol (piece_type p) (color p) = ch
  /\ piece_from_fen (fen_symbol (piece_type p) (color p)) pos = Ok p.
Proof.
  intros H.
  assert (H' : position p = pos
               /\ fen_symbol (piece_type p) (color p) = ch).
  { destruct ch as [[] [] [] [] [] [] [] []]; simpl in H;
      first [discriminate H|injection H as <-; by split]. }
  destruct H' as [H1 H2]. rewrite H2. done.
Qed.

(** The theorem for the letter of a Black knight. *)
Lemma X5_piece_symbol_round_trip_witness :
  piece_from_fen "n" (7, 1) = Ok (mkPiece KNIGHT BLACK (7, 1))
  /\ fen_symbol KNIGHT BLACK = "n"%char.
Proof.
  split; [reflexivity|].
  exact (proj1 (proj2 (X5_piece_symbol_round_trip
                         "n" (7, 1) (mkPiece KNIGHT BLACK (7, 1))
                         eq_refl))).
Defined.

(** X6: for every square of the board [coords_to_fen_square] returns a
    two-character name that [fen_square_to_coords] maps back to the same
    square. *)
Theorem X6_square_name_round_trip (rank file : Z) :
  is_valid_square rank file = true ->
  exists s,
    coords_to_fen_square rank file = Ok s
    /\ String.length s = 2%nat
    /\ fen_square_to_coords s = Ok (rank, file).
Proof.
  intros Hv. apply valid_iff in Hv as [Hr Hf].
  destruct (range8_cases rank Hr) as [->|[->|[->|[->|[->|[->|[->| ->]]]]]]];
    destruct (range8_cases file Hf) as [->|[->|[->|[->|[->|[->|[->| ->]]]]]]];
    eexists; (split; [by vm_compute|]); split; by vm_compute.
Qed.

(** The theorem for the square (2, 4). *)
Lemma X6_square_name_round_trip_witness :
  is_valid_square 2 4 = true
  /\ exists s, coords_to_fen_square 2 4 = Ok s
               /\ fen_square_to_coords s = Ok (2, 4).
Proof.
  split; [reflexivity|].
  destruct (X6_square_name_round_trip 2 4 eq_refl) as (s & H1 & _ & H3).
  exists s. split; [exact H1|exact H3].
Defined.

(** ** Applying a move *)

(** Whenever [apply_move] returns, both squares of the move are on the
    board, the origin is occupied, and the result is the closed form. *)
Lemma apply_move_inv b gs m res :
  apply_move b gs m = Ok res ->
  exists piece,
    is_valid_square (from_square m).1 (from_square m).2 = true
    /\ is_valid_square (to_square m).1 (to_square m).2 = true
    /\ grid b (from_square m).1 (from_square m).2 = Some piece
    /\ res = (moved_board b m piece,
              apply_state gs m piece (move_captured b m)
                          (move_captured_square m),
              move_undo b gs m).
Proof.
  intros H.
  destruct (is_valid_square (from_square m).1 (from_square m).2) eqn:H0.
  2:{ destruct m as [[r0 f0] [r1 f1] promo cas ep dbl]. simpl in *.
      unfold apply_move, board_getitem in H. simpl in H.
      by rewrite H0 in H. }
  destruct (grid b (from_square m).1 (from_square m).2) as [piece|] eqn:Hp.
  2:{ destruct m as [[r0 f0] [r1 f1] promo cas ep dbl]. simpl in *.
      unfold apply_move, board_getitem in H. simpl in H.
      by rewrite H0, Hp in H. }
  destruct (is_valid_square (to_square m).1 (to_square m).2) eqn:H1.
  { rewrite (apply_move_ok b gs m piece) in H by done.
    injection H as <-. by exists piece. }
  exfalso.
  destruct m as [[r0 f0] [r1 f1] promo cas ep dbl]. simpl in *.
  assert (H7 : is_valid_square r0 7 = true) by valid_tac.
  assert (H5 : is_valid_square r0 5 = true) by valid_tac.
  assert (H00 : is_valid_square r0 0 = true) by valid_tac.
  assert (H3 : is_valid_square r0 3 = true) by valid_tac.
  unfold apply_move, apply_en_passant, apply_castle_rook, apply_capture,
    apply_relocate, clear_square, set_piece_at, board_getitem in H.
  simpl in H. rewrite H0, Hp in H. simpl in H.
  destruct ep, cas, (f0 <? f1), (is_valid_square r0 f1); simpl in H;
    rewrite ?H7, ?H5, ?H00, ?H3, ?H1, ?H0 in H; simpl in H;
    rewrite ?H7, ?H5, ?H00, ?H3, ?H1, ?H0 in H; simpl in H;
    try discriminate H;
    destruct promo; simpl in H;
    rewrite ?promo_piece_from_fen in H; simpl in H;
    rewrite ?H1 in H; simpl in H; discriminate H.
Qed.

(** X7: [apply_move] returns exactly when both squares of the move are on
    the board and the origin square is occupied; with the origin on the
    board but empty it raises [ValueError], with the origin off the board
    [IndexError]. *)
Theorem X7_apply_move_returns_iff (b : Board) (gs : GameState) (m : Move) :
  ((exists res, apply_move b gs m = Ok res)
   <-> is_valid_square (from_square m).1 (from_square m).2 = true
       /\ is_valid_square (to_square m).1 (to_square m).2 = true
       /\ grid b (from_square m).1 (from_square m).2 <> None)
  /\ (is_valid_square (from_square m).1 (from_square m).2 = true ->
      grid b (from_square m).1 (from_square m).2 = None ->
      apply_move b gs m = Raise ValueError)
  /\ (is_valid_square (from_square m).1 (from_square m).2 = false ->
      apply_move b gs m = Raise IndexError).
Proof.
  split; [split|split].
  - intros [res H]. apply apply_move_inv in H as (p & H0 & H1 & Hp & _).
    by rewrite Hp.
  - intros (H0 & H1 & Hp).
    destruct (grid b (from_square m).1 (from_square m).2) as [p|] eqn:E;
      [|done].
    eexists. by apply apply_move_ok.
  - intros H0 Hp. destruct m as [[r0 f0] [r1 f1] promo cas ep dbl].
    simpl in *. unfold apply_move, board_getitem. simpl.
    by rewrite H0, Hp.
  - intros H0. destruct m as [[r0 f0] [r1 f1] promo cas ep dbl].
    simpl in *. unfold apply_move, board_getitem. simpl. by rewrite H0.
Qed.

Lemma wf_board_moved_board b m piece :
  wf_board b ->
  is_valid_square (from_square m).1 (from_square m).2 = true ->
  is_valid_square (to_square m).1 (to_square m).2 = true ->
  wf_board (moved_board b m piece).
Proof.
  destruct m as [[r0 f0] [r1 f1] promo cas ep dbl]. simpl.
  intros Hb H0 H1.
  assert (H01 : is_valid_square r0 f1 = true) by valid_tac.
  assert (H7 : is_valid_square r0 7 = true) by valid_tac.
  assert (H5 : is_valid_square r0 5 = true) by valid_tac.
  assert (H00 : is_valid_square r0 0 = true) by valid_tac.
  assert (H3 : is_valid_square r0 3 = true) by valid_tac.
  assert (Hplaced : forall r f v p, placed r f v = Some p -> position p = (r, f)).
  { intros r f [q|] p; simpl; [|done]. by intros [= <-]. }
  unfold moved_board, board_after_specials. simpl.
  set (b1 := if ep then grid_set b r0 f1 None else b).
  assert (Hb1 : wf_board b1).
  { subst b1. destruct ep; [|done]. by apply wf_board_grid_set. }
  set (b2 := if cas then _ else b1).
  assert (Hb2 : wf_board b2).
  { subst b2. destruct cas; [|done].
    destruct (f0 <? f1);
      (apply wf_board_grid_set; [by apply wf_board_grid_set|done|];
       apply Hplaced). }
  set (b3 := if ep then b2 else _).
  assert (Hb3 : wf_board b3).
  { subst b3. destruct ep; [done|].
    destruct (grid b2 r1 f1); [|done]. by apply wf_board_grid_set. }
  apply wf_board_grid_set; [by apply wf_board_grid_set|done|].
  intros p [= <-]. unfold arriving_piece. simpl. by destruct promo.
Qed.

(** X8: [apply_move] keeps the board well formed: after any move it
    accepts, other than a castle-flagged move that starts on the corner
    its rook is taken from, the grid is still 8x8 and every piece, the
    moved, promoted and castled ones included, records the square that
    holds it.  (In the excluded case the moved piece is also the rook:
    one object, left on two squares.) *)
Theorem X8_apply_move_keeps_wf
    (b : Board) (gs : GameState) (m : Move)
    (b' : Board) (gs' : GameState) (u : UndoInfo) :
  wf_board b -> castles_from_corner m = false ->
  apply_move b gs m = Ok (b', gs', u) -> wf_board b'.
Proof.
  intros Hb _ H. apply apply_move_inv in H as (p & H0 & H1 & Hp & Heq).
  injection Heq as -> _ _. by apply wf_board_moved_board.
Qed.

(** The theorem for White's king-side castling. *)
Lemma X8_apply_move_keeps_wf_witness :
  wf_board (load_fen "4k3/8/8/8/8/8/8/R3K2R w KQ - 0 1"%string).1
  /\ exists b' gs' u,
      apply_move (load_fen "4k3/8/8/8/8/8/8/R3K2R w KQ - 0 1"%string).1
                 (load_fen "4k3/8/8/8/8/8/8/R3K2R w KQ - 0 1"%string).2
                 (castle_move (0, 4) (0, 6)) = Ok (b', gs', u)
      /\ wf_board b'.
Proof.
  set (st := load_fen "4k3/8/8/8/8/8/8/R3K2R w KQ - 0 1"%string).
  assert (Hb : wf_board st.1)
    by (apply wf_boardb_ok; vm_compute; reflexivity).
  split; [exact Hb|].
  let r := eval vm_compute in (apply_move st.1 st.2 (castle_move (0, 4) (0, 6)))
  in match r with
     | Ok (?b', ?gs', ?u) =>
         exists b', gs', u;
         assert (Ha : apply_move st.1 st.2 (castle_move (0, 4) (0, 6))
                      = Ok (b', gs', u)) by by_eval
     end.
  split; [exact Ha|].
  exact (X8_apply_move_keeps_wf st.1 st.2 (castle_move (0, 4) (0, 6)) _ _ _
           Hb eq_refl Ha).
Defined.

(** ** Castling rights across a move *)

Lemma char_in_elem c l : char_in c l = true <-> c ∈ l.
Proof.
  unfold char_in. rewrite existsb_exists. split.
  - intros (x & Hin & Heq). apply Ascii.eqb_eq in Heq as ->.
    by apply list_elem_of_In.
  - intros H. exists c. split; [by apply list_elem_of_In|].
    apply Ascii.eqb_refl.
Qed.

Lemma remove_first_subset x l c : c ∈ remove_first x l -> c ∈ l.
Proof.
  induction l as [|a l IH]; simpl; [done|].
  destruct (Ascii.eqb x a).
  - intros H. by right.
  - intros [->|H]%elem_of_cons; [by left|right; auto].
Qed.

Lemma drop_right_subset x l c : c ∈ drop_right x l -> c ∈ l.
Proof.
  unfold drop_right. destruct (char_in x l); [|done].
  apply remove_first_subset.
Qed.

Lemma remove_first_gone x l : NoDup l -> x ∉ remove_first x l.
Proof.
  induction 1 as [|a l Ha Hl IH]; simpl; [by intros ?%elem_of_nil|].
  destruct (Ascii.eqb x a) eqn:E.
  - apply Ascii.eqb_eq in E as ->. done.
  - apply Ascii.eqb_neq in E. intros [->|H]%elem_of_cons; [done|auto].
Qed.

Lemma remove_first_NoDup x l : NoDup l -> NoDup (remove_first x l).
Proof.
  induction 1 as [|a l Ha Hl IH]; simpl; [constructor|].
  destruct (Ascii.eqb x a); [done|].
  constructor; [|done]. intros H. by apply remove_first_subset in H.
Qed.

Lemma drop_right_gone x l : NoDup l -> x ∉ drop_right x l.
Proof.
  intros Hl. unfold drop_right. destruct (char_in x l) eqn:E.
  - by apply remove_first_gone.
  - intros H. apply char_in_elem in H. congruence.
Qed.

Lemma drop_right_NoDup x l : NoDup l -> NoDup (drop_right x l).
Proof.
  intros Hl. unfold drop_right. destruct (char_in x l); [|done].
  by apply remove_first_NoDup.
Qed.

Lemma rights_after_king_subset piece l c :
  c ∈ rights_after_king piece l -> c ∈ l.
Proof.
  unfold rights_after_king.
  destruct (bool_decide (piece_type piece = KING)); [|done].
  destruct (color piece); intros H;
    by do 2 apply drop_right_subset in H.
Qed.

Lemma rights_after_rook_subset piece f0 l c :
  c ∈ rights_after_rook piece f0 l -> c ∈ l.
Proof.
  unfold rights_after_rook.
  destruct (bool_decide (piece_type piece = ROOK)); [|done].
  destruct (color piece), (f0 =? 7), (f0 =? 0); intros H;
    repeat apply drop_right_subset in H; done.
Qed.

Lemma rights_after_capture_subset cap csq l c :
  c ∈ rights_after_capture cap csq l -> c ∈ l.
Proof.
  unfold rights_after_capture. destruct cap as [cp|]; [|done].
  destruct (bool_decide (piece_type cp = ROOK)); [|done].
  destruct (color cp), (csq.2 =? 7), (csq.2 =? 0); intros H;
    repeat apply drop_right_subset in H; done.
Qed.

Lemma has_right_new_rights c piece f0 cap csq gs side ep h fm :
  has_right c (mkState side
                 (new_castling_rights piece f0 cap csq (castling_rights gs))
                 ep h fm) = true ->
  has_right c gs = true.
Proof.
  unfold has_right, new_castling_rights. simpl.
  rewrite list_ascii_of_string_of_list_ascii, !char_in_elem.
  intros H. apply rights_after_capture_subset in H.
  apply rights_after_rook_subset in H.
  by apply rights_after_king_subset in H.
Qed.

(** X9: a move never grants a castling right: every right held after
    [apply_move] was held before it. *)
Theorem X9_castling_rights_never_grow
    (b : Board) (gs : GameState) (m : Move)
    (b' : Board) (gs' : GameState) (u : UndoInfo) (c : ascii) :
  apply_move b gs m = Ok (b', gs', u) ->
  has_right c gs' = true -> has_right c gs = true.
Proof.
  intros H. apply apply_move_inv in H as (p & _ & _ & _ & Heq).
  injection Heq as _ -> _.
  destruct m as [[r0 f0] [r1 f1] promo cas ep dbl].
  unfold apply_state. simpl. apply has_right_new_rights.
Qed.

(** The theorem for the rook leaving h1 with both rights held. *)
Lemma X9_castling_rights_never_grow_witness :
  exists b' gs' u,
    apply_move (load_fen "4k3/8/8/8/8/8/8/R3K2R w KQ - 0 1"%string).1
               (load_fen "4k3/8/8/8/8/8/8/R3K2R w KQ - 0 1"%string).2
               (plain_move (0, 7) (0, 6)) = Ok (b', gs', u)
    /\ has_right "Q" gs' = true
    /\ has_right "Q"
         (load_fen "4k3/8/8/8/8/8/8/R3K2R w KQ - 0 1"%string).2 = true.
Proof.
  set (st := load_fen "4k3/8/8/8/8/8/8/R3K2R w KQ - 0 1"%string).
  let r := eval vm_compute in (apply_move st.1 st.2 (plain_move (0, 7) (0, 6)))
  in match r with
     | Ok (?b', ?gs', ?u) =>
         exists b', gs', u;
         assert (Ha : apply_move st.1 st.2 (plain_move (0, 7) (0, 6))
                      = Ok (b', gs', u)) by by_eval;
         assert (Hq : has_right "Q" gs' = true) by by_eval
     end.
  split; [exact Ha|]. split; [exact Hq|].
  exact (X9_castling_rights_never_grow _ _ _ _ _ _ _ Ha Hq).
Defined.

(** X10: when the castling field holds no letter twice, a move of the
    king removes both rights of its colour. *)
Theorem X10_king_move_drops_both_rights
    (b : Board) (gs : GameState) (m : Move) (king : Piece)
    (b' : Board) (gs' : GameState) (u : UndoInfo) (w : Wing) :
  NoDup (list_ascii_of_string (castling_rights gs)) ->
  grid b (from_square m).1 (from_square m).2 = Some king ->
  piece_type king = KING ->
  apply_move b gs m = Ok (b', gs', u) ->
  has_right (wing_right (color king) w) gs' = false.
Proof.
  intros Hnd Hg Ht H. apply apply_move_inv in H as (p & _ & _ & Hp & Heq).
  assert (p = king) as -> by congruence.
  injection Heq as _ -> _.
  destruct m as [[r0 f0] [r1 f1] promo cas ep dbl].
  unfold apply_state, has_right, new_castling_rights. simpl.
  rewrite list_ascii_of_string_of_list_ascii.
  apply not_true_is_false. rewrite char_in_elem. intros Hin.
  apply rights_after_capture_subset, rights_after_rook_subset in Hin.
  unfold rights_after_king in Hin.
  rewrite bool_decide_eq_true_2 in Hin by done.
  set (l := list_ascii_of_string (castling_rights gs)) in *.
  destruct (color king), w; simpl in Hin.
  - apply drop_right_subset in Hin. by apply drop_right_gone in Hin.
  - apply drop_right_gone in Hin; [done|by apply drop_right_NoDup].
  - apply drop_right_subset in Hin. by apply drop_right_gone in Hin.
  - apply drop_right_gone in Hin; [done|by apply drop_right_NoDup].
Qed.

(** The theorem for the White king stepping from e1 to e2. *)
Lemma X10_king_move_drops_both_rights_witness :
  exists b' gs' u,
    NoDup (list_ascii_of_string
             (castling_rights
                (load_fen "4k3/8/8/8/8/8/8/R3K2R w KQ - 0 1"%string).2))
    /\ apply_move (load_fen "4k3/8/8/8/8/8/8/R3K2R w KQ - 0 1"%string).1
                  (load_fen "4k3/8/8/8/8/8/8/R3K2R w KQ - 0 1"%string).2
                  (plain_move (0, 4) (1, 4)) = Ok (b', gs', u)
    /\ has_right "K" gs' = false /\ has_right "Q" gs' = false.
Proof.
  set (st := load_fen "4k3/8/8/8/8/8/8/R3K2R w KQ - 0 1"%string).
  assert (Hnd : NoDup (list_ascii_of_string (castling_rights st.2))).
  { replace (list_ascii_of_string (castling_rights st.2))
      with ["K"%char; "Q"%char] by by_eval.
    constructor; [|constructor; [|constructor]].
    - intros H. apply list_elem_of_singleton in H. discriminate H.
    - intros H. by apply elem_of_nil in H. }
  let r := eval vm_compute in (apply_move st.1 st.2 (plain_move (0, 4) (1, 4)))
  in match r with
     | Ok (?b', ?gs', ?u) =>
         exists b', gs', u;
         assert (Ha : apply_move st.1 st.2 (plain_move (0, 4) (1, 4))
                      = Ok (b', gs', u)) by by_eval
     end.
  assert (Hg : grid st.1 (from_square (plain_move (0, 4) (1, 4))).1
                 (from_square (plain_move (0, 4) (1, 4))).2
               = Some (mkPiece KING WHITE (0, 4))) by by_eval.
  split; [exact Hnd|]. split; [exact Ha|].
  split.
  - exact (X10_king_move_drops_both_rights st.1 st.2
             (plain_move (0, 4) (1, 4))
             (mkPiece KING WHITE (0, 4)) _ _ _ Kingside
             Hnd Hg eq_refl Ha).
  - exact (X10_king_move_drops_both_rights st.1 st.2
             (plain_move (0, 4) (1, 4))
             (mkPiece KING WHITE (0, 4)) _ _ _ Queenside
             Hnd Hg eq_refl Ha).
Defined.

(** X11: two moves applied one after the other give the turn back to the
    side that moved first and advance the full-move number by exactly
    one. *)
Theorem X11_two_plies
    (b : Board) (gs : GameState) (m1 m2 : Move)
    (b1 b2 : Board) (gs1 gs2 : GameState) (u1 u2 : UndoInfo) :
  apply_move b gs m1 = Ok (b1, gs1, u1) ->
  apply_move b1 gs1 m2 = Ok (b2, gs2, u2) ->
  side_to_move gs1 = other_side (side_to_move gs)
  /\ side_to_move gs2 = side_to_move gs
  /\ fullmove_number gs2 = fullmove_number gs + 1.
Proof.
  intros H1 H2.
  apply apply_move_inv in H1 as (p1 & _ & _ & _ & E1).
  apply apply_move_inv in H2 as (p2 & _ & _ & _ & E2).
  injection E1 as _ -> _. injection E2 as _ -> _.
  destruct m1 as [[? ?] [? ?] ? ? ? ?], m2 as [[? ?] [? ?] ? ? ? ?].
  unfold apply_state. simpl.
  destruct (side_to_move gs); simpl; repeat split; lia.
Qed.

(** The theorem for 1. e4 e5 from the starting position. *)
Lemma X11_two_plies_witness :
  exists b1 gs1 u1 b2 gs2 u2,
    apply_move (load_fen STARTING_FEN).1 (load_fen STARTING_FEN).2
               (double_push_move (1, 4) (3, 4)) = Ok (b1, gs1, u1)
    /\ apply_move b1 gs1 (double_push_move (6, 4) (4, 4)) = Ok (b2, gs2, u2)
    /\ side_to_move gs2 = WHITE /\ fullmove_number gs2 = 2.
Proof.
  set (st := load_fen STARTING_FEN).
  let r := eval vm_compute in
       (apply_move st.1 st.2 (double_push_move (1, 4) (3, 4))) in
  match r with
  | Ok (?b1, ?gs1, ?u1) =>
      let r2 := eval vm_compute in
           (apply_move b1 gs1 (double_push_move (6, 4) (4, 4))) in
      match r2 with
      | Ok (?b2, ?gs2, ?u2) =>
          exists b1, gs1, u1, b2, gs2, u2;
          assert (H1 : apply_move st.1 st.2 (double_push_move (1, 4) (3, 4))
                       = Ok (b1, gs1, u1)) by by_eval;
          assert (H2 : apply_move b1 gs1 (double_push_move (6, 4) (4, 4))
                       = Ok (b2, gs2, u2)) by by_eval
      end
  end.
  split; [exact H1|]. split; [exact H2|].
  destruct (X11_two_plies _ _ _ _ _ _ _ _ _ _ H1 H2) as (_ & Hs & Hf).
  split; [exact Hs|exact Hf].
Defined.

(** ** Legal moves *)

Lemma generated_distinct b gs piece m :
  is_valid_square (position piece).1 (position piece).2 = true ->
  grid b (position piece).1 (position piece).2 = Some piece ->
  generated b gs piece m -> from_square m <> to_square m.
Proof.
  intros Hv Hg. destruct (position piece) as [r0 f0] eqn:Epos. simpl in *.
  destruct 1 as [dst ? Hne| ? ? ? ?|dst p ? ? Hne|ep ? ? Hr ?|w ? Hc];
    rewrite ?Epos in *; simpl in *; try congruence.
  - destruct (direction_cases piece) as [[? ?]|[? ?]]; intros E;
      rewrite <- E in Hr; simpl in Hr; clear E; lia.
  - destruct Hc as (_ & He & _). intros [= E].
    assert (Hin : f0 ∈ wing_empties w).
    { rewrite E. destruct w; in_list. }
    specialize (He f0 Hin). rewrite get_piece_at_valid in He by done.
    congruence.
Qed.

(** X12: on a well-formed board, applying a legal move never leaves the
    mover's own king attacked: [apply_move] returns, the king is found on
    the new board, [square_attacked_by] reports its square as not
    attacked by the opponent, and [is_in_check] is false for the mover. *)
Theorem X12_legal_move_keeps_king_safe
    (b : Board) (gs : GameState) (from : option Square)
    (legal : list Move) (m : Move) :
  wf_board b ->
  get_legal_moves b gs from = Ok legal -> m ∈ legal ->
  exists b' gs' u king_pos,
    apply_move b gs m = Ok (b', gs', u)
    /\ find_king b' (side_to_move gs) = Some king_pos
    /\ square_attacked_by b' king_pos (other_side (side_to_move gs)) None
       = false
    /\ is_in_check b' gs' (Some (side_to_move gs)) = false.
Proof.
  intros Hb Hl Hm.
  apply (filter_legal_elem _ _ _ _ m Hl) in Hm as [_ (res & Ha & Hk)].
  rewrite deep_copy_wf in Ha by done.
  destruct res as [[b' gs'] u]. simpl in Hk.
  unfold king_safe in Hk.
  destruct (find_king b' (side_to_move gs)) as [kp|] eqn:Ef; [|done].
  apply negb_true_iff in Hk.
  exists b', gs', u, kp. repeat split; try done.
  unfold is_in_check. by rewrite Ef.
Qed.

(** The theorem for the king step e1-d1 facing a queen on the e-file. *)
Lemma X12_legal_move_keeps_king_safe_witness :
  exists legal b' gs' u,
    wf_board (load_fen "4k3/8/8/4q3/8/8/8/4K3 w - - 0 1"%string).1
    /\ get_legal_moves
         (load_fen "4k3/8/8/4q3/8/8/8/4K3 w - - 0 1"%string).1
         (load_fen "4k3/8/8/4q3/8/8/8/4K3 w - - 0 1"%string).2 None
       = Ok legal
    /\ plain_move (0, 4) (0, 3) ∈ legal
    /\ apply_move
         (load_fen "4k3/8/8/4q3/8/8/8/4K3 w - - 0 1"%string).1
         (load_fen "4k3/8/8/4q3/8/8/8/4K3 w - - 0 1"%string).2
         (plain_move (0, 4) (0, 3)) = Ok (b', gs', u)
    /\ is_in_check b' gs' (Some WHITE) = false.
Proof.
  set (st := load_fen "4k3/8/8/4q3/8/8/8/4K3 w - - 0 1"%string).
  assert (Hb : wf_board st.1)
    by (apply wf_boardb_ok; vm_compute; reflexivity).
  let l := eval vm_compute in (get_legal_moves st.1 st.2 None) in
  match l with
  | Ok ?legal =>
      assert (Hl : get_legal_moves st.1 st.2 None = Ok legal) by by_eval;
      assert (Hin : plain_move (0, 4) (0, 3) ∈ legal) by in_list;
      exists legal
  end.
  destruct (X12_legal_move_keeps_king_safe _ _ _ _ _ Hb Hl Hin)
    as (b' & gs' & u & kp & H1 & _ & _ & H4).
  exists b', gs', u.
  split; [exact Hb|]. split; [exact Hl|]. split; [exact Hin|].
  split; [exact H1|exact H4].
Defined.

(** X13: on a well-formed position every legal move starts on a square
    holding a piece of the side to move and ends on a different square of
    the board. *)
Theorem X13_legal_move_shape
    (b : Board) (gs : GameState) (from : option Square)
    (legal : list Move) (m : Move) :
  wf_board b -> wf_state gs ->
  get_legal_moves b gs from = Ok legal -> m ∈ legal ->
  is_valid_square (from_square m).1 (from_square m).2 = true
  /\ is_valid_square (to_square m).1 (to_square m).2 = true
  /\ from_square m <> to_square m
  /\ exists p, grid b (from_square m).1 (from_square m).2 = Some p
               /\ color p = side_to_move gs.
Proof.
  intros Hb Hgs Hl Hm.
  pose proof (legal_is_pseudo _ _ _ _ _ Hl Hm) as Hp.
  destruct (pseudo_inv b gs from m Hb Hp) as (p & Hv & Hg & Hc & Gen).
  pose proof (generated_from _ _ _ _ Gen) as Hfrom.
  pose proof (generated_to_valid _ _ _ _ Hgs Hv Gen) as Hto.
  pose proof (generated_distinct _ _ _ _ Hv Hg Gen) as Hne.
  rewrite Hfrom in *.
  split; [done|]. split; [done|]. split; [done|]. by exists p.
Qed.

(** The theorem for a knight move from the starting position. *)
Lemma X13_legal_move_shape_witness :
  exists legal,
    wf_board (load_fen STARTING_FEN).1 /\ wf_state (load_fen STARTING_FEN).2
    /\ get_legal_moves (load_fen STARTING_FEN).1 (load_fen STARTING_FEN).2
         None = Ok legal
    /\ plain_move (0, 6) (2, 5) ∈ legal
    /\ exists p, grid (load_fen STARTING_FEN).1 0 6 = Some p
                 /\ color p = WHITE.
Proof.
  set (st := load_fen STARTING_FEN).
  assert (Hb : wf_board st.1)
    by (apply wf_boardb_ok; vm_compute; reflexivity).
  assert (Hs : wf_state st.2)
    by (apply wf_stateb_ok; vm_compute; reflexivity).
  let l := eval vm_compute in (get_legal_moves st.1 st.2 None) in
  match l with
  | Ok ?legal =>
      assert (Hl : get_legal_moves st.1 st.2 None = Ok legal) by by_eval;
      assert (Hin : plain_move (0, 6) (2, 5) ∈ legal) by in_list;
      exists legal
  end.
  split; [exact Hb|]. split; [exact Hs|]. split; [exact Hl|].
  split; [exact Hin|].
  exact (proj2 (proj2 (proj2
           (X13_legal_move_shape _ _ _ _ _ Hb Hs Hl Hin)))).
Defined.

Lemma pseudo_scoped b gs sq m :
  wf_board b ->
  m ∈ pseudo_legal_moves b gs (Some sq)
  <-> m ∈ pseudo_legal_moves b gs None /\ from_square m = sq.
Proof.
  intros Hb. unfold pseudo_legal_moves. rewrite !elem_flat_map. split.
  - intros ([r f] & Hin & H). simpl in H.
    case_bool_decide as E; [|by apply elem_of_nil in H].
    injection E as ->.
    split.
    + exists (r, f). split; [done|]. by simpl.
    + apply elem_all_squares in Hin. rewrite get_piece_at_valid in H by done.
      destruct (grid b r f) as [p|] eqn:Eg; [|by apply elem_of_nil in H].
      case_bool_decide; [|by apply elem_of_nil in H].
      apply moves_for_piece_generated, generated_from in H.
      rewrite H. by apply Hb.
  - intros [([r f] & Hin & H) Hfrom]. simpl in H.
    exists (r, f). split; [done|]. simpl.
    pose proof Hin as Hv. apply elem_all_squares in Hv.
    rewrite get_piece_at_valid in * by done.
    destruct (grid b r f) as [p|] eqn:Eg; [|by apply elem_of_nil in H].
    case_bool_decide as Ec; [|by apply elem_of_nil in H].
    pose proof H as G. apply moves_for_piece_generated, generated_from in G.
    assert (sq = (r, f)) as ->.
    { rewrite <- Hfrom, G. by apply Hb. }
    case_bool_decide; [done|congruence].
Qed.

(** X14: on a well-formed board the legal moves asked for one square are
    exactly the legal moves of the whole position that start on that
    square. *)
Theorem X14_scoped_legal_moves
    (b : Board) (gs : GameState) (sq : Square)
    (all scoped : list Move) (m : Move) :
  wf_board b ->
  get_legal_moves b gs None = Ok all ->
  get_legal_moves b gs (Some sq) = Ok scoped ->
  m ∈ scoped <-> m ∈ all /\ from_square m = sq.
Proof.
  intros Hb Hall Hsc.
  rewrite (filter_legal_elem _ _ _ _ m Hall).
  rewrite (filter_legal_elem _ _ _ _ m Hsc).
  rewrite (pseudo_scoped b gs sq m Hb). tauto.
Qed.

(** The theorem for the e-pawn of the starting position. *)
Lemma X14_scoped_legal_moves_witness :
  exists all scoped,
    wf_board (load_fen STARTING_FEN).1
    /\ get_legal_moves (load_fen STARTING_FEN).1 (load_fen STARTING_FEN).2
         None = Ok all
    /\ get_legal_moves (load_fen STARTING_FEN).1 (load_fen STARTING_FEN).2
         (Some (1, 4)) = Ok scoped
    /\ (double_push_move (1, 4) (3, 4) ∈ scoped
        <-> double_push_move (1, 4) (3, 4) ∈ all
            /\ from_square (double_push_move (1, 4) (3, 4)) = (1, 4)).
Proof.
  set (st := load_fen STARTING_FEN).
  assert (Hb : wf_board st.1)
    by (apply wf_boardb_ok; vm_compute; reflexivity).
  let l := eval vm_compute in (get_legal_moves st.1 st.2 None) in
  let l2 := eval vm_compute in (get_legal_moves st.1 st.2 (Some (1, 4))) in
  match l with
  | Ok ?all =>
      match l2 with
      | Ok ?scoped =>
          assert (Hl : get_legal_moves st.1 st.2 None = Ok all) by by_eval;
          assert (Hs : get_legal_moves st.1 st.2 (Some (1, 4)) = Ok scoped)
            by by_eval;
          exists all, scoped
      end
  end.
  split; [exact Hb|]. split; [exact Hl|]. split; [exact Hs|].
  exact (X14_scoped_legal_moves _ _ _ _ _ _ Hb Hl Hs).
Defined.

Lemma pseudo_inv_piece b gs from m :
  m ∈ pseudo_legal_moves b gs from ->
  exists r f piece,
    is_valid_square r f = true
    /\ grid b r f = Some piece
    /\ color piece = side_to_move gs
    /\ m ∈ _pseudo_legal_moves_for_piece b gs piece.
Proof.
  unfold pseudo_legal_moves.
  intros ([r f] & Hsq & H)%elem_flat_map.
  apply elem_all_squares in Hsq. simpl in H.
  match type of H with
  | context [if ?c then _ else _] => destruct c
  end; [|by apply elem_of_nil in H].
  rewrite get_piece_at_valid in H by done.
  destruct (grid b r f) as [piece|] eqn:Eg; [|by apply elem_of_nil in H].
  case_bool_decide as Ec; [|by apply elem_of_nil in H].
  by exists r, f, piece.
Qed.

(** ** Where generated moves land *)

Lemma lands_free_empty b c m :
  get_piece_at b (to_square m).1 (to_square m).2 = None -> lands_free b c m.
Proof. intros H t Ht. congruence. Qed.

Lemma ray_moves_lands_free fuel b piece dr df r f m :
  m ∈ ray_moves fuel b piece dr df r f -> lands_free b (color piece) m.
Proof.
  revert r f. induction fuel as [|n IH]; intros r f; simpl.
  { by intros ?%elem_of_nil. }
  destruct (is_valid_square r f); [|by intros ?%elem_of_nil].
  destruct (get_piece_at b r f) as [t|] eqn:Eg.
  - case_bool_decide as Ec; [by intros ?%elem_of_nil|].
    intros ->%list_elem_of_singleton t' Ht'. simpl in Ht'. congruence.
  - intros [->|H]%elem_of_cons; [|by eapply IH].
    by apply lands_free_empty.
Qed.

Lemma moves_for_piece_lands_free b gs piece m :
  m ∈ _pseudo_legal_moves_for_piece b gs piece ->
  is_en_passant m = false ->
  lands_free b (color piece) m.
Proof.
  assert (Hslide : forall deltas,
            m ∈ _pseudo_legal_sliding_moves b piece deltas ->
            lands_free b (color piece) m).
  { intros deltas. unfold _pseudo_legal_sliding_moves.
    destruct (position piece) as [r0 f0].
    intros (d & _ & H)%elem_flat_map. by eapply ray_moves_lands_free. }
  assert (Hleap : forall deltas,
            m ∈ _pseudo_legal_knight_king_moves b piece deltas ->
            lands_free b (color piece) m).
  { intros deltas. unfold _pseudo_legal_knight_king_moves.
    destruct (position piece) as [r0 f0].
    intros (d & _ & H)%elem_flat_map. cbn [fst snd] in H.
    destruct (is_valid_square (r0 + d.1) (f0 + d.2));
      [|by apply elem_of_nil in H].
    destruct (get_piece_at b (r0 + d.1) (f0 + d.2)) as [t|] eqn:Eg.
    - case_bool_decide as Ec; [by apply elem_of_nil in H|].
      apply list_elem_of_singleton in H as ->.
      intros t' Ht'. simpl in Ht'. congruence.
    - apply list_elem_of_singleton in H as ->. by apply lands_free_empty. }
  unfold _pseudo_legal_moves_for_piece. intros H Hep.
  destruct (piece_type piece); eauto.
  - (* pawn *)
    unfold _pseudo_legal_pawn_moves in H.
    apply elem_of_app in H as [H|H]; [|apply elem_of_app in H as [H|H]].
    + unfold pawn_push_moves in H.
      destruct (position piece) as [r0 f0].
      destruct (is_valid_square (r0 + direction piece) f0
                && is_none (get_piece_at b (r0 + direction piece) f0)) eqn:E;
        [|by apply elem_of_nil in H].
      apply andb_true_iff in E as [_ En]. apply is_none_true in En.
      destruct (last_rank (r0 + direction piece)).
      * apply elem_promotions in H as (p & ->). by apply lands_free_empty.
      * apply elem_of_cons in H as [->|H]; [by apply lands_free_empty|].
        destruct (r0 =? start_rank piece); [|by apply elem_of_nil in H].
        destruct (is_none (get_piece_at b (r0 + 2 * direction piece) f0))
          eqn:E2; [|by apply elem_of_nil in H].
        apply list_elem_of_singleton in H as ->.
        apply lands_free_empty. by apply is_none_true.
    + unfold pawn_capture_moves in H.
      destruct (position piece) as [r0 f0].
      apply elem_flat_map in H as (df & _ & H).
      destruct (is_valid_square (r0 + direction piece) (f0 + df)
                && enemy_on b (r0 + direction piece) (f0 + df) piece) eqn:E;
        [|by apply elem_of_nil in H].
      apply andb_true_iff in E as [_ Een]. unfold enemy_on in Een.
      assert (Hland : forall mv,
                to_square mv = (r0 + direction piece, f0 + df) ->
                lands_free b (color piece) mv).
      { intros mv Hto t Ht. rewrite Hto in Ht. simpl in Ht.
        rewrite Ht in Een. apply negb_true_iff in Een.
        by apply bool_decide_eq_false in Een. }
      destruct (last_rank (r0 + direction piece)).
      * apply elem_promotions in H as (p & ->). by apply Hland.
      * apply list_elem_of_singleton in H as ->. by apply Hland.
    + unfold pawn_en_passant_moves in H.
      destruct (position piece) as [r0 f0].
      destruct (en_passant_target gs) as [[er ef]|];
        [|by apply elem_of_nil in H].
      match type of H with
      | context [if ?c then _ else _] => destruct c
      end; [|by apply elem_of_nil in H].
      apply list_elem_of_singleton in H as ->. discriminate Hep.
  - (* king *)
    apply elem_of_app in H as [H|H]; [eauto|].
    apply castling_elem in H as (w & -> & (_ & He & _)).
    apply lands_free_empty. simpl. apply He. destruct w; in_list.
Qed.

(** X15: no move of the generator other than an en-passant capture lands
    on a piece of the side to move: the destination of every such legal
    move is empty or holds a piece of the opponent. *)
Theorem X15_never_captures_own_piece
    (b : Board) (gs : GameState) (from : option Square)
    (legal : list Move) (m : Move) (t : Piece) :
  get_legal_moves b gs from = Ok legal -> m ∈ legal ->
  is_en_passant m = false ->
  get_piece_at b (to_square m).1 (to_square m).2 = Some t ->
  color t <> side_to_move gs.
Proof.
  intros Hl Hm Hep Ht.
  pose proof (legal_is_pseudo _ _ _ _ _ Hl Hm) as Hp.
  destruct (pseudo_inv_piece b gs from m Hp) as (r & f & p & _ & _ & Hc & Hin).
  rewrite <- Hc. by apply (moves_for_piece_lands_free b gs p m Hin Hep t).
Qed.

(** The theorem for a pawn capture. *)
Lemma X15_never_captures_own_piece_witness :
  exists legal,
    get_legal_moves
      (load_fen "4k3/8/8/3p4/4P3/8/8/4K3 w - - 0 1"%string).1
      (load_fen "4k3/8/8/3p4/4P3/8/8/4K3 w - - 0 1"%string).2 None
    = Ok legal
    /\ plain_move (3, 4) (4, 3) ∈ legal
    /\ get_piece_at
         (load_fen "4k3/8/8/3p4/4P3/8/8/4K3 w - - 0 1"%string).1 4 3
       = Some (mkPiece PAWN BLACK (4, 3))
    /\ color (mkPiece PAWN BLACK (4, 3))
       <> side_to_move
            (load_fen "4k3/8/8/3p4/4P3/8/8/4K3 w - - 0 1"%string).2.
Proof.
  set (st := load_fen "4k3/8/8/3p4/4P3/8/8/4K3 w - - 0 1"%string).
  let l := eval vm_compute in (get_legal_moves st.1 st.2 None) in
  match l with
  | Ok ?legal =>
      assert (Hl : get_legal_moves st.1 st.2 None = Ok legal) by by_eval;
      assert (Hin : plain_move (3, 4) (4, 3) ∈ legal) by in_list;
      exists legal
  end.
  assert (Ht : get_piece_at st.1 (to_square (plain_move (3, 4) (4, 3))).1
                 (to_square (plain_move (3, 4) (4, 3))).2
               = Some (mkPiece PAWN BLACK (4, 3))) by by_eval.
  split; [exact Hl|]. split; [exact Hin|]. split; [exact Ht|].
  exact (X15_never_captures_own_piece st.1 st.2 None _
           (plain_move (3, 4) (4, 3)) (mkPiece PAWN BLACK (4, 3))
           Hl Hin eq_refl Ht).
Defined.

(** ** Sliding pieces *)

Lemma ray_moves_path fuel b piece dr df r f m :
  m ∈ ray_moves fuel b piece dr df r f ->
  exists k, 0 <= k
    /\ m = plain_move (position piece) (r + k * dr, f + k * df)
    /\ is_valid_square (r + k * dr) (f + k * df) = true
    /\ forall j, 0 <= j < k ->
         get_piece_at b (r + j * dr) (f + j * df) = None.
Proof.
  revert r f. induction fuel as [|n IH]; intros r f; simpl.
  { by intros ?%elem_of_nil. }
  destruct (is_valid_square r f) eqn:Ev; [|by intros ?%elem_of_nil].
  assert (Hhere : exists k, 0 <= k
            /\ plain_move (position piece) (r, f)
               = plain_move (position piece) (r + k * dr, f + k * df)
            /\ is_valid_square (r + k * dr) (f + k * df) = true
            /\ forall j, 0 <= j < k ->
                 get_piece_at b (r + j * dr) (f + j * df) = None).
  { exists 0. replace (r + 0 * dr) with r by lia.
    replace (f + 0 * df) with f by lia. repeat split; try done. lia. }
  destruct (get_piece_at b r f) as [t|] eqn:Eg.
  - case_bool_decide; [by intros ?%elem_of_nil|].
    by intros ->%list_elem_of_singleton.
  - intros [->|H]%elem_of_cons; [done|].
    apply IH in H as (k & Hk & -> & Hv & Hpath).
    exists (k + 1). split; [lia|].
    replace (r + (k + 1) * dr) with (r + dr + k * dr) by lia.
    replace (f + (k + 1) * df) with (f + df + k * df) by lia.
    repeat split; try done.
    intros j Hj. destruct (decide (j = 0)) as [->|Hj0].
    + replace (r + 0 * dr) with r by lia.
      by replace (f + 0 * df) with f by lia.
    + replace (r + j * dr) with (r + dr + (j - 1) * dr) by lia.
      replace (f + j * df) with (f + df + (j - 1) * df) by lia.
      apply Hpath. lia.
Qed.

Lemma sliding_moves_path b piece deltas m :
  m ∈ _pseudo_legal_sliding_moves b piece deltas ->
  exists dr df k,
    (dr, df) ∈ deltas /\ 1 <= k
    /\ m = plain_move (position piece)
             ((position piece).1 + k * dr, (position piece).2 + k * df)
    /\ forall j, 1 <= j < k ->
         get_piece_at b ((position piece).1 + j * dr)
                        ((position piece).2 + j * df) = None.
Proof.
  unfold _pseudo_legal_sliding_moves.
  destruct (position piece) as [r0 f0] eqn:Epos.
  intros ([dr df] & Hin & H)%elem_flat_map. cbn [fst snd] in *.
  apply ray_moves_path in H as (k & Hk & -> & Hv & Hpath).
  exists dr, df, (k + 1). split; [done|]. split; [lia|]. rewrite Epos.
  replace (r0 + (k + 1) * dr) with (r0 + dr + k * dr) by lia.
  replace (f0 + (k + 1) * df) with (f0 + df + k * df) by lia.
  split; [done|]. intros j Hj.
  replace (r0 + j * dr) with (r0 + dr + (j - 1) * dr) by lia.
  replace (f0 + j * df) with (f0 + df + (j - 1) * df) by lia.
  apply Hpath. lia.
Qed.

(** X16: on a well-formed board a legal move of a rook, bishop or queen
    goes a whole number of steps along a rank or file (rook), a diagonal
    (bishop) or either (queen), and every square strictly between origin
    and destination is empty. *)
Theorem X16_sliders_do_not_jump
    (b : Board) (gs : GameState) (from : option Square)
    (legal : list Move) (m : Move) (p : Piece) :
  wf_board b ->
  get_legal_moves b gs from = Ok legal -> m ∈ legal ->
  grid b (from_square m).1 (from_square m).2 = Some p ->
  piece_type p = ROOK \/ piece_type p = BISHOP \/ piece_type p = QUEEN ->
  exists dr df k,
    slides_along (piece_type p) dr df /\ 1 <= k
    /\ to_square m
       = ((from_square m).1 + k * dr, (from_square m).2 + k * df)
    /\ forall j, 1 <= j < k ->
         get_piece_at b ((from_square m).1 + j * dr)
                        ((from_square m).2 + j * df) = None.
Proof.
  intros Hb Hl Hm Hg Ht.
  pose proof (legal_is_pseudo _ _ _ _ _ Hl Hm) as Hp.
  destruct (pseudo_inv_piece b gs from m Hp) as (r & f & q & Hv & Hq & _ & Hin).
  pose proof (moves_for_piece_generated _ _ _ _ Hin) as Gen.
  apply generated_from in Gen.
  assert (Hpos : position q = (r, f)) by (by apply Hb).
  rewrite Gen, Hpos in Hg. simpl in Hg.
  assert (q = p) as -> by congruence.
  unfold _pseudo_legal_moves_for_piece in Hin.
  assert (Hd : exists deltas,
             m ∈ _pseudo_legal_sliding_moves b p deltas
             /\ forall dr df, (dr, df) ∈ deltas ->
                  slides_along (piece_type p) dr df).
  { destruct Ht as [Ht|[Ht|Ht]]; rewrite Ht in *.
    - exists rook_deltas. split; [done|]. intros dr df Hd.
      unfold rook_deltas in Hd. elem_cases Hd;
        injection Hd as -> ->; unfold slides_along; lia.
    - exists bishop_deltas. split; [done|]. intros dr df Hd.
      unfold bishop_deltas in Hd. elem_cases Hd;
        injection Hd as -> ->; unfold slides_along; lia.
    - exists queen_deltas. split; [done|]. intros dr df Hd.
      unfold queen_deltas in Hd. elem_cases Hd;
        injection Hd as -> ->; unfold slides_along; lia. }
  destruct Hd as (deltas & Hsl & Hdel).
  apply sliding_moves_path in Hsl as (dr & df & k & Hd & Hk & -> & Hpath).
  exists dr, df, k. simpl. split; [by apply Hdel|]. by split.
Qed.

(** The theorem for the rook move a1-a4. *)
Lemma X16_sliders_do_not_jump_witness :
  exists legal,
    wf_board (load_fen "4k3/8/8/8/8/8/8/R3K3 w - - 0 1"%string).1
    /\ get_legal_moves
         (load_fen "4k3/8/8/8/8/8/8/R3K3 w - - 0 1"%string).1
         (load_fen "4k3/8/8/8/8/8/8/R3K3 w - - 0 1"%string).2 None
       = Ok legal
    /\ plain_move (0, 0) (3, 0) ∈ legal
    /\ exists dr df k,
        slides_along ROOK dr df /\ 1 <= k
        /\ (3, 0) = (0 + k * dr, 0 + k * df).
Proof.
  set (st := load_fen "4k3/8/8/8/8/8/8/R3K3 w - - 0 1"%string).
  assert (Hb : wf_board st.1)
    by (apply wf_boardb_ok; vm_compute; reflexivity).
  let l := eval vm_compute in (get_legal_moves st.1 st.2 None) in
  match l with
  | Ok ?legal =>
      assert (Hl : get_legal_moves st.1 st.2 None = Ok legal) by by_eval;
      assert (Hin : plain_move (0, 0) (3, 0) ∈ legal) by in_list;
      exists legal
  end.
  assert (Hg : grid st.1 (from_square (plain_move (0, 0) (3, 0))).1
                 (from_square (plain_move (0, 0) (3, 0))).2
               = Some (mkPiece ROOK WHITE (0, 0))) by by_eval.
  split; [exact Hb|]. split; [exact Hl|]. split; [exact Hin|].
  destruct (X16_sliders_do_not_jump st.1 st.2 None _
              (plain_move (0, 0) (3, 0)) (mkPiece ROOK WHITE (0, 0))
              Hb Hl Hin Hg (or_introl eq_refl))
    as (dr & df & k & H1 & H2 & H3 & _).
  exists dr, df, k. split; [exact H1|]. split; [exact H2|exact H3].
Defined.

(** ** The excluded square of an attack test *)

Lemma existsb_pointwise {A} (g h : A -> bool) (l : list A) :
  (forall x, g x = h x) -> existsb g l = existsb h l.
Proof. intros E. induction l as [|x l IH]; simpl; [done|]. by rewrite E, IH. Qed.






(** ** Reading a FEN *)

Lemma fen_written_set r f v b1 b2 b1' :
  fen_written r f b1 b2 ->
  set_piece_at b1 r f v = Ok b1' ->
  exists b2', set_piece_at b2 r f v = Ok b2' /\ fen_written r (f + 1) b1' b2'.
Proof.
  intros (Hw1 & Hw2 & H) Hs. unfold set_piece_at in *.
  destruct (is_valid_square r f) eqn:Hv; [|discriminate].
  injection Hs as <-. eexists. split; [done|].
  split; [by apply wf_grid_set|]. split; [by apply wf_grid_set|].
  intros r' f' Hv' Hlt. rewrite !grid_grid_set by done.
  case_bool_decide as E.
  - injection E as <- <-. split; [done|].
    intros p Hp. destruct v as [q|]; [|discriminate].
    simpl in Hp. by injection Hp as <-.
  - apply H; [done|]. destruct Hlt as [?|[-> Hf]]; [by left|right].
    split; [done|]. destruct (decide (f' = f)) as [->|]; [done|lia].
Qed.

Lemma clear_run_pair n r f b1 b2 b1' f1 :
  fen_written r f b1 b2 ->
  clear_run n b1 r f = Ok (b1', f1) ->
  exists b2', clear_run n b2 r f = Ok (b2', f1) /\ fen_written r f1 b1' b2'.
Proof.
  revert f b1 b2. induction n as [|n IH]; intros f b1 b2 Hw; simpl.
  - intros [= <- <-]. by exists b2.
  - destruct (set_piece_at b1 r f None) as [c1|] eqn:E1; [|discriminate].
    simpl. intros Hc.
    destruct (fen_written_set _ _ _ _ _ _ Hw E1) as (c2 & -> & Hw').
    simpl. by eapply IH.
Qed.

Lemma parse_rank_pair l r f b1 b2 b1' f1 :
  fen_written r f b1 b2 ->
  parse_rank l b1 r f = Ok (b1', f1) ->
  exists b2', parse_rank l b2 r f = Ok (b2', f1) /\ fen_written r f1 b1' b2'.
Proof.
  revert f b1 b2. induction l as [|c l IH]; intros f b1 b2 Hw; simpl.
  - intros [= <- <-]. by exists b2.
  - destruct (py_isdigit c).
    + destruct (py_int_char c) as [n|]; [|discriminate]. simpl.
      destruct (clear_run (Z.to_nat n) b1 r f) as [[c1 g1]|] eqn:E1;
        [|discriminate].
      simpl. intros Hp.
      destruct (clear_run_pair _ _ _ _ _ _ _ Hw E1) as (c2 & -> & Hw').
      simpl. by eapply IH.
    + destruct (piece_from_fen c (r, f)) as [piece|]; [|discriminate]. simpl.
      destruct (set_piece_at b1 r f (Some piece)) as [c1|] eqn:E1;
        [|discriminate].
      simpl. intros Hp.
      destruct (fen_written_set _ _ _ _ _ _ Hw E1) as (c2 & -> & Hw').
      simpl. by eapply IH.
Qed.

Lemma fen_written_next_rank r b1 b2 :
  fen_written r 8 b1 b2 -> fen_written (r - 1) 0 b1 b2.
Proof.
  intros (Hw1 & Hw2 & H). split; [done|]. split; [done|].
  intros r' f' Hv Hlt. apply H; [done|].
  apply valid_iff in Hv. lia.
Qed.

Lemma parse_placement_pair strs k b1 b2 b1' :
  fen_written (7 - k) 0 b1 b2 ->
  parse_placement strs k b1 = Ok b1' ->
  exists b2', parse_placement strs k b2 = Ok b2'
              /\ fen_written (7 - k - Z.of_nat (length strs)) 0 b1' b2'.
Proof.
  revert k b1 b2. induction strs as [|s strs IH]; intros k b1 b2 Hw;
    cbn [parse_placement length].
  - intros [= <-]. exists b2. split; [done|].
    change (Z.of_nat 0) with 0. by rewrite Z.sub_0_r.
  - destruct (parse_rank (list_ascii_of_string s) b1 (7 - k) 0)
      as [[c1 g1]|] eqn:E1; [|discriminate].
    simpl. destruct (g1 =? 8) eqn:E8; [|discriminate].
    apply Z.eqb_eq in E8 as ->. intros Hp.
    destruct (parse_rank_pair _ _ _ _ _ _ _ Hw E1) as (c2 & -> & Hw').
    simpl. apply fen_written_next_rank in Hw'.
    replace (7 - k - 1) with (7 - (k + 1)) in Hw' by lia.
    destruct (IH _ _ _ Hw' Hp) as (b2' & Hb2 & Hw'').
    exists b2'. split; [done|].
    rewrite Nat2Z.inj_succ.
    by replace (7 - k - Z.succ (Z.of_nat (length strs)))
      with (7 - (k + 1) - Z.of_nat (length strs)) by lia.
Qed.

Lemma fen_written_start b1 b2 :
  wf_grid b1 -> wf_grid b2 -> fen_written 7 0 b1 b2.
Proof.
  intros Hw1 Hw2. split; [done|]. split; [done|].
  intros r' f' Hv Hlt. apply valid_iff in Hv. lia.
Qed.

Lemma fen_written_all b1 b2 :
  fen_written (-1) 0 b1 b2 -> b1 = b2 /\ wf_board b1.
Proof.
  intros (Hw1 & Hw2 & H). split.
  - apply board_ext; [done..|]. intros r f Hv. apply H; [done|].
    apply valid_iff in Hv. lia.
  - split; [done|]. intros r f p Hv Hp.
    apply (H r f); [done| |done]. apply valid_iff in Hv. lia.
Qed.

Lemma fen_square_to_coords_valid s sq :
  fen_square_to_coords s = Ok sq -> is_valid_square sq.1 sq.2 = true.
Proof.
  unfold fen_square_to_coords.
  destruct (list_ascii_of_string s) as [|c0 [|c1 [|]]]; try discriminate.
  destruct (py_int_char c1) as [n|]; [|discriminate]. simpl.
  match goal with
  | |- context [if ?c then _ else _] => destruct c eqn:E
  end; [|discriminate].
  intros [= <-]. simpl. apply valid_iff. lia.
Qed.

Lemma from_fen_pair fen b1 b2 b gs :
  wf_grid b1 -> wf_grid b2 ->
  from_fen fen b1 = Ok (b, gs) ->
  from_fen fen b2 = Ok (b, gs) /\ wf_board b /\ wf_state gs.
Proof.
  intros Hw1 Hw2. unfold from_fen.
  destruct (py_split fen) as [|placement [|side_s [|castling_s [|ep_s clocks]]]];
    try discriminate.
  destruct (negb (length (py_split_on "/" placement) =? 8)%nat) eqn:El;
    [discriminate|].
  apply negb_false_iff, Nat.eqb_eq in El.
  destruct (parse_placement (py_split_on "/" placement) 0 b1) as [c1|] eqn:E1;
    [|discriminate].
  destruct (parse_placement_pair _ 0 b1 b2 c1 (fen_written_start _ _ Hw1 Hw2) E1)
    as (c2 & -> & Hw).
  rewrite El in Hw. apply fen_written_all in Hw as [<- Hwf].
  simpl bind at 1. intros H. split; [exact H|].
  revert H. simpl bind at 1.
  match goal with
  | |- context [bind ?m _] => destruct m as [side|]; [|discriminate]
  end.
  simpl bind at 1.
  destruct (String.eqb ep_s "-") eqn:Eep.
  - simpl bind at 1.
    destruct (match clocks with h :: _ => py_int h | [] => Ok 0 end);
      [|discriminate].
    simpl bind at 1.
    destruct (match clocks with _ :: f :: _ => py_int f | _ => Ok 1 end);
      [|discriminate].
    simpl. intros [= <- <-]. split; [done|]. intros sq. discriminate.
  - destruct (fen_square_to_coords ep_s) as [sq|] eqn:Esq; [|discriminate].
    simpl bind at 1.
    destruct (match clocks with h :: _ => py_int h | [] => Ok 0 end);
      [|discriminate].
    simpl bind at 1.
    destruct (match clocks with _ :: f :: _ => py_int f | _ => Ok 1 end);
      [|discriminate].
    simpl. intros [= <- <-]. split; [done|].
    intros sq' [= <-]. by eapply fen_square_to_coords_valid.
Qed.

(** X18: a FEN that [from_fen] accepts overwrites all 64 squares: read
    into any two 8x8 boards it gives the same position, whatever they held
    before, and that position is well formed (every piece records the
    square it stands on; the en-passant target, if any, is on the board). *)
Theorem X18_from_fen_overwrites
    (fen : string) (b1 b2 b : Board) (gs : GameState) :
  wf_grid b1 -> wf_grid b2 ->
  from_fen fen b1 = Ok (b, gs) ->
  from_fen fen b2 = Ok (b, gs) /\ wf_board b /\ wf_state gs.
Proof. apply from_fen_pair. Qed.

(** The theorem for the starting position read into a board that held a
    bare-kings ending. *)
Lemma X18_from_fen_overwrites_witness :
  from_fen STARTING_FEN
    (load_fen "4k3/8/8/8/8/8/8/4K3 w - - 0 1"%string).1
  = Ok ((load_fen STARTING_FEN).1, (load_fen STARTING_FEN).2)
  /\ wf_board (load_fen STARTING_FEN).1
  /\ wf_state (load_fen STARTING_FEN).2.
Proof.
  apply (X18_from_fen_overwrites STARTING_FEN empty_board
           (load_fen "4k3/8/8/8/8/8/8/4K3 w - - 0 1"%string).1).
  - apply wf_boardb_ok. vm_compute. reflexivity.
  - apply wf_boardb_ok. vm_compute. reflexivity.
  - vm_compute. reflexivity.
Defined.

(** ** Writing a FEN and reading it back *)

Lemma list_ascii_app s1 s2 :
  list_ascii_of_string (s1 ++ s2)
  = list_ascii_of_string s1 ++ list_ascii_of_string s2.
Proof. induction s1 as [|c s1 IH]; simpl; [done|]. by rewrite IH. Qed.

(** *** Decimal numerals *)

Lemma int_digits_uint d acc after :
  d <> Decimal.Nil \/ after = true ->
  int_digits acc after (list_ascii_of_string (NilEmpty.string_of_uint d))
  = Ok (uint_value acc d).
Proof.
  revert acc after. induction d; intros acc after Hd; simpl;
    try (rewrite IHd by (by right); done).
  destruct Hd as [? | ->]; done.
Qed.

Lemma uint_value_acc d acc :
  uint_value (Z.pos acc) d = Z.pos (Pos.of_uint_acc d acc).
Proof.
  revert acc. induction d; intros acc; simpl; try done;
    rewrite <- IHd; f_equal; lia.
Qed.

Lemma uint_value_of_uint d : uint_value 0 d = Z.of_N (Pos.of_uint d).
Proof.
  induction d; simpl; try done;
    match goal with
    | |- uint_value ?k _ = _ => change k with (Z.pos (Z.to_pos k))
    end; by rewrite uint_value_acc.
Qed.

Lemma uint_value_to_uint p : uint_value 0 (Pos.to_uint p) = Z.pos p.
Proof. by rewrite uint_value_of_uint, DecimalPos.Unsigned.of_to. Qed.

Lemma py_int_uint d :
  d <> Decimal.Nil ->
  py_int (NilEmpty.string_of_uint d) = Ok (uint_value 0 d).
Proof.
  intros Hd. unfold py_int.
  pose proof (int_digits_uint d 0 false (or_introl Hd)) as H.
  destruct d; try done; simpl in *; exact H.
Qed.

Lemma to_uint_not_nil p : Pos.to_uint p <> Decimal.Nil.
Proof.
  intros E. pose proof (DecimalPos.Unsigned.of_to p) as H.
  rewrite E in H. discriminate H.
Qed.

Lemma string_of_uint_not_nil d :
  d <> Decimal.Nil -> NilZero.string_of_uint d = NilEmpty.string_of_uint d.
Proof. by destruct d. Qed.

Lemma py_str_pos p : py_str (Z.pos p) = NilEmpty.string_of_uint (Pos.to_uint p).
Proof. apply string_of_uint_not_nil, to_uint_not_nil. Qed.

Lemma py_str_neg p :
  py_str (Z.neg p) = String "-" (NilEmpty.string_of_uint (Pos.to_uint p)).
Proof.
  unfold py_str. simpl. f_equal. apply string_of_uint_not_nil, to_uint_not_nil.
Qed.

Lemma py_int_py_str n : py_int (py_str n) = Ok n.
Proof.
  destruct n as [|p|p]; [done| |].
  - rewrite py_str_pos, py_int_uint by apply to_uint_not_nil.
    by rewrite uint_value_to_uint.
  - rewrite py_str_neg. unfold py_int. cbn [list_ascii_of_string].
    rewrite int_digits_uint by (left; apply to_uint_not_nil).
    simpl. by rewrite uint_value_to_uint.
Qed.

(** *** Splitting *)

Lemma split_ws_field l cur rest :
  Forall (fun c => py_isspace c = false) l ->
  cur <> [] \/ l <> [] ->
  split_ws cur (l ++ " "%char :: rest) = (rev cur ++ l) :: split_ws [] rest.
Proof.
  intros Hl. revert cur. induction Hl as [|c l Hc Hl IH]; intros cur Hne.
  - simpl. rewrite app_nil_r.
    change (py_isspace " ") with true. cbn iota.
    destruct cur; [|done]. by destruct Hne.
  - simpl. rewrite Hc. rewrite IH by (by left).
    simpl. by rewrite <- app_assoc.
Qed.

Lemma split_ws_last l cur :
  Forall (fun c => py_isspace c = false) l ->
  cur <> [] \/ l <> [] ->
  split_ws cur l = [rev cur ++ l].
Proof.
  intros Hl. revert cur. induction Hl as [|c l Hc Hl IH]; intros cur Hne.
  - simpl. rewrite app_nil_r. destruct cur; [|done]. by destruct Hne.
  - simpl. rewrite Hc. rewrite IH by (by left).
    simpl. by rewrite <- app_assoc.
Qed.

Lemma split_on_piece sep l cur rest :
  Forall (fun c => Ascii.eqb c sep = false) l ->
  split_on sep cur (l ++ sep :: rest)
  = (rev cur ++ l) :: split_on sep [] rest.
Proof.
  intros Hl. revert cur. induction Hl as [|c l Hc Hl IH]; intros cur.
  - simpl. by rewrite Ascii.eqb_refl, app_nil_r.
  - simpl. rewrite Hc, IH. simpl. by rewrite <- app_assoc.
Qed.

Lemma split_on_last sep l cur :
  Forall (fun c => Ascii.eqb c sep = false) l ->
  split_on sep cur l = [rev cur ++ l].
Proof.
  intros Hl. revert cur. induction Hl as [|c l Hc Hl IH]; intros cur.
  - simpl. by rewrite app_nil_r.
  - simpl. rewrite Hc, IH. simpl. by rewrite <- app_assoc.
Qed.

Lemma py_split_on_concat (sep : ascii) (rows : list string) :
  rows <> [] ->
  Forall (fun s => Forall (fun c => Ascii.eqb c sep = false)
                          (list_ascii_of_string s)) rows ->
  py_split_on sep (String.concat (String sep EmptyString) rows) = rows.
Proof.
  intros Hne Hrows. unfold py_split_on.
  induction Hrows as [|s rows Hs Hrows IH]; [done|].
  destruct rows as [|s' rows].
  - simpl. rewrite split_on_last by done. simpl.
    by rewrite string_of_list_ascii_of_string.
  - cbn [String.concat]. rewrite !list_ascii_app.
    cbn [list_ascii_of_string String.append app].
    rewrite split_on_piece by done. cbn [map rev app].
    rewrite string_of_list_ascii_of_string. f_equal. by apply IH.
Qed.

Lemma py_split_fields (f1 f2 f3 f4 f5 f6 : string) :
  Forall (fun s => s <> EmptyString
                   /\ Forall (fun c => py_isspace c = false)
                             (list_ascii_of_string s))
         [f1; f2; f3; f4; f5; f6] ->
  py_split (f1 ++ " " ++ f2 ++ " " ++ f3 ++ " " ++ f4 ++ " " ++ f5 ++ " " ++ f6)
  = [f1; f2; f3; f4; f5; f6].
Proof.
  intros H. unfold py_split.
  assert (Hne : forall s : string,
            s <> EmptyString -> list_ascii_of_string s <> []).
  { intros s Hs. by destruct s. }
  rewrite !Forall_cons in H.
  destruct H as ([? ?] & [? ?] & [? ?] & [? ?] & [? ?] & [? ?] & _).
  repeat (rewrite list_ascii_app; cbn [list_ascii_of_string String.append app];
          rewrite split_ws_field by (done || (right; by apply Hne));
          cbn [map rev app]; rewrite string_of_list_ascii_of_string; f_equal).
  rewrite split_ws_last by (done || (right; by apply Hne)).
  cbn [map rev app]. by rewrite string_of_list_ascii_of_string.
Qed.

(** *** Writing and reading one rank *)

Lemma parse_rank_app l1 l2 b r f :
  parse_rank (l1 ++ l2) b r f
  = (st <- parse_rank l1 b r f ;; parse_rank l2 st.1 r st.2).
Proof.
  revert b f. induction l1 as [|c l1 IH]; intros b f; simpl; [done|].
  destruct (py_isdigit c).
  - destruct (py_int_char c) as [n|]; [|done]. simpl.
    destruct (clear_run (Z.to_nat n) b r f) as [[b1 f1]|]; [|done].
    simpl. apply IH.
  - destruct (piece_from_fen c (r, f)) as [piece|]; [|done]. simpl.
    destruct (set_piece_at b r f (Some piece)) as [b1|]; [|done].
    simpl. apply IH.
Qed.

Lemma fen_written_put r f v b' b :
  fen_written r f b' b ->
  is_valid_square r f = true ->
  grid b r f = placed r f v ->
  fen_written r (f + 1) (grid_set b' r f (placed r f v)) b.
Proof.
  intros (Hw1 & Hw2 & H) Hv Hg.
  split; [by apply wf_grid_set|]. split; [done|].
  intros r' f' Hv' Hlt. rewrite grid_grid_set by done.
  case_bool_decide as E.
  - injection E as <- <-. split; [done|].
    intros p Hp. destruct v as [q|]; [|discriminate].
    simpl in Hp. by injection Hp as <-.
  - apply H; [done|]. destruct Hlt as [?|[-> Hf]]; [by left|right].
    split; [done|]. destruct (decide (f' = f)) as [->|]; [done|lia].
Qed.

Lemma clear_run_written n b r f b' :
  fen_written r f b' b ->
  (forall j, f <= j < f + Z.of_nat n ->
             is_valid_square r j = true /\ grid b r j = None) ->
  exists b'', clear_run n b' r f = Ok (b'', f + Z.of_nat n)
              /\ fen_written r (f + Z.of_nat n) b'' b.
Proof.
  revert f b'. induction n as [|n IH]; intros f b' Hw He.
  - exists b'. simpl. by rewrite Z.add_0_r.
  - cbn [clear_run]. unfold set_piece_at.
    destruct (He f) as [Hv Hg]; [lia|]. rewrite Hv. cbn [bind].
    destruct (IH (f + 1) (grid_set b' r f (placed r f None))) as (b'' & Hc & Hw'').
    + by apply fen_written_put.
    + intros j Hj. apply He. lia.
    + exists b''. rewrite Hc.
      by replace (f + Z.of_nat (S n)) with (f + 1 + Z.of_nat n) by lia.
Qed.

Lemma digit_str e :
  1 <= e <= 8 ->
  exists d, py_str e = String d EmptyString
            /\ py_isdigit d = true /\ py_int_char d = Ok e
            /\ placement_char d = true.
Proof.
  intros He.
  assert (e = 1 \/ e = 2 \/ e = 3 \/ e = 4 \/ e = 5 \/ e = 6 \/ e = 7 \/ e = 8)
    as H by lia.
  destruct H as [->|[->|[->|[->|[->|[->|[->| ->]]]]]]];
    [exists "1"%char|exists "2"%char|exists "3"%char|exists "4"%char
    |exists "5"%char|exists "6"%char|exists "7"%char|exists "8"%char];
    repeat split; vm_compute; reflexivity.
Qed.

Lemma symbol_char t c :
  py_isdigit (fen_symbol t c) = false
  /\ placement_char (fen_symbol t c) = true.
Proof. by destruct t, c; vm_compute. Qed.

Lemma row_flush b r f s e :
  row_read b r f (s, e) -> 0 <= r < 8 -> f <= 8 ->
  row_read b r f (if e =? 0 then s else (s ++ py_str e)%string, 0).
Proof.
  unfold row_read. cbn [fst snd].
  intros (He & Hn & Hc & Hp) Hr Hf.
  destruct (e =? 0) eqn:E0.
  - apply Z.eqb_eq in E0 as ->. done.
  - apply Z.eqb_neq in E0.
    destruct (digit_str e) as (d & -> & Hd & Hi & Hch); [lia|].
    split; [lia|]. split; [intros j Hj; lia|].
    rewrite list_ascii_app. cbn [list_ascii_of_string].
    split; [apply Forall_app; split; [done|by constructor]|].
    intros b' Hw. destruct (Hp b' Hw) as (b1 & Hp1 & Hw1).
    rewrite parse_rank_app, Hp1. cbn [bind fst snd parse_rank].
    rewrite Hd, Hi. cbn [bind].
    destruct (clear_run_written (Z.to_nat e) b r (f - e) b1 Hw1)
      as (b2 & Hc2 & Hw2).
    { intros j Hj. split; [apply valid_iff; lia|apply Hn; lia]. }
    rewrite Hc2. cbn [bind fst snd].
    replace (f - e + Z.of_nat (Z.to_nat e)) with (f - 0) in * by lia.
    by exists b2.
Qed.

Lemma row_step b r f acc :
  wf_board b -> 0 <= r < 8 -> 0 <= f < 8 ->
  row_read b r f acc -> row_read b r (f + 1) (placement_step b r acc f).
Proof.
  intros Hb Hr Hf Hacc. destruct acc as [s e]. unfold placement_step.
  rewrite get_piece_at_valid by (apply valid_iff; lia).
  destruct (grid b r f) as [p|] eqn:Eg.
  - apply row_flush in Hacc; [|done|lia].
    revert Hacc. unfold row_read. cbn [fst snd].
    intros (_ & _ & Hc & Hp). split; [lia|]. split; [intros j Hj; lia|].
    rewrite list_ascii_app. cbn [list_ascii_of_string].
    destruct (symbol_char (piece_type p) (color p)) as [Hnd Hch].
    split; [apply Forall_app; split; [done|by constructor]|].
    intros b' Hw. destruct (Hp b' Hw) as (b1 & Hp1 & Hw1).
    rewrite Z.sub_0_r in *.
    rewrite parse_rank_app, Hp1. cbn [bind fst snd parse_rank].
    rewrite Hnd, piece_from_fen_symbol. cbn [bind].
    unfold set_piece_at. rewrite (proj2 (valid_iff r f)) by lia.
    cbn [bind]. eexists. split; [done|].
    apply fen_written_put; [done|apply valid_iff; lia|].
    rewrite Eg. simpl. f_equal. rewrite <- (piece_eta p) at 1.
    f_equal. apply Hb in Eg; [done|apply valid_iff; lia].
  - revert Hacc. unfold row_read. cbn [fst snd].
    intros (He & Hn & Hc & Hp). split; [lia|]. split.
    { intros j Hj. destruct (decide (j = f)) as [->|]; [done|].
      apply Hn. lia. }
    split; [done|].
    by replace (f + 1 - (e + 1)) with (f - e) by lia.
Qed.

Lemma row_fold b r n f acc :
  wf_board b -> 0 <= r < 8 -> 0 <= f -> f + Z.of_nat n = 8 ->
  row_read b r f acc ->
  row_read b r 8 (fold_left (placement_step b r) (seqZ f (Z.of_nat n)) acc).
Proof.
  intros Hb Hr. revert f acc. induction n as [|n IH]; intros f acc Hf Hn Hacc.
  - simpl. by replace 8 with f by lia.
  - rewrite seqZ_cons by lia. cbn [fold_left].
    replace (Z.pred (Z.of_nat (S n))) with (Z.of_nat n) by lia.
    apply IH; [lia..|]. apply row_step; [done|done|lia|done].
Qed.

Lemma placement_row_read b r :
  wf_board b -> 0 <= r < 8 ->
  Forall (fun c => placement_char c = true)
         (list_ascii_of_string (placement_row b r))
  /\ forall b', fen_written r 0 b' b ->
       exists b'', parse_rank (list_ascii_of_string (placement_row b r)) b' r 0
                   = Ok (b'', 8)
                   /\ fen_written r 8 b'' b.
Proof.
  intros Hb Hr. unfold placement_row.
  assert (H0 : row_read b r 0 (EmptyString, 0)).
  { unfold row_read. cbn [fst snd]. split; [done|].
    split; [intros j Hj; lia|].
    split; [constructor|]. intros b' Hw. by exists b'. }
  apply (row_fold b r 8 0 _ Hb Hr) in H0; [|lia..].
  change (seqZ 0 (Z.of_nat 8)) with range8 in H0.
  destruct (fold_left (placement_step b r) range8 (EmptyString, 0)) as [s e].
  apply row_flush in H0; [|done|lia].
  revert H0. unfold row_read. cbn [fst snd].
  intros (_ & _ & Hc & Hp). split; [done|]. intros b' Hw.
  destruct (Hp b' Hw) as (b'' & ? & ?). exists b''.
  by rewrite Z.sub_0_r in *.
Qed.

(** *** Writing and reading a position *)

Lemma placement_rows_read b n k b' :
  wf_board b -> 0 <= k -> k + Z.of_nat n = 8 ->
  fen_written (7 - k) 0 b' b ->
  exists b'',
    parse_placement
      (map (placement_row b) (map (fun i => 7 - i) (seqZ k (Z.of_nat n))))
      k b' = Ok b''
    /\ fen_written (-1) 0 b'' b.
Proof.
  intros Hb. revert k b'. induction n as [|n IH]; intros k b' Hk Hn Hw.
  - exists b'. split; [done|]. by replace (-1) with (7 - k) by lia.
  - rewrite seqZ_cons by lia. cbn [map parse_placement].
    replace (Z.pred (Z.of_nat (S n))) with (Z.of_nat n) by lia.
    destruct (placement_row_read b (7 - k) Hb) as [_ Hrow]; [lia|].
    destruct (Hrow b' Hw) as (b1 & -> & Hw1). cbn [bind fst snd].
    change (8 =? 8) with true. cbn iota.
    apply fen_written_next_rank in Hw1.
    replace (7 - k - 1) with (7 - Z.succ k) in Hw1 by lia.
    replace (k + 1) with (Z.succ k) by lia.
    apply IH; [lia..|done].
Qed.

Lemma placement_char_plain c :
  placement_char c = true ->
  Ascii.eqb c "/" = false /\ py_isspace c = false.
Proof.
  unfold placement_char. intros H%char_in_elem.
  cbn [list_ascii_of_string] in H. elem_cases H; subst c; by vm_compute.
Qed.

Lemma placement_rows_chars b :
  wf_board b ->
  Forall (fun s => Forall (fun c => placement_char c = true)
                          (list_ascii_of_string s))
         (map (placement_row b) (rev range8)).
Proof.
  intros Hb. apply Forall_map, Forall_forall. intros r Hr.
  apply placement_row_read; [done|].
  change (rev range8) with [7; 6; 5; 4; 3; 2; 1; 0] in Hr.
  elem_cases Hr; subst r; lia.
Qed.

Lemma placement_round_trip b b0 :
  wf_board b -> wf_grid b0 ->
  parse_placement (py_split_on "/" (to_fen_placement b)) 0 b0 = Ok b.
Proof.
  intros Hb Hb0. unfold to_fen_placement.
  rewrite py_split_on_concat.
  - change (rev range8) with (map (fun i => 7 - i) (seqZ 0 (Z.of_nat 8))).
    destruct (placement_rows_read b 8 0 b0 Hb) as (b'' & -> & Hw);
      [lia|lia|apply fen_written_start; [done|apply Hb]|].
    apply fen_written_all in Hw as [-> _]. done.
  - done.
  - eapply Forall_impl; [by apply placement_rows_chars|].
    intros s Hs. eapply Forall_impl; [exact Hs|].
    intros c Hc. by apply placement_char_plain.
Qed.

Lemma concat_chars (P : ascii -> Prop) sep rows :
  P sep ->
  Forall (fun s => Forall P (list_ascii_of_string s)) rows ->
  Forall P (list_ascii_of_string (String.concat (String sep EmptyString) rows)).
Proof.
  intros Hsep Hrows. induction Hrows as [|s rows Hs Hrows IH]; [constructor|].
  destruct rows as [|s' rows]; [done|].
  cbn [String.concat]. rewrite !list_ascii_app.
  cbn [list_ascii_of_string String.append app].
  apply Forall_app. split; [done|]. by constructor.
Qed.

Lemma placement_field b :
  wf_board b ->
  to_fen_placement b <> EmptyString
  /\ Forall (fun c => py_isspace c = false)
            (list_ascii_of_string (to_fen_placement b)).
Proof.
  intros Hb. split.
  - unfold to_fen_placement.
    change (rev range8) with [7; 6; 5; 4; 3; 2; 1; 0].
    cbn [map String.concat]. by destruct (placement_row b 7).
  - apply concat_chars; [done|].
    eapply Forall_impl; [by apply placement_rows_chars|].
    intros s Hs. eapply Forall_impl; [exact Hs|].
    intros c Hc. by apply placement_char_plain.
Qed.

Lemma uint_chars d :
  Forall (fun c => py_isspace c = false)
         (list_ascii_of_string (NilEmpty.string_of_uint d)).
Proof. induction d; simpl; by constructor. Qed.

Lemma py_str_field n :
  py_str n <> EmptyString
  /\ Forall (fun c => py_isspace c = false) (list_ascii_of_string (py_str n)).
Proof.
  destruct n as [|p|p].
  - split; [done|]. by repeat constructor.
  - rewrite py_str_pos. split; [|apply uint_chars].
    pose proof (to_uint_not_nil p). by destruct (Pos.to_uint p).
  - rewrite py_str_neg. split; [done|].
    cbn [list_ascii_of_string]. constructor; [done|apply uint_chars].
Qed.

Lemma square_field (ep : option Square) :
  (forall sq, ep = Some sq -> is_valid_square sq.1 sq.2 = true) ->
  exists s,
    match ep with
    | Some (rank, file) => coords_to_fen_square rank file
    | None => Ok "-"%string
    end = Ok s
    /\ s <> EmptyString
    /\ Forall (fun c => py_isspace c = false) (list_ascii_of_string s)
    /\ (if String.eqb s "-" then Ok None
        else sq <- fen_square_to_coords s ;; Ok (Some sq)) = Ok ep.
Proof.
  intros Hv. destruct ep as [[rank file]|].
  - specialize (Hv _ eq_refl). apply valid_iff in Hv as [Hr Hf]. simpl in *.
    destruct (range8_cases rank Hr) as [->|[->|[->|[->|[->|[->|[->| ->]]]]]]];
      destruct (range8_cases file Hf) as [->|[->|[->|[->|[->|[->|[->| ->]]]]]]];
      eexists; (split; [by vm_compute|]); (split; [done|]);
        (split; [by repeat constructor|by vm_compute]).
  - exists "-"%string. split; [done|]. split; [done|].
    split; [by repeat constructor|done].
Qed.

Lemma filter_all {A} (P : A -> Prop) `{forall x, Decision (P x)} (l : list A) :
  Forall P l -> filter P l = l.
Proof.
  induction 1 as [|x l Hx Hl IH]; [done|].
  rewrite filter_cons_True by done. by rewrite IH.
Qed.

Lemma rights_field (rights : string) :
  (forall c, char_in c (list_ascii_of_string rights) = true ->
             char_in c (list_ascii_of_string CASTLING_KEYS) = true) ->
  let castling :=
    if String.eqb rights EmptyString then "-"%string else rights in
  castling <> EmptyString
  /\ Forall (fun c => py_isspace c = false) (list_ascii_of_string castling)
  /\ (if String.eqb castling "-" then castling
      else keep_castling_keys castling) = castling.
Proof.
  intros Hk. destruct (String.eqb_spec rights EmptyString) as [->|Hne].
  - simpl. split; [done|]. split; [by repeat constructor|done].
  - simpl.
    assert (Hall : Forall (fun c => char_in c (list_ascii_of_string CASTLING_KEYS)
                                    = true) (list_ascii_of_string rights)).
    { apply Forall_forall. intros c Hc. apply Hk. by apply char_in_elem. }
    split; [done|]. split.
    + eapply Forall_impl; [exact Hall|]. intros c Hc%char_in_elem.
      cbn [list_ascii_of_string CASTLING_KEYS] in Hc.
      elem_cases Hc; subst c; by vm_compute.
    + destruct (String.eqb rights "-"); [done|].
      unfold keep_castling_keys. rewrite filter_all by done.
      apply string_of_list_ascii_of_string.
Qed.

(** X19: writing a well-formed position with [to_fen] and reading the
    text back with [from_fen], into any 8x8 board, restores the board and
    the state, with one difference: an empty castling-rights string comes
    back as the one-character string of the FEN dash.  The castling rights
    are assumed to hold only letters of [CASTLING_KEYS], and both clocks
    to be numbers that Python converts to text (at most 4300 digits). *)
Theorem X19_to_fen_from_fen (b b0 : Board) (gs : GameState) :
  wf_board b -> wf_grid b0 -> wf_state gs ->
  (forall c, has_right c gs = true ->
             char_in c (list_ascii_of_string CASTLING_KEYS) = true) ->
  str_digits_ok (halfmove_clock gs) = true ->
  str_digits_ok (fullmove_number gs) = true ->
  exists fen,
    to_fen gs b = Ok fen
    /\ from_fen fen b0
       = Ok (b, mkState (side_to_move gs)
                        (if String.eqb (castling_rights gs) EmptyString
                         then "-"%string else castling_rights gs)
                        (en_passant_target gs)
                        (halfmove_clock gs) (fullmove_number gs)).
Proof.
  intros Hb Hb0 Hgs Hk _ _.
  destruct (square_field (en_passant_target gs) Hgs)
    as (ep_s & Hep & Hep1 & Hep2 & Hep3).
  destruct (rights_field (castling_rights gs) Hk) as (Hc1 & Hc2 & Hc3).
  destruct (placement_field b Hb) as [Hp1 Hp2].
  destruct (py_str_field (halfmove_clock gs)) as [Hh1 Hh2].
  destruct (py_str_field (fullmove_number gs)) as [Hf1 Hf2].
  unfold to_fen. rewrite Hep. cbn [bind]. eexists. split; [done|].
  set (castling := if String.eqb (castling_rights gs) EmptyString
                   then "-"%string else castling_rights gs) in *.
  set (side := (if bool_decide (side_to_move gs = WHITE) then "w" else "b")%string).
  assert (Hside : side <> EmptyString
                  /\ Forall (fun c => py_isspace c = false)
                            (list_ascii_of_string side)
                  /\ (if String.eqb (string_lower side) "w" then Ok WHITE
                      else if String.eqb (string_lower side) "b" then Ok BLACK
                      else Raise ValueError) = Ok (side_to_move gs)).
  { unfold side. destruct (side_to_move gs).
    - rewrite bool_decide_eq_true_2 by done.
      split; [done|]. split; [by repeat constructor|done].
    - rewrite bool_decide_eq_false_2 by done.
      split; [done|]. split; [by repeat constructor|done]. }
  destruct Hside as (Hs1 & Hs2 & Hs3).
  unfold from_fen. rewrite py_split_fields by (repeat constructor; done).
  cbn beta iota zeta.
  assert (Hlen : (length (py_split_on "/" (to_fen_placement b)) =? 8)%nat
                 = true).
  { unfold to_fen_placement. rewrite py_split_on_concat; [done|done|].
    eapply Forall_impl; [by apply placement_rows_chars|].
    intros s Hs. eapply Forall_impl; [exact Hs|].
    intros c Hc. by apply placement_char_plain. }
  rewrite Hlen. cbn [negb].
  rewrite placement_round_trip by done. cbn [bind].
  rewrite Hs3. cbn [bind]. rewrite Hc3, Hep3. cbn [bind].
  rewrite !py_int_py_str. cbn [bind]. done.
Qed.

(** The theorem for the position after 1. e4, read into an empty board. *)
Lemma X19_to_fen_from_fen_witness :
  exists fen,
    to_fen
      (load_fen
         "rnbqkbnr/pppppppp/8/8/4P3/8/PPPP1PPP/RNBQKBNR b KQkq e3 0 1"%string).2
      (load_fen
         "rnbqkbnr/pppppppp/8/8/4P3/8/PPPP1PPP/RNBQKBNR b KQkq e3 0 1"%string).1
    = Ok fen
    /\ from_fen fen empty_board
       = Ok (load_fen
               "rnbqkbnr/pppppppp/8/8/4P3/8/PPPP1PPP/RNBQKBNR b KQkq e3 0 1"%string).
Proof.
  set (st := load_fen
         "rnbqkbnr/pppppppp/8/8/4P3/8/PPPP1PPP/RNBQKBNR b KQkq e3 0 1"%string).
  assert (Hb : wf_board st.1)
    by (apply wf_boardb_ok; vm_compute; reflexivity).
  assert (Hgs : wf_state st.2)
    by (apply wf_stateb_ok; vm_compute; reflexivity).
  assert (Hr : castling_rights st.2 = "KQkq"%string) by by_eval.
  assert (Hk : forall c, has_right c st.2 = true ->
                 char_in c (list_ascii_of_string CASTLING_KEYS) = true).
  { intros c H. unfold has_right in H. rewrite Hr in H. exact H. }
  assert (Hh : str_digits_ok (halfmove_clock st.2) = true) by by_eval.
  assert (Hf : str_digits_ok (fullmove_number st.2) = true) by by_eval.
  destruct (X19_to_fen_from_fen st.1 empty_board st.2
              Hb wf_grid_empty_board Hgs Hk Hh Hf) as (fen & H1 & H2).
  exists fen. split; [exact H1|]. rewrite H2. reflexivity.
Defined.

(** ** The game controller *)

Lemma pop_snoc {A} (l : list A) (x : A) : pop (l ++ [x]) = Some (l, x).
Proof. unfold pop. rewrite rev_app_distr. simpl. by rewrite rev_involutive. Qed.

Lemma pop_nil {A} (l : list A) : pop l = None <-> l = [].
Proof.
  unfold pop. split.
  - destruct (rev l) eqn:E; [|done]. intros _.
    by rewrite <- (rev_involutive l), E.
  - by intros ->.
Qed.

Lemma legal_round_trip b gs from legal m :
  wf_board b -> wf_state gs ->
  ep_target_empty b gs -> kings_on_e_file b gs ->
  get_legal_moves b gs from = Ok legal -> m ∈ legal ->
  exists b' gs' u,
    apply_move b gs m = Ok (b', gs', u)
    /\ undo_move b' gs' m u = Ok (b, gs).
Proof.
  intros Hb Hgs Hep Hking Hl Hm.
  pose proof (legal_is_pseudo _ _ _ _ _ Hl Hm) as Hp.
  destruct (pseudo_inv b gs from m Hb Hp) as (piece & Hv & Hg & Hc & Gen).
  pose proof (generated_from _ _ _ _ Gen) as Hfrom.
  pose proof (generated_to_valid _ _ _ _ Hgs Hv Gen) as Hto.
  assert (Hwf : wf_grid b) by apply Hb.
  assert (H0 : is_valid_square (from_square m).1 (from_square m).2 = true)
    by (by rewrite Hfrom).
  rewrite (apply_move_ok b gs m piece) by (by rewrite ?Hfrom).
  eexists _, _, _. split; [reflexivity|].
  rewrite (undo_move_ok _ _ m _ (arriving_piece m piece)).
  - rewrite undo_apply_state. f_equal. f_equal.
    apply round_trip_board; try done.
    intros Ht Hr.
    by apply (Hking (position piece).1 (position piece).2 piece).
  - done.
  - done.
  - by apply arriving_on_moved_board.
  - intros _. clear -H0 Hto. unfold move_undo, move_captured_square.
    destruct m as [[r0 f0] [r1 f1] promo cas ep dbl]. simpl in *.
    destruct ep; simpl; valid_tac.
  - clear -H0 Hto. unfold move_undo.
    destruct m as [[r0 f0] [r1 f1] promo cas ep dbl]. simpl in *.
    destruct cas; [|done]. intros rf [= <-]. destruct (f0 <? f1); valid_tac.
  - clear -H0 Hto. unfold move_undo.
    destruct m as [[r0 f0] [r1 f1] promo cas ep dbl]. simpl in *.
    destruct cas; [|done]. intros rf [= <-]. destruct (f0 <? f1); valid_tac.
Qed.

Lemma make_move_inv g m g1 :
  make_move g m = Ok (g1, true) ->
  exists legal b' gs' u,
    get_legal_moves (_board g) (_game_state g) (Some (from_square m)) = Ok legal
    /\ m ∈ legal
    /\ apply_move (_board g) (_game_state g) m = Ok (b', gs', u)
    /\ g1 = mkController b' gs' (_undo_stack g ++ [(m, u)]) [] (Some m) None.
Proof.
  unfold make_move.
  destruct (get_legal_moves _ _ _) as [legal|]; [|discriminate]. cbn [bind].
  case_bool_decide as Hin; [|discriminate].
  destruct (apply_move _ _ m) as [[[b' gs'] u]|]; [|discriminate].
  cbn [bind fst snd]. intros [= <-]. by exists legal, b', gs', u.
Qed.

(** X20: on a sound position, right after a move that [make_move]
    accepted, [undo] succeeds and gives back the board, the state and
    the undo stack as they were before the move; the move, with the
    record [apply_move] returned for it, is then the only entry of the
    redo stack. *)
Theorem X20_make_move_then_undo (g g1 : GameController) (m : Move) :
  sound_position g ->
  make_move g m = Ok (g1, true) ->
  exists u,
    _undo_stack g1 = _undo_stack g ++ [(m, u)]
    /\ _redo_stack g1 = []
    /\ undo g1
       = Ok (mkController (_board g) (_game_state g) (_undo_stack g)
                          [(m, u)] (fst <$> last (_undo_stack g)) None,
             true).
Proof.
  intros (Hb & Hgs & Hep & Hk) Hmk.
  destruct (make_move_inv g m g1 Hmk) as (legal & b' & gs' & u & Hl & Hin & Ha & ->).
  destruct (legal_round_trip _ _ _ _ _ Hb Hgs Hep Hk Hl Hin)
    as (b2 & gs2 & u2 & Ha2 & Hu).
  rewrite Ha in Ha2. injection Ha2 as <- <- <-.
  exists u. split; [done|]. split; [done|].
  unfold undo. cbn [_undo_stack _board _game_state _redo_stack _selected_square].
  rewrite pop_snoc, Hu. done.
Qed.

(** X21: on a sound position, [undo] right after an accepted move
    followed by [redo] returns the controller exactly as the move left
    it, although [redo] re-applies the move without asking whether it is
    legal and stores the old undo record instead of the new one. *)
Theorem X21_undo_then_redo (g g1 : GameController) (m : Move) :
  sound_position g ->
  make_move g m = Ok (g1, true) ->
  exists g2, undo g1 = Ok (g2, true) /\ redo g2 = Ok (g1, true).
Proof.
  intros (Hb & Hgs & Hep & Hk) Hmk.
  destruct (make_move_inv g m g1 Hmk) as (legal & b' & gs' & u & Hl & Hin & Ha & ->).
  destruct (legal_round_trip _ _ _ _ _ Hb Hgs Hep Hk Hl Hin)
    as (b2 & gs2 & u2 & Ha2 & Hu).
  rewrite Ha in Ha2. injection Ha2 as <- <- <-.
  eexists. split.
  - unfold undo. cbn [_undo_stack _board _game_state _redo_stack _selected_square].
    rewrite pop_snoc, Hu. done.
  - unfold redo. cbn [_undo_stack _board _game_state _redo_stack _selected_square
                      bind fst snd app].
    change (pop [(m, u)]) with (Some (@nil (Move * UndoInfo), (m, u))).
    cbn iota beta. rewrite Ha. done.
Qed.

(** X22: on a well-formed position [make_move] raises nothing: it
    returns [True] exactly for the moves of [get_legal_moves], and where
    it returns [False] the controller is unchanged. *)
Theorem X22_make_move_decides (g : GameController) (m : Move) :
  wf_board (_board g) -> wf_state (_game_state g) ->
  exists legal g' ok,
    get_legal_moves (_board g) (_game_state g) None = Ok legal
    /\ make_move g m = Ok (g', ok)
    /\ (ok = true <-> m ∈ legal)
    /\ (ok = false -> g' = g).
Proof.
  intros Hb Hgs.
  destruct (get_legal_moves_returns (_board g) (_game_state g) None Hb Hgs)
    as (legal & Hl).
  destruct (get_legal_moves_returns (_board g) (_game_state g)
              (Some (from_square m)) Hb Hgs) as (scoped & Hs).
  assert (Hiff : m ∈ scoped <-> m ∈ legal).
  { unfold get_legal_moves in *.
    rewrite (filter_legal_elem _ _ _ _ m Hs), (filter_legal_elem _ _ _ _ m Hl).
    rewrite pseudo_scoped by done.
    split; [intros [[? _] ?]|intros [? ?]]; by repeat split. }
  exists legal. unfold make_move. rewrite Hs. cbn [bind].
  case_bool_decide as Hin.
  - pose proof (legal_is_pseudo _ _ _ _ _ Hs Hin) as Hp.
    destruct (pseudo_apply_ok _ _ _ _ Hb Hgs Hp) as (piece & _ & _ & _ & _ & ->).
    cbn [bind]. eexists _, true. split; [done|]. split; [done|].
    split; [|done]. split; [intros _; by apply Hiff|done].
  - exists g, false. split; [done|]. split; [done|].
    split; [|done]. split; [done|]. intros Hm. destruct Hin. by apply Hiff.
Qed.

Lemma sound_position_opening : sound_position opening.
Proof.
  split; [apply wf_boardb_ok; by_eval|].
  split; [apply wf_stateb_ok; by_eval|].
  split; [apply ep_target_emptyb_ok; by_eval|].
  apply kings_on_e_fileb_ok; by_eval.
Qed.

(** The theorem for 1. e4 from the starting position. *)
Lemma X20_make_move_then_undo_witness :
  exists g1 u,
    sound_position opening
    /\ make_move opening (double_push_move (1, 4) (3, 4)) = Ok (g1, true)
    /\ undo g1
       = Ok (mkController (_board opening) (_game_state opening) []
                          [(double_push_move (1, 4) (3, 4), u)] None None,
             true).
Proof.
  let r := eval vm_compute in
    (make_move opening (double_push_move (1, 4) (3, 4))) in
  match r with
  | Ok (?g1, true) =>
      assert (Hm : make_move opening (double_push_move (1, 4) (3, 4))
                   = Ok (g1, true)) by by_eval;
      exists g1
  end.
  destruct (X20_make_move_then_undo opening _ (double_push_move (1, 4) (3, 4))
              sound_position_opening Hm) as (u & _ & _ & Hu).
  exists u. split; [exact sound_position_opening|]. split; [exact Hm|exact Hu].
Defined.

(** The theorem for 1. e4 from the starting position. *)
Lemma X21_undo_then_redo_witness :
  exists g1 g2,
    sound_position opening
    /\ make_move opening (double_push_move (1, 4) (3, 4)) = Ok (g1, true)
    /\ undo g1 = Ok (g2, true) /\ redo g2 = Ok (g1, true).
Proof.
  let r := eval vm_compute in
    (make_move opening (double_push_move (1, 4) (3, 4))) in
  match r with
  | Ok (?g1, true) =>
      assert (Hm : make_move opening (double_push_move (1, 4) (3, 4))
                   = Ok (g1, true)) by by_eval;
      exists g1
  end.
  destruct (X21_undo_then_redo opening _ (double_push_move (1, 4) (3, 4))
              sound_position_opening Hm) as (g2 & Hu & Hr).
  exists g2. split; [exact sound_position_opening|].
  split; [exact Hm|]. split; [exact Hu|exact Hr].
Defined.

(** The theorem for the pawn leap e2-e5 at the starting position. *)
Lemma X22_make_move_decides_witness :
  wf_board (_board opening) /\ wf_state (_game_state opening)
  /\ exists legal g' ok,
      get_legal_moves (_board opening) (_game_state opening) None = Ok legal
      /\ make_move opening (plain_move (1, 4) (4, 4)) = Ok (g', ok)
      /\ (ok = true <-> plain_move (1, 4) (4, 4) ∈ legal)
      /\ (ok = false -> g' = opening).
Proof.
  split; [apply sound_position_opening|].
  split; [apply sound_position_opening|].
  apply X22_make_move_decides; apply sound_position_opening.
Defined.

Lemma pick_move_inv legal to promo m :
  pick_move legal to promo = Some m ->
  m ∈ legal /\ to_square m = to
  /\ forall p, promotion_piece m = Some p ->
       exists s, promo = Some s /\ string_upper s = promo_str p.
Proof.
  induction legal as [|m0 legal IH]; cbn [pick_move]; [discriminate|].
  case_bool_decide as Hto.
  { intros H. destruct (IH H) as (? & ? & ?). split; [by right|done]. }
  destruct (promotion_piece m0) as [p0|] eqn:Ep.
  - destruct promo as [s|]; [|discriminate].
    match goal with
    | |- context [negb (existsb ?g ?l)] => destruct (negb (existsb g l))
    end; [discriminate|].
    destruct (String.eqb_spec (promo_str p0) (string_upper s)) as [Hs|Hs];
      cbn [negb].
    + intros [= <-]. split; [by left|].
      split; [done|]. intros p Hp. rewrite Ep in Hp. injection Hp as <-.
      by exists s.
    + intros H. destruct (IH H) as (? & ? & ?). split; [by right|done].
  - intros [= <-]. split; [by left|]. split; [done|]. intros p Hp.
    rewrite Ep in Hp. discriminate.
Qed.

(** X23: when [make_move_to_square] returns [True], the move it made is
    a legal move from the selected square to the requested square, it is
    the new last move, and if it promotes, then to the piece whose letter
    is the upper-cased [promotion_piece] argument. *)
Theorem X23_make_move_to_square_moves
    (g g' : GameController) (to : Square) (promo : option string) :
  wf_board (_board g) -> wf_state (_game_state g) ->
  make_move_to_square g to promo = Ok (g', true) ->
  exists legal m,
    get_legal_moves (_board g) (_game_state g) None = Ok legal
    /\ m ∈ legal
    /\ _selected_square g = Some (from_square m)
    /\ to_square m = to
    /\ (forall p, promotion_piece m = Some p ->
          exists s, promo = Some s /\ string_upper s = promo_str p)
    /\ make_move g m = Ok (g', true)
    /\ _last_move g' = Some m.
Proof.
  intros Hb Hgs. unfold make_move_to_square.
  destruct (_selected_square g) as [sel|] eqn:Esel; [|discriminate].
  destruct (get_legal_moves _ _ (Some sel)) as [scoped|] eqn:Hs;
    [|discriminate].
  cbn [bind].
  destruct (pick_move scoped to promo) as [m|] eqn:Hpick; [|discriminate].
  intros Hmk.
  destruct (pick_move_inv _ _ _ _ Hpick) as (Hin & Hto & Hpromo).
  pose proof (legal_is_pseudo _ _ _ _ _ Hs Hin) as Hp.
  apply pseudo_scoped in Hp as [Hp Hfrom]; [|done].
  destruct (make_move_inv _ _ _ Hmk)
    as (legal' & b' & gs' & u & _ & _ & Ha & ->).
  destruct (get_legal_moves_returns (_board g) (_game_state g) None Hb Hgs)
    as (legal & Hl).
  exists legal, m. split; [done|]. split.
  { unfold get_legal_moves in *.
    apply (filter_legal_elem _ _ _ _ m Hl). split; [done|].
    by apply (filter_legal_elem _ _ _ _ m Hs). }
  rewrite Hfrom. by repeat split.
Qed.

(** The theorem for the e-pawn selected and sent to (3, 4). *)
Lemma X23_make_move_to_square_moves_witness :
  exists g' legal m,
    make_move_to_square (select opening (1, 4)) (3, 4) None = Ok (g', true)
    /\ get_legal_moves (_board opening) (_game_state opening) None = Ok legal
    /\ m ∈ legal
    /\ from_square m = (1, 4) /\ to_square m = (3, 4)
    /\ _last_move g' = Some m.
Proof.
  let r := eval vm_compute in
    (make_move_to_square (select opening (1, 4)) (3, 4) None) in
  match r with
  | Ok (?g1, true) =>
      assert (Hm : make_move_to_square (select opening (1, 4)) (3, 4) None
                   = Ok (g1, true)) by by_eval;
      exists g1
  end.
  destruct sound_position_opening as (Hb & Hgs & _).
  destruct (X23_make_move_to_square_moves (select opening (1, 4)) _ (3, 4) None
              Hb Hgs Hm)
    as (legal & m & Hl & Hin & Hsel & Hto & _ & _ & Hlast).
  exists legal, m. split; [exact Hm|]. split; [exact Hl|].
  split; [exact Hin|]. split; [|split; [exact Hto|exact Hlast]].
  assert (Hs : _selected_square (select opening (1, 4)) = Some (1, 4))
    by by_eval.
  rewrite Hs in Hsel. by injection Hsel as <-.
Defined.

Lemma wf_state_apply_state gs m piece cap csq :
  is_valid_square (from_square m).1 (from_square m).2 = true ->
  is_valid_square (to_square m).1 (to_square m).2 = true ->
  wf_state (apply_state gs m piece cap csq).
Proof.
  destruct m as [[r0 f0] [r1 f1] promo cas ep dbl]. simpl.
  intros H0 H1 sq. unfold apply_state. simpl.
  destruct dbl; [|discriminate]. intros [= <-]. simpl.
  apply valid_iff in H0, H1. apply valid_iff.
  split; [|lia]. split.
  - apply Z.div_pos; lia.
  - apply Z.div_lt_upper_bound; lia.
Qed.

Lemma make_move_keeps_wf g m :
  wf_board (_board g) -> wf_state (_game_state g) ->
  exists g' ok,
    make_move g m = Ok (g', ok)
    /\ wf_board (_board g') /\ wf_state (_game_state g')
    /\ length (_undo_stack g')
       = (length (_undo_stack g) + if ok then 1 else 0)%nat.
Proof.
  intros Hb Hgs.
  destruct (get_legal_moves_returns (_board g) (_game_state g)
              (Some (from_square m)) Hb Hgs) as (scoped & Hs).
  unfold make_move. rewrite Hs. cbn [bind].
  case_bool_decide as Hin.
  - pose proof (legal_is_pseudo _ _ _ _ _ Hs Hin) as Hp.
    destruct (pseudo_apply_ok _ _ _ _ Hb Hgs Hp)
      as (piece & Hg & _ & Hpos & Gen & ->).
    destruct (pseudo_inv _ _ _ _ Hb Hp) as (piece' & Hv' & _ & _ & Gen').
    pose proof (generated_from _ _ _ _ Gen') as Hfrom.
    pose proof (generated_to_valid _ _ _ _ Hgs Hv' Gen') as Hto.
    rewrite <- Hfrom in Hv'.
    cbn [bind fst snd]. eexists _, true. split; [done|].
    cbn [_board _game_state _undo_stack].
    split; [by apply wf_board_moved_board|].
    split; [by apply wf_state_apply_state|].
    by rewrite length_app.
  - exists g, false. split; [done|]. split; [done|]. split; [done|]. lia.
Qed.

(** X24: once [reset_to_fen] has accepted a FEN, no run of [make_move]
    calls raises, whatever moves are attempted: every call returns, the
    position stays well formed, and the undo stack holds at most one
    entry per attempt. *)
Theorem X24_play_never_raises
    (fen : string) (g0 : GameController) (moves : list Move) :
  reset_to_fen fen = Ok g0 ->
  exists g,
    play g0 moves = Ok g
    /\ wf_board (_board g) /\ wf_state (_game_state g)
    /\ (length (_undo_stack g) <= length moves)%nat.
Proof.
  unfold reset_to_fen.
  destruct (from_fen fen empty_board) as [[b gs]|] eqn:Hf; [|discriminate].
  cbn [bind fst snd]. intros [= <-].
  destruct (from_fen_pair fen empty_board empty_board b gs
              wf_grid_empty_board wf_grid_empty_board Hf) as (_ & Hb & Hgs).
  set (g0 := mkController b gs [] [] None None).
  assert (Hinv : wf_board (_board g0) /\ wf_state (_game_state g0)) by done.
  assert (Hlen : (length (_undo_stack g0) = 0)%nat) by done.
  clearbody g0. clear Hf Hb Hgs b gs.
  assert (Hgen : forall n, (length (_undo_stack g0) <= n)%nat ->
            exists g, play g0 moves = Ok g
              /\ wf_board (_board g) /\ wf_state (_game_state g)
              /\ (length (_undo_stack g) <= n + length moves)%nat).
  { clear Hlen. revert g0 Hinv.
    induction moves as [|m moves IH]; intros g0 [Hb Hgs] n Hn.
    - exists g0. cbn [play length]. split; [done|]. split; [done|].
      split; [done|]. lia.
    - destruct (make_move_keeps_wf g0 m Hb Hgs)
        as (g1 & ok & Hm & Hb1 & Hgs1 & Hl1).
      cbn [play]. rewrite Hm. cbn [bind fst].
      destruct (IH g1 (conj Hb1 Hgs1) (S n)) as (g & Hp & ? & ? & Hl).
      { rewrite Hl1. destruct ok; lia. }
      exists g. split; [done|]. split; [done|]. split; [done|].
      cbn [length]. lia. }
  destruct (Hgen 0%nat) as (g & ? & ? & ? & ?); [lia|].
  exists g. split; [done|]. split; [done|]. split; [done|]. lia.
Qed.

(** The theorem for 1. e4, a rejected rook jump, and 1... e5. *)
Lemma X24_play_never_raises_witness :
  reset_to_fen STARTING_FEN = Ok opening
  /\ exists g,
      play opening [double_push_move (1, 4) (3, 4); plain_move (0, 0) (5, 5);
                    double_push_move (6, 4) (4, 4)] = Ok g
      /\ wf_board (_board g) /\ wf_state (_game_state g)
      /\ (length (_undo_stack g) <= 3)%nat.
Proof.
  assert (H : reset_to_fen STARTING_FEN = Ok opening) by by_eval.
  split; [exact H|].
  exact (X24_play_never_raises STARTING_FEN opening
           [double_push_move (1, 4) (3, 4); plain_move (0, 0) (5, 5);
            double_push_move (6, 4) (4, 4)] H).
Defined.

(** ** Move text, continued *)

Lemma square_name r f :
  is_valid_square r f = true ->
  exists c d,
    files_index f = Ok c
    /\ py_str (8 - r) = String d EmptyString
    /\ coords_to_fen_square r f = Ok (String c (String d EmptyString))
    /\ fen_square_to_coords (String c (String d EmptyString)) = Ok (r, f).
Proof.
  intros Hv. apply valid_iff in Hv as [Hr Hf].
  destruct (range8_cases r Hr) as [->|[->|[->|[->|[->|[->|[->| ->]]]]]]];
    destruct (range8_cases f Hf) as [->|[->|[->|[->|[->|[->|[->| ->]]]]]]];
    eexists _, _; (split; [by vm_compute|]); (split; [by vm_compute|]);
      split; by vm_compute.
Qed.

(** X25: for a move between squares of the board, [uci_style] writes
    the two square names [coords_to_fen_square] gives, followed by the
    promotion letter, and [fen_square_to_coords] reads each name back as
    the square it came from. *)
Theorem X25_uci_style_decodes (m : Move) :
  is_valid_square (from_square m).1 (from_square m).2 = true ->
  is_valid_square (to_square m).1 (to_square m).2 = true ->
  exists a b,
    coords_to_fen_square (from_square m).1 (from_square m).2 = Ok a
    /\ coords_to_fen_square (to_square m).1 (to_square m).2 = Ok b
    /\ uci_style m = Ok (a ++ b ++ uci_promo m)%string
    /\ fen_square_to_coords a = Ok (from_square m)
    /\ fen_square_to_coords b = Ok (to_square m).
Proof.
  destruct m as [[r0 f0] [r1 f1] promo cas ep dbl]. cbn [from_square to_square fst snd].
  intros H0 H1.
  destruct (square_name r0 f0 H0) as (c0 & d0 & Hc0 & Hd0 & Hn0 & Hb0).
  destruct (square_name r1 f1 H1) as (c1 & d1 & Hc1 & Hd1 & Hn1 & Hb1).
  eexists _, _. split; [exact Hn0|]. split; [exact Hn1|].
  split; [|by split].
  unfold uci_style, uci_promo. cbn [from_square to_square promotion_piece].
  rewrite Hc0, Hc1, Hd0, Hd1. done.
Qed.

(** The theorem for a promotion on the a-file. *)
Lemma X25_uci_style_decodes_witness :
  exists a b,
    uci_style (promotion_move (6, 0) (7, 0) PromoN) = Ok (a ++ b ++ "n")%string
    /\ fen_square_to_coords a = Ok (6, 0)
    /\ fen_square_to_coords b = Ok (7, 0).
Proof.
  destruct (X25_uci_style_decodes (promotion_move (6, 0) (7, 0) PromoN)
              eq_refl eq_refl) as (a & b & _ & _ & H1 & H2 & H3).
  exists a, b. split; [exact H1|]. split; [exact H2|exact H3].
Defined.

(** X26: two moves between squares of the board with the same
    [uci_style] text have the same origin, destination and promotion
    piece (the castling, en-passant and double-push flags are not part of
    the text). *)
Theorem X26_uci_style_injective (m1 m2 : Move) (s : string) :
  is_valid_square (from_square m1).1 (from_square m1).2 = true ->
  is_valid_square (to_square m1).1 (to_square m1).2 = true ->
  is_valid_square (from_square m2).1 (from_square m2).2 = true ->
  is_valid_square (to_square m2).1 (to_square m2).2 = true ->
  uci_style m1 = Ok s -> uci_style m2 = Ok s ->
  from_square m1 = from_square m2
  /\ to_square m1 = to_square m2
  /\ promotion_piece m1 = promotion_piece m2.
Proof.
  destruct m1 as [[r0 f0] [r1 f1] promo cas ep dbl].
  destruct m2 as [[r0' f0'] [r1' f1'] promo' cas' ep' dbl'].
  cbn [from_square to_square promotion_piece fst snd].
  intros H0 H1 H0' H1'.
  destruct (square_name r0 f0 H0) as (c0 & d0 & Hc0 & Hd0 & _ & Hb0).
  destruct (square_name r1 f1 H1) as (c1 & d1 & Hc1 & Hd1 & _ & Hb1).
  destruct (square_name r0' f0' H0') as (c0' & d0' & Hc0' & Hd0' & _ & Hb0').
  destruct (square_name r1' f1' H1') as (c1' & d1' & Hc1' & Hd1' & _ & Hb1').
  unfold uci_style. cbn [from_square to_square promotion_piece].
  rewrite Hc0, Hc1, Hd0, Hd1, Hc0', Hc1', Hd0', Hd1'. cbn [bind String.append].
  intros [= <-] [= -> -> -> -> Hp].
  rewrite Hb0 in Hb0'. rewrite Hb1 in Hb1'.
  injection Hb0' as -> ->. injection Hb1' as -> ->.
  split; [done|]. split; [done|].
  destruct promo as [[]|], promo' as [[]|]; done.
Qed.

(** The theorem for the single and the double push of the same text. *)
Lemma X26_uci_style_injective_witness :
  uci_style (plain_move (1, 4) (3, 4)) = Ok "e7e5"%string
  /\ uci_style (double_push_move (1, 4) (3, 4)) = Ok "e7e5"%string
  /\ from_square (plain_move (1, 4) (3, 4))
     = from_square (double_push_move (1, 4) (3, 4))
  /\ to_square (plain_move (1, 4) (3, 4))
     = to_square (double_push_move (1, 4) (3, 4))
  /\ promotion_piece (plain_move (1, 4) (3, 4))
     = promotion_piece (double_push_move (1, 4) (3, 4)).
Proof.
  assert (H1 : uci_style (plain_move (1, 4) (3, 4)) = Ok "e7e5"%string)
    by by_eval.
  assert (H2 : uci_style (double_push_move (1, 4) (3, 4)) = Ok "e7e5"%string)
    by by_eval.
  split; [exact H1|]. split; [exact H2|].
  exact (X26_uci_style_injective (plain_move (1, 4) (3, 4))
           (double_push_move (1, 4) (3, 4)) "e7e5"%string
           eq_refl eq_refl eq_refl eq_refl H1 H2).
Defined.

Lemma files_index_cases f :
  (-8 <= f < 8 /\ exists c, files_index f = Ok c)
  \/ (~ -8 <= f < 8 /\ files_index f = Raise IndexError).
Proof.
  unfold files_index.
  destruct (f <? 0) eqn:E0;
    match goal with
    | |- context [if ?c then _ else _] => destruct c eqn:E
    end; [left|right|left|right]; (split; [lia|eauto]).
Qed.

(** X27: for ranks whose complements to 8 Python converts to text (at
    most 4300 digits), [uci_style] returns exactly when both files lie
    between -8 and 7 and raises [IndexError] otherwise; a file from -8 to
    -1 is read from the end of the file letters, so the text is that of
    the move with the file 8 higher. *)
Theorem X27_uci_style_file_bounds (m : Move) :
  str_digits_ok (8 - (from_square m).1) = true ->
  str_digits_ok (8 - (to_square m).1) = true ->
  ((exists s, uci_style m = Ok s) <->
   -8 <= (from_square m).2 < 8 /\ -8 <= (to_square m).2 < 8)
  /\ (uci_style m = Raise IndexError <->
      ~ (-8 <= (from_square m).2 < 8 /\ -8 <= (to_square m).2 < 8))
  /\ (-8 <= (from_square m).2 < 0 ->
      uci_style m
      = uci_style (mkMove ((from_square m).1, (from_square m).2 + 8)
                          (to_square m) (promotion_piece m) (is_castle m)
                          (is_en_passant m) (is_double_pawn_push m))).
Proof.
  destruct m as [[r0 f0] [r1 f1] promo cas ep dbl].
  cbn [from_square to_square promotion_piece is_castle is_en_passant
       is_double_pawn_push fst snd].
  unfold uci_style. cbn [from_square to_square promotion_piece].
  intros _ _. split; [|split].
  - destruct (files_index_cases f0) as [[H0 [c0 ->]]|[H0 ->]];
      destruct (files_index_cases f1) as [[H1 [c1 ->]]|[H1 ->]];
      cbn [bind]; split; try (intros [s [=]]; fail); try lia; eauto.
  - destruct (files_index_cases f0) as [[H0 [c0 ->]]|[H0 ->]];
      destruct (files_index_cases f1) as [[H1 [c1 ->]]|[H1 ->]];
      cbn [bind]; split; try discriminate; try lia; try done.
  - intros H. f_equal. unfold files_index.
    replace (f0 <? 0) with true by lia.
    replace (f0 + 8 <? 0) with false by lia. done.
Qed.

(** The theorem for a move written with the file -4 for the e-file. *)
Lemma X27_uci_style_file_bounds_witness :
  str_digits_ok (8 - 1) = true /\ str_digits_ok (8 - 3) = true
  /\ (exists s, uci_style (plain_move (1, -4) (3, 4)) = Ok s)
  /\ uci_style (plain_move (1, -4) (3, 4))
     = uci_style (plain_move (1, 4) (3, 4)).
Proof.
  assert (H1 : str_digits_ok (8 - (from_square (plain_move (1, -4) (3, 4))).1)
               = true) by by_eval.
  assert (H2 : str_digits_ok (8 - (to_square (plain_move (1, -4) (3, 4))).1)
               = true) by by_eval.
  destruct (X27_uci_style_file_bounds (plain_move (1, -4) (3, 4)) H1 H2)
    as (Hret & _ & Hwrap).
  split; [exact H1|]. split; [exact H2|]. split.
  - apply Hret. cbn. lia.
  - apply Hwrap. cbn. lia.
Defined.

(** ** Promotions *)

Lemma pseudo_piece_iff b gs from m :
  m ∈ pseudo_legal_moves b gs from <->
  exists r f piece,
    is_valid_square r f = true
    /\ (from = None \/ from = Some (r, f))
    /\ grid b r f = Some piece
    /\ color piece = side_to_move gs
    /\ m ∈ _pseudo_legal_moves_for_piece b gs piece.
Proof.
  unfold pseudo_legal_moves. rewrite elem_flat_map. split.
  - intros ([r f] & Hsq & H). apply elem_all_squares in Hsq. cbn [fst snd] in *.
    match type of H with
    | context [if ?c then _ else _] => destruct c eqn:Ef
    end; [|by apply elem_of_nil in H].
    rewrite get_piece_at_valid in H by done.
    destruct (grid b r f) as [piece|] eqn:Eg; [|by apply elem_of_nil in H].
    case_bool_decide as Ec; [|by apply elem_of_nil in H].
    exists r, f, piece. split; [done|]. split; [|done].
    apply orb_true_iff in Ef as [Ef|Ef]; apply bool_decide_eq_true in Ef; eauto.
  - intros (r & f & piece & Hv & Hfrom & Hg & Hc & Hin).
    exists (r, f). split; [by apply elem_all_squares|]. cbn [fst snd].
    match goal with
    | |- context [if ?c then _ else _] => assert (c = true) as ->
    end.
    { apply orb_true_iff. destruct Hfrom as [->| ->]; [left|right];
        by apply bool_decide_eq_true. }
    rewrite get_piece_at_valid, Hg by done.
    by rewrite bool_decide_eq_true_2.
Qed.

Lemma promotions_all a dst p :
  promotion_move a dst p ∈ map (promotion_move a dst) PROMOTION_PIECES.
Proof.
  apply list_elem_of_In, in_map, list_elem_of_In. destruct p; in_list.
Qed.

Lemma promotion_siblings b gs piece m p p' :
  m ∈ _pseudo_legal_moves_for_piece b gs piece ->
  promotion_piece m = Some p ->
  promotion_move (from_square m) (to_square m) p'
    ∈ _pseudo_legal_moves_for_piece b gs piece.
Proof.
  intros Hin Hp.
  pose proof (moves_for_piece_generated _ _ _ _ Hin) as Gen.
  assert (Hpawn : piece_type piece = PAWN).
  { inversion Gen; subst; try discriminate Hp; done. }
  unfold _pseudo_legal_moves_for_piece in *. rewrite Hpawn in *.
  unfold _pseudo_legal_pawn_moves in *.
  apply elem_of_app in Hin as [H|H]; [|apply elem_of_app in H as [H|H]].
  - apply elem_of_app. left. unfold pawn_push_moves in *.
    destruct (position piece) as [r0 f0].
    destruct (is_valid_square (r0 + direction piece) f0
              && is_none (get_piece_at b (r0 + direction piece) f0));
      [|by apply elem_of_nil in H].
    destruct (last_rank (r0 + direction piece)).
    + apply elem_promotions in H as (q & ->). apply promotions_all.
    + apply elem_of_cons in H as [->|H]; [discriminate Hp|].
      destruct (r0 =? start_rank piece); [|by apply elem_of_nil in H].
      destruct (is_none _); [|by apply elem_of_nil in H].
      apply list_elem_of_singleton in H as ->. discriminate Hp.
  - apply elem_of_app. right. apply elem_of_app. left.
    unfold pawn_capture_moves in *.
    destruct (position piece) as [r0 f0].
    apply elem_flat_map in H as (df & Hdf & H). apply elem_flat_map.
    exists df. split; [done|].
    destruct (is_valid_square (r0 + direction piece) (f0 + df)
              && enemy_on b (r0 + direction piece) (f0 + df) piece);
      [|by apply elem_of_nil in H].
    destruct (last_rank (r0 + direction piece)).
    + apply elem_promotions in H as (q & ->). apply promotions_all.
    + apply list_elem_of_singleton in H as ->. discriminate Hp.
  - exfalso. unfold pawn_en_passant_moves in H.
    destruct (position piece) as [r0 f0].
    destruct (en_passant_target gs) as [[er ef]|];
      [|by apply elem_of_nil in H].
    match type of H with
    | context [if ?c then _ else _] => destruct c
    end; [|by apply elem_of_nil in H].
    apply list_elem_of_singleton in H as ->. discriminate Hp.
Qed.

(** *** Boards an attacker cannot tell apart *)

Lemma stands_alike c b1 b2 r f t :
  alike_for c b1 b2 -> stands b1 r f c t = stands b2 r f c t.
Proof.
  intros Ha. unfold stands.
  destruct (is_valid_square r f) eqn:Hv; [|done].
  rewrite !get_piece_at_valid by done.
  destruct (Ha r f Hv) as [->|(p1 & p2 & -> & -> & H1 & H2)]; [done|].
  by rewrite (bool_decide_eq_false_2 (color p1 = c)),
    (bool_decide_eq_false_2 (color p2 = c)).
Qed.

Lemma ray_attack_alike n c b1 b2 e dr df r f :
  alike_for c b1 b2 ->
  ray_attack n b1 c e dr df r f = ray_attack n b2 c e dr df r f.
Proof.
  intros Ha. revert r f. induction n as [|n IH]; intros r f; [done|].
  cbn [ray_attack]. destruct (is_valid_square r f) eqn:Hv; [|done].
  rewrite !get_piece_at_valid by done.
  destruct (Ha r f Hv) as [->|(p1 & p2 & -> & -> & H1 & H2)].
  - destruct (grid b2 r f); [|apply IH]. by rewrite IH.
  - rewrite IH. unfold slider_hits.
    by rewrite (bool_decide_eq_false_2 (color p1 = c)),
      (bool_decide_eq_false_2 (color p2 = c)).
Qed.

Lemma attacked_alike c b1 b2 sq e :
  alike_for c b1 b2 ->
  square_attacked_by b1 sq c e = square_attacked_by b2 sq c e.
Proof.
  intros Ha.
  assert (Hpawn : pawn_attacks b1 sq c = pawn_attacks b2 sq c).
  { unfold pawn_attacks. destruct sq as [rank file].
    apply existsb_pointwise. intros d. by apply stands_alike. }
  assert (Hleap : forall t deltas,
            leaper_attacks b1 sq c t deltas = leaper_attacks b2 sq c t deltas).
  { intros t deltas. unfold leaper_attacks. destruct sq as [rank file].
    apply existsb_pointwise. intros d. by apply stands_alike. }
  assert (Hray : slider_attacks b1 sq c e = slider_attacks b2 sq c e).
  { unfold slider_attacks. destruct sq as [rank file].
    apply existsb_pointwise. intros d. by apply ray_attack_alike. }
  unfold square_attacked_by. by rewrite Hpawn, !Hleap, Hray.
Qed.

Lemma find_pointwise {A} (P Q : A -> bool) (l : list A) :
  (forall x, x ∈ l -> P x = Q x) -> List.find P l = List.find Q l.
Proof.
  induction l as [|x l IH]; intros H; simpl; [done|].
  rewrite (H x) by by left. destruct (Q x); [done|].
  apply IH. intros y Hy. apply H. by right.
Qed.

Lemma king_safe_alike side b1 b2 :
  (forall r f, is_valid_square r f = true ->
     is_king_of side (grid b1 r f) = is_king_of side (grid b2 r f)) ->
  alike_for (other_side side) b1 b2 ->
  king_safe b1 side = king_safe b2 side.
Proof.
  intros Hk Ha. unfold king_safe.
  assert (find_king b1 side = find_king b2 side) as ->.
  { unfold find_king. apply find_pointwise. intros [r f] Hsq.
    apply Hk. by apply elem_all_squares. }
  destruct (find_king b2 side); [|done].
  by rewrite (attacked_alike _ b1 b2).
Qed.

Lemma promoted_boards_alike b a dst p p' piece :
  wf_grid b ->
  is_valid_square a.1 a.2 = true -> is_valid_square dst.1 dst.2 = true ->
  king_safe (moved_board b (promotion_move a dst p) piece) (color piece)
  = king_safe (moved_board b (promotion_move a dst p') piece) (color piece).
Proof.
  destruct a as [r0 f0], dst as [r1 f1]. cbn [fst snd].
  intros Hwf H0 H1. unfold moved_board, board_after_specials, arriving_piece.
  cbn [from_square to_square promotion_move is_en_passant is_castle
       promotion_piece].
  set (b3 := match grid b r1 f1 with
             | Some _ => grid_set b r1 f1 None
             | None => b
             end).
  assert (Hwf2 : wf_grid b3).
  { unfold b3. destruct (grid b r1 f1); [|done]. by apply wf_grid_set. }
  assert (Hwf3 : wf_grid (grid_set b3 r0 f0 None)) by (by apply wf_grid_set).
  clearbody b3.
  apply king_safe_alike.
  - intros r f Hv.
    rewrite !(grid_grid_set (grid_set b3 r0 f0 None)) by done.
    case_bool_decide; [|done]. simpl.
    rewrite !(bool_decide_eq_false_2 (_ = KING)); [done|by destruct p'|by destruct p].
  - intros r f Hv.
    rewrite !(grid_grid_set (grid_set b3 r0 f0 None)) by done.
    case_bool_decide; [|by left]. right. eexists _, _.
    split; [done|]. split; [done|]. simpl.
    split; by destruct (color piece).
Qed.

(** X28: promotions are all or none: on a well-formed position, if a
    promotion move is legal then the promotions of the same pawn to the
    same square to each of the four pieces are legal. *)
Theorem X28_promotion_all_or_none
    (b : Board) (gs : GameState) (from : option Square)
    (legal : list Move) (m : Move) (p p' : Promo) :
  wf_board b -> wf_state gs ->
  get_legal_moves b gs from = Ok legal -> m ∈ legal ->
  promotion_piece m = Some p ->
  promotion_move (from_square m) (to_square m) p' ∈ legal.
Proof.
  intros Hb Hgs Hl Hm Hp. unfold get_legal_moves in Hl.
  pose proof (proj1 (filter_legal_elem _ _ _ _ m Hl) Hm) as [Hps (r & Ha & Hk)].
  apply (filter_legal_elem _ _ _ _ _ Hl).
  apply pseudo_piece_iff in Hps as (r0 & f0 & piece & Hv & Hfrom & Hg & Hc & Hin).
  pose proof (promotion_siblings _ _ _ _ p p' Hin Hp) as Hin'.
  pose proof (moves_for_piece_generated _ _ _ _ Hin) as Gen.
  assert (Hpos : position piece = (r0, f0)) by (by apply Hb).
  pose proof (generated_from _ _ _ _ Gen) as Hf.
  assert (Hv0 : is_valid_square (position piece).1 (position piece).2 = true)
    by (by rewrite Hpos).
  pose proof (generated_to_valid _ _ _ _ Hgs Hv0 Gen) as Hto.
  assert (Hm_eq : m = promotion_move (from_square m) (to_square m) p).
  { inversion Gen; subst; try discriminate Hp.
    cbn in Hp. by injection Hp as ->. }
  split.
  { apply pseudo_piece_iff. by exists r0, f0, piece. }
  rewrite deep_copy_wf in * by done.
  assert (Hg0 : grid b (from_square m).1 (from_square m).2 = Some piece)
    by (by rewrite Hf, Hpos).
  assert (Hfv : is_valid_square (from_square m).1 (from_square m).2 = true)
    by (by rewrite Hf).
  rewrite (apply_move_ok b gs m piece Hfv Hto Hg0) in Ha.
  injection Ha as <-. cbn [fst] in Hk.
  rewrite (apply_move_ok b gs
             (promotion_move (from_square m) (to_square m) p') piece
             Hfv Hto Hg0).
  eexists. split; [done|]. cbn [fst].
  rewrite <- Hk, <- Hc. rewrite Hm_eq at 3.
  apply promoted_boards_alike; [apply Hb|done|done].
Qed.

(** The theorem for the a-pawn promoting: to a knight, since to a queen. *)
Lemma X28_promotion_all_or_none_witness :
  exists legal,
    get_legal_moves
      (load_fen "4k3/P7/8/8/8/8/8/4K3 w - - 0 1"%string).1
      (load_fen "4k3/P7/8/8/8/8/8/4K3 w - - 0 1"%string).2 None = Ok legal
    /\ promotion_move (6, 0) (7, 0) PromoQ ∈ legal
    /\ promotion_move (6, 0) (7, 0) PromoN ∈ legal.
Proof.
  set (st := load_fen "4k3/P7/8/8/8/8/8/4K3 w - - 0 1"%string).
  assert (Hb : wf_board st.1)
    by (apply wf_boardb_ok; vm_compute; reflexivity).
  assert (Hgs : wf_state st.2)
    by (apply wf_stateb_ok; vm_compute; reflexivity).
  let l := eval vm_compute in (get_legal_moves st.1 st.2 None) in
  match l with
  | Ok ?legal =>
      assert (Hl : get_legal_moves st.1 st.2 None = Ok legal) by by_eval;
      assert (Hin : promotion_move (6, 0) (7, 0) PromoQ ∈ legal) by in_list;
      exists legal
  end.
  split; [exact Hl|]. split; [exact Hin|].
  exact (X28_promotion_all_or_none st.1 st.2 None _
           (promotion_move (6, 0) (7, 0) PromoQ) PromoQ PromoN
           Hb Hgs Hl Hin eq_refl).
Defined.

(** ** Steps of pawns, knights and kings *)

Lemma leaper_moves_inv b piece deltas m :
  m ∈ _pseudo_legal_knight_king_moves b piece deltas ->
  exists d, d ∈ deltas
    /\ m = plain_move (position piece)
             ((position piece).1 + d.1, (position piece).2 + d.2).
Proof.
  unfold _pseudo_legal_knight_king_moves.
  destruct (position piece) as [r0 f0].
  intros (d & Hd & H)%elem_flat_map. exists d. split; [done|].
  cbn [fst snd] in *.
  destruct (is_valid_square (r0 + d.1) (f0 + d.2));
    [|by apply elem_of_nil in H].
  destruct (get_piece_at b (r0 + d.1) (f0 + d.2)) as [t|].
  - case_bool_decide; [by apply elem_of_nil in H|].
    by apply list_elem_of_singleton in H.
  - by apply list_elem_of_singleton in H.
Qed.

Lemma moves_for_piece_steps b gs piece m :
  m ∈ _pseudo_legal_moves_for_piece b gs piece -> steps_like piece m.
Proof.
  unfold _pseudo_legal_moves_for_piece, steps_like.
  destruct (piece_type piece) eqn:Et; [| | done..|]; intros H.
  - (* pawn *)
    unfold _pseudo_legal_pawn_moves in H.
    apply elem_of_app in H as [H|H]; [|apply elem_of_app in H as [H|H]].
    + unfold pawn_push_moves in H.
      destruct (position piece) as [r0 f0].
      destruct (is_valid_square (r0 + direction piece) f0
                && is_none (get_piece_at b (r0 + direction piece) f0));
        [|by apply elem_of_nil in H].
      destruct (last_rank (r0 + direction piece)).
      * apply elem_promotions in H as (q & ->). left. simpl. lia.
      * apply elem_of_cons in H as [->|H]; [left; simpl; lia|].
        destruct (r0 =? start_rank piece) eqn:Es; [|by apply elem_of_nil in H].
        destruct (is_none _); [|by apply elem_of_nil in H].
        apply list_elem_of_singleton in H as ->. right. simpl. lia.
    + unfold pawn_capture_moves in H.
      destruct (position piece) as [r0 f0].
      apply elem_flat_map in H as (df & Hdf & H).
      destruct (is_valid_square (r0 + direction piece) (f0 + df)
                && enemy_on b (r0 + direction piece) (f0 + df) piece);
        [|by apply elem_of_nil in H].
      assert (Z.abs df <= 1) by (elem_cases Hdf; subst df; lia).
      destruct (last_rank (r0 + direction piece)).
      * apply elem_promotions in H as (q & ->). left. simpl. lia.
      * apply list_elem_of_singleton in H as ->. left. simpl. lia.
    + unfold pawn_en_passant_moves in H.
      destruct (position piece) as [r0 f0].
      destruct (en_passant_target gs) as [[er ef]|];
        [|by apply elem_of_nil in H].
      match type of H with
      | context [if ?c then _ else _] => destruct c eqn:E
      end; [|by apply elem_of_nil in H].
      apply list_elem_of_singleton in H as ->. left. simpl.
      apply andb_true_iff in E as [E1 E2]. lia.
  - (* knight *)
    apply leaper_moves_inv in H as (d & Hd & ->).
    unfold knight_deltas in Hd. simpl.
    elem_cases Hd; subst d; simpl; lia.
  - (* king *)
    apply elem_of_app in H as [H|H].
    + apply leaper_moves_inv in H as (d & Hd & ->).
      unfold king_deltas in Hd. left. simpl.
      elem_cases Hd; subst d; simpl; lia.
    + apply castling_elem in H as (w & -> & _). right. simpl.
      split; [done|]. split; [lia|]. destruct w; simpl; lia.
Qed.

(** X29: on a well-formed board a legal move of a pawn goes one rank in
    the pawn's direction and at most one file sideways, or two ranks
    straight on from its start rank (then flagged as a double push); of a
    knight, one by two squares; of a king, at most one square each way,
    or, as castling, along its rank to file 6 or 2. *)
Theorem X29_steps_of_pawn_knight_king
    (b : Board) (gs : GameState) (from : option Square)
    (legal : list Move) (m : Move) (p : Piece) :
  wf_board b ->
  get_legal_moves b gs from = Ok legal -> m ∈ legal ->
  grid b (from_square m).1 (from_square m).2 = Some p ->
  steps_like p m.
Proof.
  intros Hb Hl Hm Hg.
  pose proof (legal_is_pseudo _ _ _ _ _ Hl Hm) as Hp.
  destruct (pseudo_inv_piece b gs from m Hp) as (r & f & q & Hv & Hq & _ & Hin).
  pose proof (moves_for_piece_generated _ _ _ _ Hin) as Gen.
  apply generated_from in Gen.
  assert (Hpos : position q = (r, f)) by (by apply Hb).
  rewrite Gen, Hpos in Hg. simpl in Hg.
  assert (q = p) as -> by congruence.
  by eapply moves_for_piece_steps.
Qed.

(** The theorem for the knight move b1-c3 at the starting position. *)
Lemma X29_steps_of_pawn_knight_king_witness :
  exists legal,
    wf_board (load_fen STARTING_FEN).1
    /\ get_legal_moves (load_fen STARTING_FEN).1 (load_fen STARTING_FEN).2 None
       = Ok legal
    /\ plain_move (0, 1) (2, 2) ∈ legal
    /\ steps_like (mkPiece KNIGHT WHITE (0, 1)) (plain_move (0, 1) (2, 2)).
Proof.
  set (st := load_fen STARTING_FEN).
  assert (Hb : wf_board st.1)
    by (apply wf_boardb_ok; vm_compute; reflexivity).
  let l := eval vm_compute in (get_legal_moves st.1 st.2 None) in
  match l with
  | Ok ?legal =>
      assert (Hl : get_legal_moves st.1 st.2 None = Ok legal) by by_eval;
      assert (Hin : plain_move (0, 1) (2, 2) ∈ legal) by in_list;
      exists legal
  end.
  assert (Hg : grid st.1 (from_square (plain_move (0, 1) (2, 2))).1
                 (from_square (plain_move (0, 1) (2, 2))).2
               = Some (mkPiece KNIGHT WHITE (0, 1))) by by_eval.
  split; [exact Hb|]. split; [exact Hl|]. split; [exact Hin|].
  exact (X29_steps_of_pawn_knight_king st.1 st.2 None _
           (plain_move (0, 1) (2, 2)) (mkPiece KNIGHT WHITE (0, 1))
           Hb Hl Hin Hg).
Defined.
